(** * dsipy: canonical strings, signatures, identity records and feeds

    A shallow embedding of the trust / signing core of dsipy
    ([shared/security.py], [shared/vcard.py], [apps/feeds/lib/feed.py])
    together with the properties its specification states about it, and
    of the feed helpers around it ([apps/feeds/lib/utils.py],
    [apps/feeds/lib/markdown.py]).

    Python values are modelled as follows.
    - [str] is a sequence of Unicode code points ([list N]);
    - [bytes] is a sequence of octets ([list byte]);
    - a call that may raise returns a [result]: [Ok v] or [Raise e];
    - a [dict] is an insertion-ordered association list with unique keys;
    - duck-typed library objects (the Ed25519 key handles of
      [cryptography]) are records of their methods. *)

From Stdlib Require Import List NArith ZArith Bool Lia Permutation.
From Stdlib Require Import Strings.String Strings.Ascii Strings.Byte.
From Stdlib Require Import DecimalString.
Import ListNotations.

Set Implicit Arguments.

(* ================================================================== *)
(** ** Python run-time model                                           *)
(* ================================================================== *)

Module Py.

(** The exception classes the modelled code can meet.  All of them derive
    from [Exception], so a handler [except Exception] catches each one. *)
Inductive exn : Type :=
| ValueError
| KeyError
| TypeError
| AttributeError
| UnicodeEncodeError
| UnboundLocalError
| InvalidSignature.

Inductive result (A : Type) : Type :=
| Ok (a : A)
| Raise (e : exn).

Arguments Ok {A} a.
Arguments Raise {A} e.

Definition bind {A B} (m : result A) (k : A -> result B) : result B :=
  match m with
  | Ok a => k a
  | Raise e => Raise e
  end.

(** [try: body / except Exception: handler]. *)
Definition try_except {A} (body : result A) (handler : exn -> result A)
  : result A :=
  match body with
  | Ok a => Ok a
  | Raise e => handler e
  end.

Definition succeeds {A} (m : result A) : bool :=
  match m with Ok _ => true | Raise _ => false end.

Definition str := list N.
Definition bytes := list byte.

(** An ASCII literal of the source text, as a [str]. *)
Definition lit (s : string) : str :=
  map N_of_ascii (list_ascii_of_string s).

(** The octets of an ASCII literal. *)
Definition octets (s : string) : bytes := list_byte_of_string s.

Definition LF : N := 10.
Definition CR : N := 13.

(** The one-character literal ["\n"], as a [str] and as a [string]. *)
Definition nl : str := [LF].
Definition newline : string := String "010" EmptyString.

Definition str_eqb (a b : str) : bool :=
  if list_eq_dec N.eq_dec a b then true else false.

(** Truthiness of a [str]: the empty string is falsy. *)
Definition truthy (s : str) : bool :=
  match s with [] => false | _ :: _ => true end.

(** Truthiness of an optional [str] ([None] or a string). *)
Definition truthy_opt (o : option str) : bool :=
  match o with None => false | Some s => truthy s end.

(** *** [str.encode("utf-8")] *)

Definition byte_of_N (n : N) : byte :=
  match Byte.of_N (N.land n 255) with
  | Some b => b
  | None => x00
  end.

Definition is_surrogate (c : N) : bool :=
  (0xD800 <=? c)%N && (c <=? 0xDFFF)%N.

Definition continuation (c : N) (shift : N) : byte :=
  byte_of_N (N.lor 0x80 (N.land (N.shiftr c shift) 0x3F)).

(** One code point.  A lone surrogate has no UTF-8 form: CPython raises
    [UnicodeEncodeError] (the default error handler is [strict]). *)
Definition utf8_char (c : N) : result bytes :=
  if (c <? 0x80)%N then Ok [byte_of_N c]
  else if (c <? 0x800)%N then
    Ok [byte_of_N (N.lor 0xC0 (N.shiftr c 6)); continuation c 0]
  else if (c <? 0x10000)%N then
    if is_surrogate c then Raise UnicodeEncodeError
    else Ok [byte_of_N (N.lor 0xE0 (N.shiftr c 12));
             continuation c 6; continuation c 0]
  else
    Ok [byte_of_N (N.lor 0xF0 (N.shiftr c 18));
        continuation c 12; continuation c 6; continuation c 0].

Fixpoint encode_utf8 (s : str) : result bytes :=
  match s with
  | [] => Ok []
  | c :: rest =>
      bind (utf8_char c) (fun b =>
      bind (encode_utf8 rest) (fun bs => Ok (b ++ bs)))
  end.

(** Text made of Unicode scalar values only (no lone surrogate). *)
Definition encodable (s : str) : bool :=
  forallb (fun c => negb (is_surrogate c)) s.

(** *** [bytes.hex()] and [bytes.fromhex()] *)

Definition hex_digit (n : N) : N :=
  if (n <? 10)%N then (48 + n)%N else (87 + n)%N.

Definition hex_of_byte (b : byte) : str :=
  let n := Byte.to_N b in
  [hex_digit (N.shiftr n 4); hex_digit (N.land n 15)].

Definition bytes_hex (b : bytes) : str := flat_map hex_of_byte b.

(** [_PyLong_DigitValue] restricted to base 16. *)
Definition hex_value (c : N) : option N :=
  if (48 <=? c)%N && (c <=? 57)%N then Some (c - 48)%N
  else if (97 <=? c)%N && (c <=? 102)%N then Some (c - 87)%N
  else if (65 <=? c)%N && (c <=? 70)%N then Some (c - 55)%N
  else None.

(** [Py_ISSPACE]: the ASCII white space [bytes.fromhex] skips between
    two octets. *)
Definition is_ascii_space (c : N) : bool :=
  ((9 <=? c)%N && (c <=? 13)%N) || (c =? 32)%N.

(** [bytes.fromhex(s)]: white space is skipped in front of an octet,
    never inside one; anything else that is not a pair of hexadecimal
    digits raises [ValueError]. *)
Fixpoint bytes_fromhex (s : str) : result bytes :=
  match s with
  | [] => Ok []
  | c :: s1 =>
      if is_ascii_space c then bytes_fromhex s1
      else
        match hex_value c with
        | None => Raise ValueError
        | Some top =>
            match s1 with
            | [] => Raise ValueError
            | c2 :: s2 =>
                match hex_value c2 with
                | None => Raise ValueError
                | Some bot =>
                    bind (bytes_fromhex s2) (fun rest =>
                    Ok (byte_of_N (N.shiftl top 4 + bot) :: rest))
                end
            end
        end
  end.

(** *** [str] methods used by the identity-record parser *)

(** [Py_UNICODE_ISSPACE]: the characters [str.strip()] removes. *)
Definition is_space (c : N) : bool :=
  ((0x9 <=? c)%N && (c <=? 0xD)%N)
  || ((0x1C <=? c)%N && (c <=? 0x20)%N)
  || (c =? 0x85)%N || (c =? 0xA0)%N || (c =? 0x1680)%N
  || ((0x2000 <=? c)%N && (c <=? 0x200A)%N)
  || (c =? 0x2028)%N || (c =? 0x2029)%N || (c =? 0x202F)%N
  || (c =? 0x205F)%N || (c =? 0x3000)%N.

(** [Py_UNICODE_ISLINEBREAK]: the line boundaries of [str.splitlines()]. *)
Definition is_linebreak (c : N) : bool :=
  ((0xA <=? c)%N && (c <=? 0xD)%N)
  || ((0x1C <=? c)%N && (c <=? 0x1E)%N)
  || (c =? 0x85)%N || (c =? 0x2028)%N || (c =? 0x2029)%N.

Fixpoint lstrip (s : str) : str :=
  match s with
  | [] => []
  | c :: rest => if is_space c then lstrip rest else s
  end.

Definition rstrip (s : str) : str := rev (lstrip (rev s)).

Definition strip (s : str) : str := rstrip (lstrip s).

(** [splitlines_from cur s]: [cur] is the current line read so far, in
    reverse.  A carriage return directly followed by a line feed is one
    boundary; a final boundary opens no empty last line. *)
Fixpoint splitlines_from (cur : str) (s : str) : list str :=
  match s with
  | [] => match cur with [] => [] | _ :: _ => [rev cur] end
  | c :: rest =>
      if (c =? CR)%N then
        match rest with
        | c2 :: rest2 =>
            if (c2 =? LF)%N then rev cur :: splitlines_from [] rest2
            else rev cur :: splitlines_from [] rest
        | [] => rev cur :: splitlines_from [] rest
        end
      else if is_linebreak c then rev cur :: splitlines_from [] rest
      else splitlines_from (c :: cur) rest
  end.

Definition splitlines (s : str) : list str := splitlines_from [] s.

Fixpoint startswith (prefix s : str) : bool :=
  match prefix, s with
  | [], _ => true
  | _ :: _, [] => false
  | p :: prefix', c :: s' => (p =? c)%N && startswith prefix' s'
  end.

(** [sep in s] for a one-character [sep]. *)
Definition str_in (sep : N) (s : str) : bool := existsb (N.eqb sep) s.

(** [s.split(sep)] for a one-character [sep]: every occurrence splits. *)
Fixpoint split_char (sep : N) (s : str) : list str :=
  match s with
  | [] => [[]]
  | c :: rest =>
      if (c =? sep)%N then [] :: split_char sep rest
      else
        match split_char sep rest with
        | h :: t => (c :: h) :: t
        | [] => [[c]]
        end
  end.

(** The text before and after the first [sep], if there is one. *)
Fixpoint break_at (sep : N) (s : str) : option (str * str) :=
  match s with
  | [] => None
  | c :: rest =>
      if (c =? sep)%N then Some ([], rest)
      else
        match break_at sep rest with
        | Some (a, b) => Some (c :: a, b)
        | None => None
        end
  end.

(** [s.split(sep, 1)] for a one-character [sep]. *)
Definition split_once (sep : N) (s : str) : list str :=
  match break_at sep s with
  | Some (a, b) => [a; b]
  | None => [s]
  end.

(** The tuple assignment [a, b = xs]. *)
Definition unpack2 (xs : list str) : result (str * str) :=
  match xs with
  | [a; b] => Ok (a, b)
  | _ => Raise ValueError
  end.

Definition COLON : N := 58.
Definition SEMICOLON : N := 59.
Definition EQUALS : N := 61.

(** *** [dict] with [str] keys: insertion-ordered, keys unique *)

Definition dict (V : Type) := list (str * V).

Fixpoint dict_get {V} (d : dict V) (k : str) : option V :=
  match d with
  | [] => None
  | (k', v) :: rest => if str_eqb k' k then Some v else dict_get rest k
  end.

Definition dict_has {V} (d : dict V) (k : str) : bool :=
  match dict_get d k with Some _ => true | None => false end.

(** [d[k] = v]: an existing key keeps its place, a new one goes last. *)
Fixpoint dict_set {V} (d : dict V) (k : str) (v : V) : dict V :=
  match d with
  | [] => [(k, v)]
  | (k', v') :: rest =>
      if str_eqb k' k then (k', v) :: rest
      else (k', v') :: dict_set rest k v
  end.

(** [d[k]], raising [KeyError] for a missing key. *)
Definition dict_item {V} (d : dict V) (k : str) : result V :=
  match dict_get d k with
  | Some v => Ok v
  | None => Raise KeyError
  end.

(** *** Dynamically typed values *)

(** The values that reach the renderers: [None], a [str], an [int], or a
    [datetime] (kept as the text [str()] gives for it). *)
Inductive pyval : Type :=
| PNone
| PStr (s : str)
| PInt (z : Z)
| PDate (text : str).

Definition decimal (z : Z) : str := lit (NilEmpty.string_of_int (Z.to_int z)).

(** [format(v, "")], what an f-string field [{v}] inserts. *)
Definition format_value (v : pyval) : str :=
  match v with
  | PNone => lit "None"
  | PStr s => s
  | PInt z => decimal z
  | PDate text => text
  end.

Definition truthy_val (v : pyval) : bool :=
  match v with
  | PNone => false
  | PStr s => truthy s
  | PInt z => negb (z =? 0)%Z
  | PDate _ => true
  end.

(** The parts of the interpreter that depend on the Unicode character
    database: [str.upper], [str.lower], and [int(str)] ([None] stands for
    the [ValueError] of a text that is no integer literal). *)
Record builtins : Type := {
  str_upper : str -> str;
  str_lower : str -> str;
  int_of_str : str -> option Z
}.

(** These builtins on ASCII text: letters [a]-[z] / [A]-[Z] change case;
    an integer literal is an optional sign and decimal digits, a single
    underscore allowed between two digits, white space around it. *)
Definition ascii_upper_char (c : N) : N :=
  if (97 <=? c)%N && (c <=? 122)%N then (c - 32)%N else c.

Definition ascii_lower_char (c : N) : N :=
  if (65 <=? c)%N && (c <=? 90)%N then (c + 32)%N else c.

Definition is_ascii_digit (c : N) : bool := (48 <=? c)%N && (c <=? 57)%N.

Fixpoint ascii_digits (acc : Z) (s : str) : option Z :=
  match s with
  | [] => Some acc
  | c :: rest =>
      if is_ascii_digit c
      then ascii_digits (10 * acc + Z.of_N (c - 48)) rest
      else if (c =? 95)%N then
        match rest with
        | c2 :: _ => if is_ascii_digit c2 then ascii_digits acc rest else None
        | [] => None
        end
      else None
  end.

Definition ascii_unsigned (s : str) : option Z :=
  match s with
  | [] => None
  | c :: _ => if is_ascii_digit c then ascii_digits 0 s else None
  end.

Definition ascii_int (s : str) : option Z :=
  match strip s with
  | 43%N :: rest => ascii_unsigned rest
  | 45%N :: rest => option_map Z.opp (ascii_unsigned rest)
  | t => ascii_unsigned t
  end.

Definition ascii_builtins : builtins := {|
  str_upper := map ascii_upper_char;
  str_lower := map ascii_lower_char;
  int_of_str := ascii_int
|}.

End Py.

Notation "x <- m ;; k" := (Py.bind m (fun x => k))
  (at level 61, m at next level, right associativity).

Import Py.

(* ================================================================== *)
(** ** shared/security.py                                              *)
(* ================================================================== *)

Module security.

(** The key handles are opaque objects of the [cryptography] package;
    the code only calls [private_key.sign(data)] and
    [public_key.verify(signature, data)].  [verify] returns [None] on
    success and raises otherwise. *)
Record private_key_obj : Type := { sign : bytes -> result bytes }.
Record public_key_obj : Type := { verify : bytes -> bytes -> result unit }.

(** [f"endorse:{endorsee_key_b64}".encode("utf-8")] *)
Definition canonical_endorsement_string (endorsee_key_b64 : str)
  : result bytes :=
  encode_utf8 (lit "endorse:" ++ endorsee_key_b64).

Definition sign_endorsement (private_key : private_key_obj)
  (endorsee_key_b64 : str) : result str :=
  canonical <- canonical_endorsement_string endorsee_key_b64 ;;
  sig <- sign private_key canonical ;;
  Ok (bytes_hex sig).

Definition verify_endorsement_signature (public_key : public_key_obj)
  (endorsee_key_b64 signature_hex : str) : result bool :=
  canonical <- canonical_endorsement_string endorsee_key_b64 ;;
  try_except
    (raw <- bytes_fromhex signature_hex ;;
     _ <- verify public_key raw canonical ;;
     Ok true)
    (fun _ => Ok false).

(** [f"{pub_date}\n{title}\n{description_plain}".encode("utf-8")] *)
Definition canonical_feed_string (pub_date title description_plain : str)
  : result bytes :=
  encode_utf8 (pub_date ++ nl ++ title ++ nl ++ description_plain).

(** The diagnostic [print] of the source writes to standard output only
    and is left out. *)
Definition sign_feed_item (private_key : private_key_obj)
  (pub_date title description_plain : str) : result str :=
  canonical <- canonical_feed_string pub_date title description_plain ;;
  sig <- sign private_key canonical ;;
  Ok (bytes_hex sig).

Definition verify_feed_signature (public_key : public_key_obj)
  (pub_date title description_plain signature_hex : str) : result bool :=
  canonical <- canonical_feed_string pub_date title description_plain ;;
  try_except
    (raw <- bytes_fromhex signature_hex ;;
     _ <- verify public_key raw canonical ;;
     Ok true)
    (fun _ => Ok false).

(** A signature made with the private half verifies under the public
    half: the correctness property of the signature scheme itself. *)
Definition keypair (priv : private_key_obj) (pub : public_key_obj) : Prop :=
  forall m : bytes, exists sig, sign priv m = Ok sig /\ verify pub sig m = Ok tt.

End security.

(* ================================================================== *)
(** ** shared/vcard.py                                                 *)
(* ================================================================== *)

Module PublicKey.
Record t : Type := { alg : str; key_b64 : str; pref : option Z }.
End PublicKey.

Module Endorsement.
Record t : Type := {
  endorsee_key_b64 : str;
  signature_hex : str;
  date : option str;
  confidence : option str
}.
End Endorsement.

Module RevokedKey.
Record t : Type := { key_b64 : str; reason : option str; date : option str }.
End RevokedKey.

Module Profile.
Record t : Type := {
  fn : option str;
  photo : option str;
  capabilities : list str;
  public_keys : list PublicKey.t;
  endorsements : list Endorsement.t;
  revocations : list RevokedKey.t;
  raw : str
}.

(** [Profile(raw=text)] *)
Definition new (text : str) : t :=
  {| fn := None; photo := None; capabilities := [];
     public_keys := []; endorsements := []; revocations := [];
     raw := text |}.

Definition set_fn (p : t) (v : str) : t :=
  {| fn := Some v; photo := photo p; capabilities := capabilities p;
     public_keys := public_keys p; endorsements := endorsements p;
     revocations := revocations p; raw := raw p |}.

Definition set_photo (p : t) (v : str) : t :=
  {| fn := fn p; photo := Some v; capabilities := capabilities p;
     public_keys := public_keys p; endorsements := endorsements p;
     revocations := revocations p; raw := raw p |}.

Definition append_public_key (p : t) (k : PublicKey.t) : t :=
  {| fn := fn p; photo := photo p; capabilities := capabilities p;
     public_keys := public_keys p ++ [k]; endorsements := endorsements p;
     revocations := revocations p; raw := raw p |}.

Definition append_endorsement (p : t) (e : Endorsement.t) : t :=
  {| fn := fn p; photo := photo p; capabilities := capabilities p;
     public_keys := public_keys p; endorsements := endorsements p ++ [e];
     revocations := revocations p; raw := raw p |}.

Definition append_revocation (p : t) (r : RevokedKey.t) : t :=
  {| fn := fn p; photo := photo p; capabilities := capabilities p;
     public_keys := public_keys p; endorsements := endorsements p;
     revocations := revocations p ++ [r]; raw := raw p |}.
End Profile.

Module vcard.

Section Parser.

Variable B : builtins.

(** One pass of the loop body of [parse_params]. *)
Definition parse_param (params : dict str) (p : str) : dict str :=
  if str_in EQUALS p then
    match split_once EQUALS p with
    | [k; v] => dict_set params (str_upper B k) v
    | _ => params
    end
  else params.

Definition parse_params (header : str) : dict str :=
  let parts := tl (split_char SEMICOLON header) in
  fold_left parse_param parts [].

(** [params.get(k, default)] *)
Definition get_default (params : dict str) (k : str) (default : str) : str :=
  match dict_get params k with
  | Some v => v
  | None => default
  end.

(** The [pref=] argument: [int(params["PREF"]) if "PREF" in params else None]. *)
Definition parse_pref (params : dict str) : result (option Z) :=
  if dict_has params (lit "PREF") then
    v <- dict_item params (lit "PREF") ;;
    match int_of_str B v with
    | Some n => Ok (Some n)
    | None => Raise ValueError
    end
  else Ok None.

(** The body of the [for line in lines] loop. *)
Definition parse_line (profile : Profile.t) (line : str)
  : result Profile.t :=
  if startswith (lit "FN:") line then
    Ok (Profile.set_fn profile (skipn 3 line))
  else if startswith (lit "PHOTO:") line then
    Ok (Profile.set_photo profile (skipn 6 line))
  else if startswith (lit "KEY;") line then
    hv <- unpack2 (split_once COLON line) ;;
    let (header, value) := hv in
    let params := parse_params header in
    let alg := str_lower B (get_default params (lit "ALG") []) in
    pref <- parse_pref params ;;
    Ok (Profile.append_public_key profile
          {| PublicKey.alg := alg;
             PublicKey.key_b64 := value;
             PublicKey.pref := pref |})
  else if startswith (lit "REVKEY;") line then
    hv <- unpack2 (split_once COLON line) ;;
    let (header, value) := hv in
    let params := parse_params header in
    Ok (Profile.append_revocation profile
          {| RevokedKey.key_b64 := value;
             RevokedKey.reason := dict_get params (lit "REASON");
             RevokedKey.date := dict_get params (lit "DATE") |})
  else if startswith (lit "X-ENDORSE;") line then
    hv <- unpack2 (split_once COLON line) ;;
    let (header, value) := hv in
    let params := parse_params header in
    Ok (Profile.append_endorsement profile
          {| Endorsement.endorsee_key_b64 := value;
             Endorsement.signature_hex := get_default params (lit "SIG") [];
             Endorsement.date := dict_get params (lit "DATE");
             Endorsement.confidence := dict_get params (lit "CONFIDENCE") |})
  else Ok profile.

Fixpoint parse_lines (profile : Profile.t) (lines : list str)
  : result Profile.t :=
  match lines with
  | [] => Ok profile
  | line :: rest =>
      profile' <- parse_line profile line ;;
      parse_lines profile' rest
  end.

(** [[line.strip() for line in text.splitlines() if line.strip()]] *)
Definition stripped_lines (text : str) : list str :=
  map strip (filter (fun line => truthy (strip line)) (splitlines text)).

Definition parse_vcard (text : str) : result Profile.t :=
  parse_lines (Profile.new text) (stripped_lines text).

End Parser.

(** A verifier's view of one key of a parsed record. *)
Inductive trust : Type :=
| Revoked
| Published
| Unknown.

Definition listed (k : str) (ids : list str) : bool :=
  existsb (str_eqb k) ids.

(** Modelled from the spec: the trust query over a parsed [Profile], which
    the sources do not contain ([parse_vcard] only fills the two lists).
    The precedence rule of the data model is followed to the letter: a
    key identifier found in the RevokedKey list is revoked, whatever the
    PublicKey list says about it, wherever it stands in it and whatever
    its preference rank. *)
Definition key_status (p : Profile.t) (k : str) : trust :=
  if listed k (map RevokedKey.key_b64 (Profile.revocations p)) then Revoked
  else if listed k (map PublicKey.key_b64 (Profile.public_keys p))
  then Published
  else Unknown.

Section Builder.

Variable B : builtins.

(** [if value: vcard_content += line(value)] *)
Definition add_field (value : option str) (line : str -> str)
  (vcard_content : str) : str :=
  if truthy_opt value then
    match value with
    | Some v => vcard_content ++ line v
    | None => vcard_content
    end
  else vcard_content.

(** [key['alg'].lower()]: the entry must exist and be a [str]. *)
Definition key_alg (key : dict pyval) : result str :=
  v <- dict_item key (lit "alg") ;;
  match v with
  | PStr s => Ok (str_lower B s)
  | _ => Raise AttributeError
  end.

(** [key.get('pref', 1)] *)
Definition key_pref (key : dict pyval) : pyval :=
  match dict_get key (lit "pref") with
  | Some v => v
  | None => PInt 1
  end.

(** The f-string of the [for key in keys] loop; its fields are evaluated
    from left to right. *)
Definition key_line (key : dict pyval) : result str :=
  alg <- key_alg key ;;
  let pref := key_pref key in
  encoding <- dict_item key (lit "encoding") ;;
  key_b64 <- dict_item key (lit "key_b64") ;;
  Ok (lit "KEY;TYPE=public;ALG=" ++ alg
      ++ lit ";PREF=" ++ format_value pref
      ++ lit ";ENCODING=" ++ format_value encoding
      ++ lit ":" ++ format_value key_b64 ++ nl).

Fixpoint add_keys (keys : list (dict pyval)) (vcard_content : str)
  : result str :=
  match keys with
  | [] => Ok vcard_content
  | key :: rest =>
      line <- key_line key ;;
      add_keys rest (vcard_content ++ line)
  end.

(** [for attribute_name, attribute_value in custom_attributes.items()] *)
Fixpoint add_custom (custom_attributes : dict str) (vcard_content : str)
  : str :=
  match custom_attributes with
  | [] => vcard_content
  | (attribute_name, attribute_value) :: rest =>
      add_custom rest
        (vcard_content ++ attribute_name ++ lit ":" ++ attribute_value ++ nl)
  end.

Definition build_vcard_content
  (fn n nickname lang gender email categories bday anniversary kind adr tel
   impp photo note url source : option str)
  (custom_attributes : option (dict str))
  (keys : option (list (dict pyval))) : result str :=
  let custom_attributes :=
    match custom_attributes with
    | None => []
    | Some d => d
    end in
  let vcard_content := lit "BEGIN:VCARD" ++ nl ++ lit "VERSION:4.0" ++ nl in
  let vcard_content :=
    add_field fn (fun v => lit "FN:" ++ v ++ nl) vcard_content in
  let vcard_content :=
    add_field n (fun v => lit "N:" ++ v ++ lit ";;;;" ++ nl) vcard_content in
  let vcard_content :=
    add_field nickname (fun v => lit "NICKNAME:" ++ v ++ nl) vcard_content in
  let vcard_content :=
    add_field lang (fun v => lit "LANG:" ++ v ++ nl) vcard_content in
  let vcard_content :=
    add_field gender (fun v => lit "GENDER:" ++ v ++ nl) vcard_content in
  let vcard_content :=
    add_field email (fun v => lit "EMAIL:" ++ v ++ nl) vcard_content in
  let vcard_content :=
    add_field categories (fun v => lit "CATEGORIES:" ++ v ++ nl)
      vcard_content in
  let vcard_content :=
    add_field bday (fun v => lit "BDAY:" ++ v ++ nl) vcard_content in
  let vcard_content :=
    add_field anniversary (fun v => lit "ANNIVERSARY:" ++ v ++ nl)
      vcard_content in
  let vcard_content :=
    add_field kind (fun v => lit "KIND:" ++ v ++ nl) vcard_content in
  let vcard_content :=
    add_field adr (fun v => lit "ADR:" ++ v ++ nl) vcard_content in
  let vcard_content :=
    add_field tel (fun v => lit "TEL:" ++ v ++ nl) vcard_content in
  let vcard_content :=
    add_field impp (fun v => lit "IMPP:" ++ v ++ nl) vcard_content in
  let vcard_content :=
    add_field photo (fun v => lit "PHOTO:" ++ v ++ nl) vcard_content in
  let vcard_content :=
    add_field note (fun v => lit "NOTE;LANGUAGE=en-US:" ++ v ++ nl)
      vcard_content in
  let vcard_content :=
    add_field url (fun v => lit "URL:" ++ v ++ nl) vcard_content in
  let vcard_content :=
    add_field source (fun v => lit "SOURCE:" ++ v ++ nl) vcard_content in
  vcard_content <-
    match keys with
    | Some (key :: rest) => add_keys (key :: rest) vcard_content
    | _ => Ok vcard_content
    end ;;
  let vcard_content := add_custom custom_attributes vcard_content in
  Ok (vcard_content ++ lit "END:VCARD").

End Builder.

End vcard.

(* ================================================================== *)
(** ** apps/feeds/lib/feed.py                                          *)
(* ================================================================== *)

Module feed.

(** The [Signature] extension: the hexadecimal signature is the content
    of the element, the signer's key identifier its [keyId] attribute. *)
Record Signature : Type := { signature_value : str; key_id : str }.

(** The keyword arguments given to [rfeed.Item].  [extensions] is the
    one-element list the source builds: the extension, or [None]. *)
Record Item : Type := {
  item_title : pyval;
  item_link : pyval;
  item_description : pyval;
  item_author : str;
  item_guid : pyval;
  item_pubDate : pyval;
  item_extensions : list (option Signature)
}.

(** The keyword arguments given to [rfeed.Feed]; its two Atom extensions
    are built from [link] alone. *)
Record Feed : Type := {
  feed_title : pyval;
  feed_link : str;
  feed_description : pyval;
  feed_language : str;
  feed_lastBuildDate : pyval;
  feed_items : list Item;
  feed_atom_link : str
}.

(** The [sign] dictionary of the caller: [{"key": ..., "id": ...}]. *)
Record sign_ctx : Type := {
  key : option security.private_key_obj;
  id : str
}.

(** The local variables of [generate_rss] that the loop rebinds.  A
    variable that no assignment has reached yet is unbound ([None] here);
    [title] and [description] start as the parameters of these names. *)
Record locals : Type := {
  title : pyval;
  description : pyval;
  var_signature_value : option (option str);
  var_signature_id : option (option str)
}.

(** Reading a local variable. *)
Definition read_local {A} (v : option A) : result A :=
  match v with
  | Some a => Ok a
  | None => Raise UnboundLocalError
  end.

Section Generator.

(** [slugify] of [lib/utils.py] rests on [unicodedata] and [re]; the
    serialisation [Feed.rss()] belongs to [rfeed].  Both are taken as
    given. *)
Variable slugify : str -> str.
Variable rss : Feed -> result str.

(** [item.get(k)] *)
Definition item_get (item : dict pyval) (k : str) : pyval :=
  match dict_get item k with
  | Some v => v
  | None => PNone
  end.

(** [item.get("id") or slugify(item["path"])] *)
Definition item_id (item : dict pyval) : result pyval :=
  let v := item_get item (lit "id") in
  if truthy_val v then Ok v
  else
    path <- dict_item item (lit "path") ;;
    match path with
    | PStr s => Ok (PStr (slugify s))
    | _ => Raise TypeError
    end.

(** The [if sign:] block. *)
Definition bind_signature (sign : option sign_ctx) (pub_date : pyval)
  (ls : locals) : result locals :=
  match sign with
  | Some ctx =>
      sv <- match key ctx with
            | Some private_key =>
                h <- security.sign_feed_item private_key
                       (format_value pub_date)
                       (format_value (title ls))
                       (format_value (description ls)) ;;
                Ok (Some h)
            | None => Ok None
            end ;;
      let sid := if truthy (id ctx) then Some (id ctx) else None in
      Ok {| title := title ls; description := description ls;
            var_signature_value := Some sv;
            var_signature_id := Some sid |}
  | None => Ok ls
  end.

(** [Signature(signature_value, sign["id"]) if signature_value and
    signature_id else None] *)
Definition signature_extension (sign : option sign_ctx) (ls : locals)
  : result (option Signature) :=
  sv <- read_local (var_signature_value ls) ;;
  match sv with
  | None => Ok None
  | Some h =>
      if truthy h then
        sid <- read_local (var_signature_id ls) ;;
        if truthy_opt sid then
          match sign with
          | Some ctx =>
              Ok (Some {| signature_value := h; key_id := id ctx |})
          | None => Raise TypeError
          end
        else Ok None
      else Ok None
  end.

(** The body of [for item in items]. *)
Definition item_step (link : str) (author : dict pyval)
  (sign : option sign_ctx) (ls : locals) (item : dict pyval)
  : result (locals * Item) :=
  id <- item_id item ;;
  pub_date <- dict_item item (lit "date") ;;
  let ls := {| title := item_get item (lit "title");
               description := item_get item (lit "content");
               var_signature_value := var_signature_value ls;
               var_signature_id := var_signature_id ls |} in
  ls <- bind_signature sign pub_date ls ;;
  let item_link :=
    let v := item_get item (lit "link") in
    if truthy_val v then v
    else PStr (link ++ lit "/feed/" ++ format_value id) in
  name <- dict_item author (lit "name") ;;
  email <- dict_item author (lit "email") ;;
  ext <- signature_extension sign ls ;;
  Ok (ls,
      {| item_title := title ls;
         item_link := item_link;
         item_description := description ls;
         item_author :=
           format_value name ++ lit " (" ++ format_value email ++ lit ")";
         item_guid := id;
         item_pubDate := pub_date;
         item_extensions := [ext] |}).

Fixpoint item_loop (link : str) (author : dict pyval)
  (sign : option sign_ctx) (ls : locals) (feed_items : list Item)
  (items : list (dict pyval)) : result (locals * list Item) :=
  match items with
  | [] => Ok (ls, feed_items)
  | item :: rest =>
      r <- item_step link author sign ls item ;;
      item_loop link author sign (fst r) (feed_items ++ [snd r]) rest
  end.

Definition generate_rss (title0 link description0 : str)
  (author : dict pyval) (language : str) (build_date : pyval)
  (items : list (dict pyval)) (sign : option sign_ctx) : result str :=
  let ls := {| title := PStr title0; description := PStr description0;
               var_signature_value := None; var_signature_id := None |} in
  r <- item_loop link author sign ls [] items ;;
  rss {| feed_title := title (fst r);
         feed_link := link;
         feed_description := description (fst r);
         feed_language := language;
         feed_lastBuildDate := build_date;
         feed_items := snd r;
         feed_atom_link := link |}.

End Generator.

End feed.

(* ================================================================== *)
(** ** Vocabulary for the statements about identity records            *)
(* ================================================================== *)

Module record_lines.

(** A line one of the five branches of [parse_line] takes up. *)
Definition recognized (line : str) : bool :=
  startswith (lit "FN:") line || startswith (lit "PHOTO:") line
  || startswith (lit "KEY;") line || startswith (lit "REVKEY;") line
  || startswith (lit "X-ENDORSE;") line.

(** The text in front of the first colon of a line. *)
Definition header_of (line : str) : str :=
  match break_at COLON line with
  | Some (header, _) => header
  | None => line
  end.

(** [PREF] is absent, or a text [int] accepts. *)
Definition pref_ok (B : builtins) (params : dict str) : bool :=
  match dict_get params (lit "PREF") with
  | Some v => match int_of_str B v with Some _ => true | None => false end
  | None => true
  end.

(** The lines on which the loop body of [parse_vcard] does not raise. *)
Definition line_ok (B : builtins) (line : str) : bool :=
  if startswith (lit "FN:") line then true
  else if startswith (lit "PHOTO:") line then true
  else if startswith (lit "KEY;") line then
    str_in COLON line && pref_ok B (vcard.parse_params B (header_of line))
  else if startswith (lit "REVKEY;") line then str_in COLON line
  else if startswith (lit "X-ENDORSE;") line then str_in COLON line
  else true.

(** A property header written out: [;K1=V1;K2=V2...] behind the name. *)
Definition render_param (kv : str * str) : str :=
  [SEMICOLON] ++ fst kv ++ [EQUALS] ++ snd kv.

Definition render_params (ps : list (str * str)) : str :=
  List.concat (map render_param ps).

(** One part of [header.split(";")]: [K=V]. *)
Definition param_text (kv : str * str) : str := fst kv ++ EQUALS :: snd kv.

(** A parameter as it can be written in a header: no [;] and no [=] in
    the name, no [;] in the value. *)
Definition param_wf (kv : str * str) : bool :=
  negb (str_in SEMICOLON (fst kv)) && negb (str_in EQUALS (fst kv))
  && negb (str_in SEMICOLON (snd kv)).

(** The dictionary a parameter list stands for, names upper-cased and
    values untouched. *)
Definition params_dict (B : builtins) (ps : list (str * str)) : dict str :=
  fold_left (fun d kv => dict_set d (str_upper B (fst kv)) (snd kv)) ps [].

(** Two parameter lists that differ in the letter case of the names at
    most: same values, same names once upper-cased. *)
Definition same_up_to_case (B : builtins) (ps ps' : list (str * str))
  : Prop :=
  Forall2
    (fun a b => str_upper B (fst a) = str_upper B (fst b) /\ snd a = snd b)
    ps ps'.

(** The names of the properties that carry parameters. *)
Definition property_names : list str :=
  [lit "KEY"; lit "REVKEY"; lit "X-ENDORSE"].

(** The line [NAME;K1=V1;...:VALUE]. *)
Definition property_line (name : str) (ps : list (str * str)) (value : str)
  : str :=
  name ++ render_params ps ++ [COLON] ++ value.

(** The identifiers a line adds to the RevokedKey and to the PublicKey
    list of a profile. *)
Definition revoked_by (line : str) : list str :=
  if startswith (lit "REVKEY;") line then
    match break_at COLON line with
    | Some (_, value) => [value]
    | None => []
    end
  else [].

Definition published_by (line : str) : list str :=
  if startswith (lit "KEY;") line then
    match break_at COLON line with
    | Some (_, value) => [value]
    | None => []
    end
  else [].

Definition public_ids (p : Profile.t) : list str :=
  map PublicKey.key_b64 (Profile.public_keys p).

Definition revoked_ids (p : Profile.t) : list str :=
  map RevokedKey.key_b64 (Profile.revocations p).

(** The scenario of the specification, with its two lines in either
    order, and the profile it is expected to parse to. *)
Definition scenario : str :=
  lit ("KEY;ALG=ed25519;PREF=1;ENCODING=b:AAAA" ++ newline
       ++ "REVKEY;REASON=compromised:AAAA" ++ newline).

Definition scenario_swapped : str :=
  lit ("REVKEY;REASON=compromised:AAAA" ++ newline
       ++ "KEY;ALG=ed25519;PREF=1;ENCODING=b:AAAA" ++ newline).

Definition scenario_profile (text : str) : Profile.t :=
  {| Profile.fn := None;
     Profile.photo := None;
     Profile.capabilities := [];
     Profile.public_keys :=
       [{| PublicKey.alg := lit "ed25519";
           PublicKey.key_b64 := lit "AAAA";
           PublicKey.pref := Some 1%Z |}];
     Profile.endorsements := [];
     Profile.revocations :=
       [{| RevokedKey.key_b64 := lit "AAAA";
           RevokedKey.reason := Some (lit "compromised");
           RevokedKey.date := None |}];
     Profile.raw := text |}.

End record_lines.

(* ================================================================== *)
(** ** The rendered identity record, line by line                      *)
(* ================================================================== *)

Module rendered.

(** The text of a list of lines, each closed by a line feed. *)
Definition join_lines (lines : list str) : str :=
  flat_map (fun line => line ++ nl) lines.

(** A field gives one line when its value is a non-empty text, and no
    line when the value is absent or empty. *)
Definition field_lines (line : str -> str) (value : option str) : list str :=
  match value with
  | Some (c :: v) => [line (c :: v)]
  | _ => []
  end.

Definition labelled (label : string) (v : str) : str := lit label ++ v.

(** A key that has what the [KEY] line reads: an [alg] text, an
    [encoding] and a [key_b64]. *)
Definition key_complete (key : dict pyval) : bool :=
  match dict_get key (lit "alg") with
  | Some (PStr _) => true
  | _ => false
  end
  && dict_has key (lit "encoding") && dict_has key (lit "key_b64").

Definition entry (key : dict pyval) (k : string) : pyval :=
  match dict_get key (lit k) with
  | Some v => v
  | None => PNone
  end.

Definition key_text (B : builtins) (key : dict pyval) : str :=
  lit "KEY;TYPE=public;ALG="
  ++ match entry key "alg" with PStr s => str_lower B s | _ => [] end
  ++ lit ";PREF=" ++ format_value (vcard.key_pref key)
  ++ lit ";ENCODING=" ++ format_value (entry key "encoding")
  ++ lit ":" ++ format_value (entry key "key_b64").

Definition custom_line (kv : str * str) : str :=
  fst kv ++ lit ":" ++ snd kv.

Definition or_empty {A} (o : option (list A)) : list A :=
  match o with
  | Some l => l
  | None => []
  end.

(** The lines of the record in front of [END:VCARD]: the two opening
    lines, the populated fields in their fixed order, the keys, the
    custom attributes. *)
Definition vcard_lines (B : builtins)
  (fn n nickname lang gender email categories bday anniversary kind adr tel
   impp photo note url source : option str)
  (custom_attributes : option (dict str))
  (keys : option (list (dict pyval))) : list str :=
  [lit "BEGIN:VCARD"; lit "VERSION:4.0"]
  ++ field_lines (labelled "FN:") fn
  ++ field_lines (fun v => lit "N:" ++ v ++ lit ";;;;") n
  ++ field_lines (labelled "NICKNAME:") nickname
  ++ field_lines (labelled "LANG:") lang
  ++ field_lines (labelled "GENDER:") gender
  ++ field_lines (labelled "EMAIL:") email
  ++ field_lines (labelled "CATEGORIES:") categories
  ++ field_lines (labelled "BDAY:") bday
  ++ field_lines (labelled "ANNIVERSARY:") anniversary
  ++ field_lines (labelled "KIND:") kind
  ++ field_lines (labelled "ADR:") adr
  ++ field_lines (labelled "TEL:") tel
  ++ field_lines (labelled "IMPP:") impp
  ++ field_lines (labelled "PHOTO:") photo
  ++ field_lines (labelled "NOTE;LANGUAGE=en-US:") note
  ++ field_lines (labelled "URL:") url
  ++ field_lines (labelled "SOURCE:") source
  ++ map (key_text B) (or_empty keys)
  ++ map custom_line (or_empty custom_attributes).

End rendered.

(* ================================================================== *)
(** ** A signature scheme to run the definitions on                    *)
(* ================================================================== *)

Module demo.

Definition bytes_eqb (a b : bytes) : bool :=
  if list_eq_dec Byte.byte_eq_dec a b then true else false.

(** The signature of a message is the message reversed behind the key
    octet; the public half accepts this signature and no other. *)
Definition private (k : byte) : security.private_key_obj :=
  {| security.sign := fun m => Ok (k :: rev m) |}.

Definition public (k : byte) : security.public_key_obj :=
  {| security.verify := fun sig m =>
       if bytes_eqb sig (k :: rev m) then Ok tt else Raise InvalidSignature |}.

(** A feed item as [MarkdownFeed._parse_file] builds it, and the author
    dictionary of [MarkdownFeed.build]. *)
Definition post : dict pyval :=
  [(lit "title", PStr (lit "Hello"));
   (lit "date", PDate (lit "2025-01-01 00:00:00"));
   (lit "link", PNone);
   (lit "content", PStr (lit "<p>World</p>"));
   (lit "path", PStr (lit "posts/hello.md"))].

Definition author : dict pyval :=
  [(lit "name", PStr (lit "Ann"));
   (lit "email", PStr (lit "ann@example.com"))].

End demo.

(* ================================================================== *)
(** ** The parsed profile, line by line                                *)
(* ================================================================== *)

Module parsed.

Section Entries.

Variable B : builtins.

(** The PublicKey entry a [KEY;] line gives, when the line has a colon
    and its [PREF], if any, is an integer text. *)
Definition key_entry (line : str) : list PublicKey.t :=
  if startswith (lit "KEY;") line then
    match break_at COLON line with
    | Some (header, value) =>
        let params := vcard.parse_params B header in
        match vcard.parse_pref B params with
        | Ok pref =>
            [{| PublicKey.alg :=
                  str_lower B (vcard.get_default params (lit "ALG") []);
                PublicKey.key_b64 := value;
                PublicKey.pref := pref |}]
        | Raise _ => []
        end
    | None => []
    end
  else [].

(** The RevokedKey entry a [REVKEY;] line with a colon gives. *)
Definition revocation_entry (line : str) : list RevokedKey.t :=
  if startswith (lit "REVKEY;") line then
    match break_at COLON line with
    | Some (header, value) =>
        let params := vcard.parse_params B header in
        [{| RevokedKey.key_b64 := value;
            RevokedKey.reason := dict_get params (lit "REASON");
            RevokedKey.date := dict_get params (lit "DATE") |}]
    | None => []
    end
  else [].

(** The Endorsement entry an [X-ENDORSE;] line with a colon gives. *)
Definition endorsement_entry (line : str) : list Endorsement.t :=
  if startswith (lit "X-ENDORSE;") line then
    match break_at COLON line with
    | Some (header, value) =>
        let params := vcard.parse_params B header in
        [{| Endorsement.endorsee_key_b64 := value;
            Endorsement.signature_hex :=
              vcard.get_default params (lit "SIG") [];
            Endorsement.date := dict_get params (lit "DATE");
            Endorsement.confidence := dict_get params (lit "CONFIDENCE") |}]
    | None => []
    end
  else [].

End Entries.

(** The text behind [prefix] on the last line that starts with it,
    [init] when there is no such line. *)
Definition last_value (prefix : str) (init : option str) (lines : list str)
  : option str :=
  fold_left
    (fun acc line =>
       if startswith prefix line
       then Some (skipn (List.length prefix) line)
       else acc)
    lines init.

End parsed.

(* ================================================================== *)
(** ** Vocabulary for the statements about feeds                       *)
(* ================================================================== *)

Module feed_shape.

(** An item the loop body can render: it has a date, and a truthy
    identifier or a path that is a text. *)
Definition item_ready (item : dict pyval) : bool :=
  dict_has item (lit "date")
  && (truthy_val (feed.item_get item (lit "id"))
      || match dict_get item (lit "path") with
         | Some (PStr _) => true
         | _ => false
         end).

Definition author_ready (author : dict pyval) : bool :=
  dict_has author (lit "name") && dict_has author (lit "email").

(** The three texts of an item that are signed: its date, its title and
    its content, as an f-string formats them. *)
Definition signed_date (item : dict pyval) : str :=
  format_value (feed.item_get item (lit "date")).

Definition signed_title (item : dict pyval) : str :=
  format_value (feed.item_get item (lit "title")).

Definition signed_content (item : dict pyval) : str :=
  format_value (feed.item_get item (lit "content")).

Definition fields_encodable (item : dict pyval) : bool :=
  encodable (signed_date item) && encodable (signed_title item)
  && encodable (signed_content item).

(** The value of a local variable behind the loop: what the last item
    bound it to, or its initial value when there is no item. *)
Definition after_loop (k : string) (init : pyval) (items : list (dict pyval))
  : pyval :=
  last (map (fun item => feed.item_get item (lit k)) items) init.

(** A private key that never returns the empty signature. *)
Definition signs_nonempty (priv : security.private_key_obj) : Prop :=
  forall m sig, security.sign priv m = Ok sig -> sig <> [].

(** The identifier of a ready item: its truthy [id], or the slug of its
    path. *)
Definition item_identifier (slugify : str -> str) (item : dict pyval)
  : pyval :=
  let v := feed.item_get item (lit "id") in
  if truthy_val v then v
  else
    match dict_get item (lit "path") with
    | Some (PStr s) => PStr (slugify s)
    | _ => PNone
    end.

(** The [Item] built for a ready item, with a given extension. *)
Definition rendered_item (slugify : str -> str) (link : str)
  (author : dict pyval) (item : dict pyval) (ext : option feed.Signature)
  : feed.Item :=
  {| feed.item_title := feed.item_get item (lit "title");
     feed.item_link :=
       (let v := feed.item_get item (lit "link") in
        if truthy_val v then v
        else PStr (link ++ lit "/feed/"
                   ++ format_value (item_identifier slugify item)));
     feed.item_description := feed.item_get item (lit "content");
     feed.item_author :=
       format_value (feed.item_get author (lit "name")) ++ lit " ("
       ++ format_value (feed.item_get author (lit "email")) ++ lit ")";
     feed.item_guid := item_identifier slugify item;
     feed.item_pubDate := feed.item_get item (lit "date");
     feed.item_extensions := [ext] |}.

(** The feed handed to [rss()] for a non-failing run. *)
Definition rendered_feed (title link description language : str)
  (build_date : pyval) (items : list (dict pyval))
  (feed_items : list feed.Item) : feed.Feed :=
  {| feed.feed_title := after_loop "title" (PStr title) items;
     feed.feed_link := link;
     feed.feed_description := after_loop "content" (PStr description) items;
     feed.feed_language := language;
     feed.feed_lastBuildDate := build_date;
     feed.feed_items := feed_items;
     feed.feed_atom_link := link |}.

End feed_shape.

(* ================================================================== *)
(** ** apps/feeds/lib/utils.py                                         *)
(* ================================================================== *)

Module utils.

Definition HYPHEN : N := 45.

(** The class [a-z0-9] of the regular expression. *)
Definition is_slug_char (c : N) : bool :=
  ((97 <=? c)%N && (c <=? 122)%N) || ((48 <=? c)%N && (c <=? 57)%N).

(** [.encode("ascii", "ignore").decode("ascii")]: the characters outside
    ASCII are dropped. *)
Definition ascii_only (s : str) : str := filter (fun c => (c <? 128)%N) s.

(** [re.sub(r"[^a-z0-9]+", "-", s)]: every maximal run of characters
    outside the class becomes one hyphen.  [in_run] tells that the run
    the scan is in has its hyphen already. *)
Fixpoint sub_runs (in_run : bool) (s : str) : str :=
  match s with
  | [] => []
  | c :: rest =>
      if is_slug_char c then c :: sub_runs false rest
      else if in_run then sub_runs true rest
      else HYPHEN :: sub_runs true rest
  end.

(** [s.strip("-")] *)
Fixpoint lstrip_hyphens (s : str) : str :=
  match s with
  | [] => []
  | c :: rest => if (c =? HYPHEN)%N then lstrip_hyphens rest else s
  end.

Definition strip_hyphens (s : str) : str :=
  rev (lstrip_hyphens (rev (lstrip_hyphens s))).

Section Slugify.

(** [unicodedata.normalize("NFKD", text)] rests on the Unicode character
    database and is taken as given. *)
Variable nfkd : str -> str.

(** On text that is all ASCII, which [ascii_text] is, [str.lower]
    changes the letters [A]-[Z] and nothing else. *)
Definition slugify (text : str) : str :=
  let normalized := nfkd text in
  let ascii_text := ascii_only normalized in
  let ascii_text := map ascii_lower_char ascii_text in
  let ascii_text := sub_runs false ascii_text in
  let ascii_text := strip_hyphens ascii_text in
  ascii_text.

End Slugify.

(** The shape of a slug: characters of [a-z0-9] and hyphens, no hyphen
    at either end, no two hyphens in a row. *)
Fixpoint no_double_hyphen (s : str) : bool :=
  match s with
  | c :: (d :: _) as rest =>
      negb ((c =? HYPHEN)%N && (d =? HYPHEN)%N) && no_double_hyphen rest
  | _ => true
  end.

Definition slug_alphabet (s : str) : bool :=
  forallb (fun c => is_slug_char c || (c =? HYPHEN)%N) s.

Definition slug_shaped (s : str) : bool :=
  slug_alphabet s
  && negb (startswith [HYPHEN] s)
  && negb (startswith [HYPHEN] (rev s))
  && no_double_hyphen s.

Definition ascii_text (s : str) : bool := forallb (fun c => (c <? 128)%N) s.

End utils.

(* ================================================================== *)
(** ** Feed inputs to run the definitions on                           *)
(* ================================================================== *)

Module demo_feed.

(** A stand-in for [Feed.rss()]: the number of items, as text. *)
Definition rss (f : feed.Feed) : result str :=
  Ok (decimal (Z.of_nat (List.length (feed.feed_items f)))).

Definition slug : str -> str := utils.slugify (fun s => s).

Definition signing : feed.sign_ctx :=
  {| feed.key := Some (demo.private x2a); feed.id := lit "AAAA" |}.

Definition keyless : feed.sign_ctx :=
  {| feed.key := None; feed.id := lit "AAAA" |}.

Definition second_post : dict pyval :=
  [(lit "title", PStr (lit "Again"));
   (lit "date", PDate (lit "2025-01-02 00:00:00"));
   (lit "content", PStr (lit "<p>More</p>"));
   (lit "id", PStr (lit "again"))].

End demo_feed.

(* ================================================================== *)
(** ** Vocabulary for the statements about signature texts             *)
(* ================================================================== *)

Module hex_text.

(** The digits [bytes.hex()] writes: [0]-[9] and [a]-[f]. *)
Definition is_lower_hex (c : N) : bool :=
  ((48 <=? c)%N && (c <=? 57)%N) || ((97 <=? c)%N && (c <=? 102)%N).

Definition lower_hex (s : str) : bool := forallb is_lower_hex s.

Definition ascii_spaces (s : str) : bool := forallb is_ascii_space s.

(** The same text in capital letters. *)
Definition upper (s : str) : str := map ascii_upper_char s.

End hex_text.

(* ================================================================== *)
(** ** Vocabulary for the statements about lines of text               *)
(* ================================================================== *)

Module text_shape.

(** A text without line boundary: [splitlines] keeps it in one piece. *)
Definition one_line (s : str) : bool :=
  forallb (fun c => negb (is_linebreak c)) s.

(** A text without white space at all. *)
Definition spaceless (s : str) : bool :=
  forallb (fun c => negb (is_space c)) s.

(** A text that neither starts nor ends with white space. *)
Definition starts_with_space (s : str) : bool :=
  match s with
  | [] => false
  | c :: _ => is_space c
  end.

Definition trimmed (s : str) : bool :=
  negb (starts_with_space s) && negb (starts_with_space (rev s)).

End text_shape.

(* ================================================================== *)
(** ** Vocabulary for reading a built record back                      *)
(* ================================================================== *)

Module roundtrip.

Import text_shape.

(** A field value that stays on its line. *)
Definition plain_field (v : option str) : bool :=
  match v with
  | Some s => one_line s
  | None => true
  end.

(** What the parser reads for a field that was written: the value
    without the white space at its end, and nothing for a value that is
    absent or empty. *)
Definition read_back (v : option str) : option str :=
  match v with
  | Some (c :: s) => Some (rstrip (c :: s))
  | _ => None
  end.

(** The parameter names of a built [KEY] line are upper-case already. *)
Definition names_kept (B : builtins) : Prop :=
  str_upper B (lit "TYPE") = lit "TYPE"
  /\ str_upper B (lit "ALG") = lit "ALG"
  /\ str_upper B (lit "PREF") = lit "PREF"
  /\ str_upper B (lit "ENCODING") = lit "ENCODING".

(** The four texts a [KEY] line is made of. *)
Definition alg_text (B : builtins) (key : dict pyval) : str :=
  match rendered.entry key "alg" with
  | PStr s => str_lower B s
  | _ => []
  end.

Definition pref_text (key : dict pyval) : str :=
  format_value (vcard.key_pref key).

Definition encoding_text (key : dict pyval) : str :=
  format_value (rendered.entry key "encoding").

Definition key_b64_text (key : dict pyval) : str :=
  format_value (rendered.entry key "key_b64").

(** A text that can stand in a header: on one line, without colon and
    without semicolon. *)
Definition header_text (s : str) : bool :=
  one_line s && negb (str_in COLON s) && negb (str_in SEMICOLON s).

(** A key whose line can be read back: it is complete, its algorithm,
    rank and encoding can stand in a header, its identifier stays on
    the line, and its rank is a text [int] accepts. *)
Definition key_writable (B : builtins) (key : dict pyval) : bool :=
  rendered.key_complete key
  && header_text (alg_text B key) && header_text (pref_text key)
  && header_text (encoding_text key) && one_line (key_b64_text key)
  && match int_of_str B (pref_text key) with
     | Some _ => true
     | None => false
     end.

Definition key_read_back (B : builtins) (key : dict pyval) : PublicKey.t :=
  {| PublicKey.alg := str_lower B (alg_text B key);
     PublicKey.key_b64 := rstrip (key_b64_text key);
     PublicKey.pref := int_of_str B (pref_text key) |}.

(** A custom attribute whose line stays one line and is none of the
    lines the parser takes up. *)
Definition custom_ignorable (kv : str * str) : bool :=
  one_line (rendered.custom_line kv)
  && negb (record_lines.recognized (strip (rendered.custom_line kv))).

(** The profile read back from a built record. *)
Definition profile_read_back (B : builtins) (fn photo : option str)
  (keys : option (list (dict pyval))) (text : str) : Profile.t :=
  {| Profile.fn := read_back fn;
     Profile.photo := read_back photo;
     Profile.capabilities := [];
     Profile.public_keys := map (key_read_back B) (rendered.or_empty keys);
     Profile.endorsements := [];
     Profile.revocations := [];
     Profile.raw := text |}.

(** The parameters of a built [KEY] line. *)
Definition key_params (B : builtins) (key : dict pyval)
  : list (str * str) :=
  [(lit "TYPE", lit "public"); (lit "ALG", alg_text B key);
   (lit "PREF", pref_text key); (lit "ENCODING", encoding_text key)].

(** [[line.strip() for line in lines if line.strip()]] *)
Definition clean (lines : list str) : list str :=
  map strip (filter (fun line => truthy (strip line)) lines).

End roundtrip.

(* ================================================================== *)
(** ** [apps/feeds/lib/markdown.py]: posts with a front matter         *)
(* ================================================================== *)

Module markdown.

(** [s.replace(old, new)] for a non-empty [old]: the occurrences of
    [old] are taken from the left and do not overlap.  [skip] counts the
    characters of the occurrence just replaced that still lie ahead. *)
Fixpoint replace_from (old new : str) (skip : nat) (s : str) : str :=
  match s with
  | [] => []
  | c :: rest =>
      match skip with
      | S k => replace_from old new k rest
      | O =>
          if startswith old s
          then new ++ replace_from old new (List.length old - 1) rest
          else c :: replace_from old new 0 rest
      end
  end.

Definition replace (old new s : str) : str := replace_from old new 0 s.

(** [sep.join(xs)] *)
Fixpoint join (sep : str) (xs : list str) : str :=
  match xs with
  | [] => []
  | [x] => x
  | x :: rest => x ++ sep ++ join sep rest
  end.

Definition fence : str := lit "---".

Definition fields : list str := [lit "title"; lit "date"; lit "link"].

(** One turn of [for field in fields] on the stripped [line]. *)
Definition read_field (line : str) (frontmatter : dict str) (field : str)
  : dict str :=
  let prefix := field ++ lit ":" in
  if startswith prefix line
  then dict_set frontmatter field (strip (replace prefix [] line))
  else frontmatter.

Definition read_fields (frontmatter : dict str) (line : str) : dict str :=
  fold_left (read_field line) fields frontmatter.

(** The [while] loop, on [lines[i:]]: it stops at the first line that
    strips to the fence, or behind the last line.  The second component
    is [lines[i + 1:]] for the [i] the loop stopped at. *)
Fixpoint front_matter_loop (frontmatter : dict str) (lines : list str)
  : dict str * list str :=
  match lines with
  | [] => (frontmatter, [])
  | l :: rest =>
      if str_eqb (strip l) fence then (frontmatter, rest)
      else front_matter_loop (read_fields frontmatter (strip l)) rest
  end.

(** [frontmatter] and [content_lines] of [_parse_file] for the lines of
    a file. *)
Definition front_matter (lines : list str) : dict str * list str :=
  match lines with
  | first :: rest =>
      if str_eqb (strip first) fence then front_matter_loop [] rest
      else ([], lines)
  | [] => ([], lines)
  end.

(** ["T" in text] *)
Definition LETTER_T : N := 84.

Definition date_format (text : str) : str :=
  if str_in LETTER_T text then lit "%Y-%m-%dT%H:%M:%SZ" else lit "%Y-%m-%d".

Section ParseFile.

(** Taken as given: [markdown.markdown], the file name without its
    directories and extension
    ([os.path.splitext(os.path.basename(path))[0]]), and
    [datetime.strptime], which returns the date (kept as its text) or
    raises [ValueError]. *)
Variable markdown_html : str -> str.
Variable stem : str -> str.
Variable strptime : str -> str -> result str.

(** [_parse_file(path)], for the [lines] that [readlines()] gives for
    the file and the day [mtime_day] of its last change (as
    [strftime("%Y-%m-%d")] gives it). *)
Definition _parse_file (path : str) (lines : list str) (mtime_day : str)
  : result (dict pyval) :=
  let frontmatter := fst (front_matter lines) in
  let content_lines := snd (front_matter lines) in
  let frontmatter :=
    if truthy_opt (dict_get frontmatter (lit "title")) then frontmatter
    else dict_set frontmatter (lit "title") (stem path) in
  let frontmatter :=
    if truthy_opt (dict_get frontmatter (lit "date")) then frontmatter
    else dict_set frontmatter (lit "date") mtime_day in
  let html_content := markdown_html (List.concat content_lines) in
  title <- dict_item frontmatter (lit "title") ;;
  date_text <- dict_item frontmatter (lit "date") ;;
  date <- strptime date_text (date_format date_text) ;;
  Ok [(lit "title", PStr title);
      (lit "date", PDate date);
      (lit "link",
       match dict_get frontmatter (lit "link") with
       | Some l => PStr l
       | None => PNone
       end);
      (lit "content", PStr html_content);
      (lit "path", PStr path)].

End ParseFile.

(** [author_data] of [build]. *)
Definition author_data (author email : str) : dict pyval :=
  [(lit "name", PStr author); (lit "email", PStr email)].

(** How a command ends: it returns, it raises an exception, or it leaves
    through [typer.Exit]. *)
Inductive outcome (A : Type) : Type :=
| Returned (a : A)
| Raised (e : exn)
| Exited.

Arguments Returned {A} a.
Arguments Raised {A} e.
Arguments Exited {A}.

(** The files there are, by path, with their text.  Every path that
    exists is taken to be a file, and a new file can be opened under
    every path that does not exist. *)
Definition files := dict str.

(** [_create_state_content]: the function builds [file_content] and ends
    without a [return] statement. *)
Definition _create_state_content (title message : str) (date : option str)
  : pyval :=
  let attributes :=
    [(lit "title", if truthy title then Some title else None);
     (lit "date", date)] in
  let front_matter :=
    join nl
      (flat_map
         (fun kv =>
            match snd kv with
            | Some value =>
                if truthy value then [fst kv ++ lit ": " ++ value] else []
            | None => []
            end)
         attributes) in
  let file_content :=
    fence ++ nl ++ front_matter ++ nl ++ fence ++ nl ++ message ++ nl in
  PNone.

(** [create_state]: [open(destination, "w")] makes the file, empty;
    [f.write] takes a [str] and raises [TypeError] for anything else. *)
Definition create_state (fs : files) (destination title message : str)
  (date : option str) : files * outcome unit :=
  let content := _create_state_content title message date in
  if dict_has fs destination then (fs, Exited)
  else
    let fs := dict_set fs destination [] in
    match content with
    | PStr text => (dict_set fs destination text, Returned tt)
    | _ => (fs, Raised TypeError)
    end.

End markdown.

(* ================================================================== *)
(** ** Vocabulary for the statements about posts                       *)
(* ================================================================== *)

Module post_shape.

(** No line of [lines] strips to the fence. *)
Definition fenceless (lines : list str) : bool :=
  forallb (fun l => negb (str_eqb (strip l) markdown.fence)) lines.

(** The front matter read from the lines between the fences. *)
Definition fields_of (lines : list str) : dict str :=
  fold_left markdown.read_fields (map strip lines) [].

(** The path, the lines and the day of change of a file. *)
Record source : Type := {
  path : str;
  lines : list str;
  mtime_day : str
}.

End post_shape.

(* ================================================================== *)
(** ** Stand-ins for the libraries behind [_parse_file]                *)
(* ================================================================== *)

Module demo_markdown.

Definition html (s : str) : str := lit "<p>" ++ s ++ lit "</p>".

Definition stem (p : str) : str := p.

(** A date is taken if it begins with a digit. *)
Definition strptime (text format : str) : result str :=
  match text with
  | c :: _ => if is_ascii_digit c then Ok text else Raise ValueError
  | [] => Raise ValueError
  end.

Definition hello : post_shape.source :=
  {| post_shape.path := lit "posts/hello.md";
     post_shape.lines := [lit "---" ++ nl; lit "title: Hello" ++ nl;
                          lit "---" ++ nl; lit "World" ++ nl];
     post_shape.mtime_day := lit "2025-01-01" |}.

(** What [_parse_file] makes of [hello] with these stand-ins. *)
Definition hello_state : dict pyval :=
  [(lit "title", PStr (lit "Hello"));
   (lit "date", PDate (lit "2025-01-01"));
   (lit "link", PNone);
   (lit "content", PStr (lit "<p>World" ++ nl ++ lit "</p>"));
   (lit "path", PStr (lit "posts/hello.md"))].

Definition undated : post_shape.source :=
  {| post_shape.path := lit "posts/soon.md";
     post_shape.lines := [lit "---" ++ nl; lit "date: tomorrow" ++ nl;
                          lit "---" ++ nl; lit "Soon" ++ nl];
     post_shape.mtime_day := lit "2025-01-01" |}.

End demo_markdown.

(* ================================================================== *)
(** ** Vocabulary for the statements about encoded text                *)
(* ================================================================== *)

Module code_points.

(** The code points a [str] can hold: those up to U+10FFFF. *)
Definition in_range (c : N) : bool := (c <? 0x110000)%N.

Definition in_range_text (s : str) : bool := forallb in_range s.

(** The octets of one code point, as numbers: one to four of them, by
    the size of the code point. *)
Definition utf8_values (c : N) : list N :=
  (if c <? 0x80 then [c]
   else if c <? 0x800 then [192 + c / 64; 128 + c mod 64]
   else if c <? 0x10000 then
     [224 + c / 4096; 128 + (c / 64) mod 64; 128 + c mod 64]
   else
     [240 + c / 262144; 128 + (c / 4096) mod 64; 128 + (c / 64) mod 64;
      128 + c mod 64])%N.

End code_points.

(* ================================================================== *)
(** ** Properties of the run-time model                                *)
(* ================================================================== *)

Section EncodingFacts.

Lemma bind_assoc {A B C} (m : result A) (f : A -> result B)
  (g : B -> result C) :
  bind (bind m f) g = bind m (fun a => bind (f a) g).
Proof. destruct m; reflexivity. Qed.

Lemma bind_ok_inv {A B} (m : result A) (f : A -> result B) (b : B) :
  bind m f = Ok b -> exists a, m = Ok a /\ f a = Ok b.
Proof.
  destruct m as [a|e]; simpl; intros H.
  - exists a; split; [reflexivity | exact H].
  - discriminate H.
Qed.

(** Encoding distributes over concatenation; an unencodable character on
    either side makes the whole call raise. *)
Lemma encode_utf8_app (s t : str) :
  encode_utf8 (s ++ t) =
  (bs <- encode_utf8 s ;; bt <- encode_utf8 t ;; Ok (bs ++ bt)).
Proof.
  induction s as [|c s IH]; simpl.
  - destruct (encode_utf8 t); reflexivity.
  - destruct (utf8_char c) as [b|e]; simpl; [|reflexivity].
    rewrite IH.
    destruct (encode_utf8 s) as [bs|e]; simpl; [|reflexivity].
    destruct (encode_utf8 t) as [bt|e]; simpl; [|reflexivity].
    now rewrite app_assoc.
Qed.

Lemma utf8_char_scalar (c : N) :
  is_surrogate c = false -> exists b, utf8_char c = Ok b.
Proof.
  intros H. unfold utf8_char. rewrite H.
  destruct (c <? 128)%N; [eauto|].
  destruct (c <? 2048)%N; [eauto|].
  destruct (c <? 65536)%N; eauto.
Qed.

Lemma utf8_char_surrogate (c : N) :
  is_surrogate c = true -> utf8_char c = Raise UnicodeEncodeError.
Proof.
  intros H. unfold utf8_char. rewrite H.
  unfold is_surrogate in H. apply andb_prop in H as [H1 H2].
  apply N.leb_le in H1. apply N.leb_le in H2.
  destruct (N.ltb_spec c 128); [lia|].
  destruct (N.ltb_spec c 2048); [lia|].
  destruct (N.ltb_spec c 65536); [reflexivity|lia].
Qed.

(** [encode] succeeds exactly on text without lone surrogates. *)
Lemma encode_utf8_total (s : str) :
  encodable s = true -> exists b, encode_utf8 s = Ok b.
Proof.
  induction s as [|c s IH]; simpl; intros H.
  - eauto.
  - apply andb_prop in H as [Hc Hs].
    apply negb_true_iff in Hc.
    destruct (utf8_char_scalar c Hc) as [b Hb].
    destruct (IH Hs) as [bs Hbs].
    rewrite Hb, Hbs. simpl. eauto.
Qed.

Lemma encode_utf8_ok_encodable (s : str) (b : bytes) :
  encode_utf8 s = Ok b -> encodable s = true.
Proof.
  revert b. induction s as [|c s IH]; simpl; intros b H; [reflexivity|].
  apply bind_ok_inv in H as (b1 & H1 & H).
  apply bind_ok_inv in H as (b2 & H2 & _).
  rewrite (IH _ H2), andb_true_r.
  destruct (is_surrogate c) eqn:E; [|reflexivity].
  rewrite (utf8_char_surrogate c E) in H1. discriminate H1.
Qed.

Lemma encodable_app (s t : str) :
  encodable (s ++ t) = encodable s && encodable t.
Proof. unfold encodable. apply forallb_app. Qed.

End EncodingFacts.

Section HexFacts.

Lemma hex_pair_roundtrip (b : byte) :
  let n := Byte.to_N b in
  is_ascii_space (hex_digit (N.shiftr n 4)) = false /\
  hex_value (hex_digit (N.shiftr n 4)) = Some (N.shiftr n 4) /\
  hex_value (hex_digit (N.land n 15)) = Some (N.land n 15) /\
  byte_of_N (N.shiftl (N.shiftr n 4) 4 + N.land n 15) = b.
Proof. destruct b; vm_compute; repeat split. Qed.

Lemma fromhex_octet (x : byte) (s : str) :
  bytes_fromhex (hex_of_byte x ++ s) =
  (rest <- bytes_fromhex s ;; Ok (x :: rest)).
Proof.
  destruct (hex_pair_roundtrip x) as (Hs & Ht & Hb & Hx).
  unfold hex_of_byte.
  cbn [app bytes_fromhex].
  rewrite Hs, Ht, Hb, Hx. reflexivity.
Qed.

(** [bytes.fromhex(b.hex()) == b]. *)
Lemma fromhex_hex (b : bytes) : bytes_fromhex (bytes_hex b) = Ok b.
Proof.
  induction b as [|x b IH]; [reflexivity|].
  change (bytes_hex (x :: b)) with (hex_of_byte x ++ bytes_hex b).
  now rewrite fromhex_octet, IH.
Qed.

End HexFacts.

(* ================================================================== *)
(** ** Canonical strings, signing and verification                     *)
(* ================================================================== *)

Section Canonicalizer.

Import security.

(** The [try] block of a verification function, as a boolean. *)
Lemma try_verify_as_bool (pub : public_key_obj) (h : str) (c : bytes) :
  try_except
    (raw <- bytes_fromhex h ;; _ <- verify pub raw c ;; Ok true)
    (fun _ => Ok false)
  = Ok (succeeds (raw <- bytes_fromhex h ;; verify pub raw c)).
Proof.
  destruct (bytes_fromhex h) as [raw|e]; simpl; [|reflexivity].
  destruct (verify pub raw c); reflexivity.
Qed.

Lemma verify_feed_as_bool (pub : public_key_obj) (d t s h : str) :
  verify_feed_signature pub d t s h
  = (c <- canonical_feed_string d t s ;;
     Ok (succeeds (raw <- bytes_fromhex h ;; verify pub raw c))).
Proof.
  unfold verify_feed_signature.
  destruct (canonical_feed_string d t s) as [c|e]; simpl; [|reflexivity].
  apply try_verify_as_bool.
Qed.

Lemma verify_endorsement_as_bool (pub : public_key_obj) (k h : str) :
  verify_endorsement_signature pub k h
  = (c <- canonical_endorsement_string k ;;
     Ok (succeeds (raw <- bytes_fromhex h ;; verify pub raw c))).
Proof.
  unfold verify_endorsement_signature.
  destruct (canonical_endorsement_string k) as [c|e]; simpl; [|reflexivity].
  apply try_verify_as_bool.
Qed.

(** C1.  The canonical feed-item bytes are the UTF-8 form of the date,
    the title and the plain description, in this order, with one line
    feed between two fields: as one encoded string, and field by field.
    The scenario of the specification yields the expected octets, and
    both [sign_feed_item] and [verify_feed_signature] hand exactly these
    bytes to the signature primitive. *)
Theorem canonical_feed_string_spec (d t s : str) :
  canonical_feed_string d t s
    = encode_utf8 (d ++ lit newline ++ t ++ lit newline ++ s)
  /\ canonical_feed_string d t s
    = (bd <- encode_utf8 d ;; bt <- encode_utf8 t ;; bs <- encode_utf8 s ;;
       Ok (bd ++ [x0a] ++ bt ++ [x0a] ++ bs))
  /\ canonical_feed_string
       (lit "2025-01-01T00:00:00Z") (lit "Hello") (lit "World")
    = Ok (octets ("2025-01-01T00:00:00Z" ++ newline ++ "Hello"
                  ++ newline ++ "World"))
  /\ (forall priv,
        sign_feed_item priv d t s
        = (c <- canonical_feed_string d t s ;;
           sig <- sign priv c ;; Ok (bytes_hex sig)))
  /\ (forall pub h,
        verify_feed_signature pub d t s h
        = (c <- canonical_feed_string d t s ;;
           Ok (succeeds (raw <- bytes_fromhex h ;; verify pub raw c)))).
Proof.
  split; [reflexivity|].
  split.
  { unfold canonical_feed_string.
    rewrite !encode_utf8_app.
    destruct (encode_utf8 d) as [bd|e]; simpl; [|reflexivity].
    destruct (encode_utf8 t) as [bt|e]; simpl; [|reflexivity].
    destruct (encode_utf8 s) as [bs|e]; simpl; reflexivity. }
  split; [reflexivity|].
  split; [reflexivity|].
  intros pub h. apply verify_feed_as_bool.
Qed.

(** C4.  The canonical endorsement bytes are the UTF-8 form of the
    literal [endorse:] followed by the key identifier: the eight octets
    of the literal, then the octets of the identifier, and nothing after
    them.  [sign_endorsement] and [verify_endorsement_signature] hand
    exactly these bytes to the signature primitive. *)
Theorem canonical_endorsement_string_spec (k : str) :
  canonical_endorsement_string k = encode_utf8 (lit "endorse:" ++ k)
  /\ canonical_endorsement_string k
    = (bk <- encode_utf8 k ;; Ok (octets "endorse:" ++ bk))
  /\ canonical_endorsement_string [] = Ok (octets "endorse:")
  /\ (forall priv,
        sign_endorsement priv k
        = (c <- canonical_endorsement_string k ;;
           sig <- sign priv c ;; Ok (bytes_hex sig)))
  /\ (forall pub h,
        verify_endorsement_signature pub k h
        = (c <- canonical_endorsement_string k ;;
           Ok (succeeds (raw <- bytes_fromhex h ;; verify pub raw c)))).
Proof.
  split; [reflexivity|].
  split.
  { unfold canonical_endorsement_string.
    rewrite encode_utf8_app.
    destruct (encode_utf8 k) as [bk|e]; reflexivity. }
  split; [reflexivity|].
  split; [reflexivity|].
  intros pub h. apply verify_endorsement_as_bool.
Qed.

Lemma canonical_endorsement_total (k : str) :
  encodable k = true -> exists c, canonical_endorsement_string k = Ok c.
Proof.
  intros H. apply encode_utf8_total.
  rewrite encodable_app, H. reflexivity.
Qed.

Lemma canonical_feed_total (d t s : str) :
  encodable d = true -> encodable t = true -> encodable s = true ->
  exists c, canonical_feed_string d t s = Ok c.
Proof.
  intros Hd Ht Hs. apply encode_utf8_total.
  rewrite !encodable_app, Hd, Ht, Hs. reflexivity.
Qed.

End Canonicalizer.

Section SignVerify.

Import security.

Lemma demo_keypair (k : byte) : keypair (demo.private k) (demo.public k).
Proof.
  intros m. exists (k :: rev m). split; [reflexivity|].
  simpl. unfold demo.bytes_eqb.
  destruct (list_eq_dec Byte.byte_eq_dec (k :: rev m) (k :: rev m));
    [reflexivity | contradiction].
Qed.

Lemma verify_of_signed (priv : private_key_obj) (pub : public_key_obj)
  (c : bytes) :
  keypair priv pub ->
  exists h,
    (sig <- sign priv c ;; Ok (bytes_hex sig)) = Ok h /\
    try_except
      (raw <- bytes_fromhex h ;; _ <- verify pub raw c ;; Ok true)
      (fun _ => Ok false) = Ok true.
Proof.
  intros K. destruct (K c) as (sig & Hs & Hv).
  exists (bytes_hex sig). rewrite Hs. split; [reflexivity|].
  rewrite fromhex_hex. simpl. rewrite Hv. reflexivity.
Qed.

(** C2.  For a key pair of the signature scheme and text that UTF-8 can
    encode, signing returns a hexadecimal signature and verifying that
    signature over the same fields with the public half returns [True],
    for the endorsement shape and for the feed-item shape. *)
Theorem sign_then_verify (priv : private_key_obj) (pub : public_key_obj)
  (k d t s : str) :
  keypair priv pub ->
  encodable k = true ->
  encodable d = true -> encodable t = true -> encodable s = true ->
  (exists h, sign_endorsement priv k = Ok h
             /\ verify_endorsement_signature pub k h = Ok true)
  /\ (exists h, sign_feed_item priv d t s = Ok h
                /\ verify_feed_signature pub d t s h = Ok true).
Proof.
  intros K Hk Hd Ht Hs. split.
  - destruct (canonical_endorsement_total k Hk) as [c Hc].
    destruct (verify_of_signed c K) as (h & H1 & H2).
    exists h. unfold sign_endorsement, verify_endorsement_signature.
    rewrite Hc. simpl. split; assumption.
  - destruct (canonical_feed_total d t s Hd Ht Hs) as [c Hc].
    destruct (verify_of_signed c K) as (h & H1 & H2).
    exists h. unfold sign_feed_item, verify_feed_signature.
    rewrite Hc. simpl. split; assumption.
Qed.

Lemma sign_then_verify_witness :
  keypair (demo.private x2a) (demo.public x2a)
  /\ encodable (lit "AAAA") = true
  /\ ((exists h, sign_endorsement (demo.private x2a) (lit "AAAA") = Ok h
        /\ verify_endorsement_signature (demo.public x2a) (lit "AAAA") h
           = Ok true)
      /\ (exists h,
           sign_feed_item (demo.private x2a)
             (lit "2025-01-01T00:00:00Z") (lit "Hello") (lit "World") = Ok h
           /\ verify_feed_signature (demo.public x2a)
                (lit "2025-01-01T00:00:00Z") (lit "Hello") (lit "World") h
              = Ok true)).
Proof.
  split; [apply demo_keypair|].
  split; [reflexivity|].
  apply (@sign_then_verify (demo.private x2a) (demo.public x2a)
           (lit "AAAA") (lit "2025-01-01T00:00:00Z") (lit "Hello")
           (lit "World"));
    [apply demo_keypair | reflexivity | reflexivity | reflexivity
    | reflexivity].
Defined.

(** C3, as the code has it: a signature text that is no hexadecimal
    string (odd length, a character that is no digit) makes both
    verification functions return [False]; nothing is raised. *)
Lemma malformed_signature_returns_false :
  bytes_fromhex (lit "abc") = Raise ValueError
  /\ bytes_fromhex (lit "zz") = Raise ValueError
  /\ verify_endorsement_signature (demo.public x2a) (lit "AAAA") (lit "abc")
     = Ok false
  /\ verify_endorsement_signature (demo.public x2a) (lit "AAAA") (lit "zz")
     = Ok false
  /\ verify_feed_signature (demo.public x2a)
       (lit "2025-01-01T00:00:00Z") (lit "Hello") (lit "World") (lit "abc")
     = Ok false.
Proof. repeat split. Qed.

(** C3, amended.  For text that UTF-8 can encode, verification returns a
    boolean for every public key and every signature text, and raises
    nothing.  The boolean is [True] exactly when the text is a string of
    hexadecimal octets and the key accepts these octets for the canonical
    bytes; a signature the key rejects, whatever exception it rejects it
    with, and a signature text that is no hexadecimal string both give
    [False]. *)
Theorem verify_returns_bool (pub : public_key_obj) (k d t s h : str) :
  encodable k = true ->
  encodable d = true -> encodable t = true -> encodable s = true ->
  exists ce cf,
    canonical_endorsement_string k = Ok ce
    /\ canonical_feed_string d t s = Ok cf
    /\ verify_endorsement_signature pub k h
       = Ok (succeeds (raw <- bytes_fromhex h ;; verify pub raw ce))
    /\ verify_feed_signature pub d t s h
       = Ok (succeeds (raw <- bytes_fromhex h ;; verify pub raw cf))
    /\ (forall e, bytes_fromhex h = Raise e ->
          verify_endorsement_signature pub k h = Ok false
          /\ verify_feed_signature pub d t s h = Ok false)
    /\ (forall raw e, bytes_fromhex h = Ok raw ->
          verify pub raw ce = Raise e ->
          verify_endorsement_signature pub k h = Ok false)
    /\ (forall raw e, bytes_fromhex h = Ok raw ->
          verify pub raw cf = Raise e ->
          verify_feed_signature pub d t s h = Ok false).
Proof.
  intros Hk Hd Ht Hs.
  destruct (canonical_endorsement_total k Hk) as [ce Hce].
  destruct (canonical_feed_total d t s Hd Ht Hs) as [cf Hcf].
  pose proof (verify_endorsement_as_bool pub k h) as Ve.
  pose proof (verify_feed_as_bool pub d t s h) as Vf.
  rewrite Hce in Ve. rewrite Hcf in Vf. cbn [bind] in Ve, Vf.
  exists ce, cf. rewrite Ve, Vf.
  split; [exact Hce|]. split; [exact Hcf|].
  split; [reflexivity|]. split; [reflexivity|].
  split; [|split].
  - intros e He. rewrite He. split; reflexivity.
  - intros raw e Hr Hv. rewrite Hr. cbn [bind]. now rewrite Hv.
  - intros raw e Hr Hv. rewrite Hr. cbn [bind]. now rewrite Hv.
Qed.

Lemma verify_returns_bool_witness :
  encodable (lit "AAAA") = true
  /\ verify_endorsement_signature (demo.public x2a) (lit "AAAA") (lit "abc")
     = Ok false
  /\ verify_feed_signature (demo.public x2a)
       (lit "2025-01-01T00:00:00Z") (lit "Hello") (lit "World")
       (lit "00ff")
     = Ok false.
Proof.
  split; [reflexivity|].
  destruct (@verify_returns_bool (demo.public x2a) (lit "AAAA")
              (lit "2025-01-01T00:00:00Z") (lit "Hello") (lit "World")
              (lit "abc") eq_refl eq_refl eq_refl eq_refl)
    as (ce & cf & _ & _ & _ & _ & Hmal & _).
  destruct (@verify_returns_bool (demo.public x2a) (lit "AAAA")
              (lit "2025-01-01T00:00:00Z") (lit "Hello") (lit "World")
              (lit "00ff") eq_refl eq_refl eq_refl eq_refl)
    as (ce' & cf' & _ & Hcf & _ & Hbool & _).
  split.
  - exact (proj1 (Hmal ValueError eq_refl)).
  - rewrite Hbool. injection Hcf as <-. reflexivity.
Defined.

End SignVerify.

(* ================================================================== *)
(** ** The identity-record parser                                      *)
(* ================================================================== *)

Section SplitFacts.

Variable sep : N.

Lemma str_in_cons (c : N) (s : str) :
  str_in sep (c :: s) = (c =? sep)%N || str_in sep s.
Proof. unfold str_in. simpl. now rewrite N.eqb_sym. Qed.

Lemma str_in_app (a b : str) :
  str_in sep (a ++ b) = str_in sep a || str_in sep b.
Proof. unfold str_in. apply existsb_app. Qed.

Lemma break_at_absent (s : str) :
  str_in sep s = false -> break_at sep s = None.
Proof.
  induction s as [|c s IH]; [reflexivity|].
  rewrite str_in_cons. intros H. apply orb_false_elim in H as [Hc Hs].
  simpl. rewrite Hc, (IH Hs). reflexivity.
Qed.

Lemma break_at_present (s : str) :
  str_in sep s = true ->
  exists a b, break_at sep s = Some (a, b)
              /\ s = a ++ sep :: b /\ str_in sep a = false.
Proof.
  induction s as [|c s IH]; [discriminate|].
  rewrite str_in_cons. simpl.
  destruct (N.eqb_spec c sep) as [->|Hne]; simpl.
  - intros _. exists [], s. repeat split.
  - intros Hs. destruct (IH Hs) as (a & b & Hb & -> & Ha).
    exists (c :: a), b. rewrite Hb. repeat split.
    rewrite str_in_cons, Ha. apply N.eqb_neq in Hne. now rewrite Hne.
Qed.

Lemma break_at_first (a b : str) :
  str_in sep a = false -> break_at sep (a ++ sep :: b) = Some (a, b).
Proof.
  induction a as [|c a IH]; intros H.
  - simpl. now rewrite N.eqb_refl.
  - rewrite str_in_cons in H. apply orb_false_elim in H as [Hc Ha].
    simpl. rewrite Hc, (IH Ha). reflexivity.
Qed.

Lemma split_char_absent (a : str) :
  str_in sep a = false -> split_char sep a = [a].
Proof.
  induction a as [|c a IH]; [reflexivity|].
  rewrite str_in_cons. intros H. apply orb_false_elim in H as [Hc Ha].
  simpl. rewrite Hc, (IH Ha). reflexivity.
Qed.

Lemma split_char_first (a b : str) :
  str_in sep a = false ->
  split_char sep (a ++ sep :: b) = a :: split_char sep b.
Proof.
  induction a as [|c a IH]; intros H.
  - simpl. now rewrite N.eqb_refl.
  - rewrite str_in_cons in H. apply orb_false_elim in H as [Hc Ha].
    simpl. rewrite Hc, (IH Ha). reflexivity.
Qed.

(** [a, b = s.split(sep, 1)] raises exactly when [sep] is not in [s]. *)
Lemma unpack_split_once (s : str) :
  unpack2 (split_once sep s) =
  match break_at sep s with
  | Some ab => Ok ab
  | None => Raise ValueError
  end.
Proof.
  unfold split_once. destruct (break_at sep s) as [[a b]|]; reflexivity.
Qed.

End SplitFacts.

Section ParserFacts.

Import vcard record_lines.

Variable B : builtins.

Lemma parse_pref_spec (params : dict str) :
  parse_pref B params =
  match dict_get params (lit "PREF") with
  | None => Ok None
  | Some v =>
      match int_of_str B v with
      | Some n => Ok (Some n)
      | None => Raise ValueError
      end
  end.
Proof.
  unfold parse_pref, dict_has, dict_item.
  destruct (dict_get params (lit "PREF")) as [v|]; reflexivity.
Qed.

(** A line with a colon splits into its header and its value. *)
Lemma split_line (line : str) :
  str_in COLON line = true ->
  exists value,
    unpack2 (split_once COLON line) = Ok (header_of line, value)
    /\ line = header_of line ++ COLON :: value.
Proof.
  intros H. destruct (break_at_present COLON line H) as (a & b & Hb & Hl & _).
  exists b. rewrite unpack_split_once. unfold header_of. rewrite Hb.
  split; [reflexivity | exact Hl].
Qed.

Lemma split_line_fails (line : str) :
  str_in COLON line = false ->
  unpack2 (split_once COLON line) = Raise ValueError.
Proof.
  intros H. rewrite unpack_split_once, (break_at_absent COLON line H).
  reflexivity.
Qed.

(** The loop body returns on the lines [line_ok] accepts and raises
    [ValueError] on the others, whatever the profile built so far. *)
Lemma parse_line_result (p : Profile.t) (line : str) :
  if line_ok B line
  then exists p', parse_line B p line = Ok p'
  else parse_line B p line = Raise ValueError.
Proof.
  unfold line_ok, parse_line.
  destruct (startswith (lit "FN:") line); [eauto|].
  destruct (startswith (lit "PHOTO:") line); [eauto|].
  destruct (startswith (lit "KEY;") line).
  { destruct (str_in COLON line) eqn:Hc; simpl.
    - destruct (split_line line Hc) as (value & -> & _). simpl.
      rewrite parse_pref_spec. unfold pref_ok.
      destruct (dict_get (parse_params B (header_of line)) (lit "PREF"))
        as [v|]; [|simpl; eauto].
      destruct (int_of_str B v); simpl; eauto.
    - now rewrite (split_line_fails line Hc). }
  destruct (startswith (lit "REVKEY;") line).
  { destruct (str_in COLON line) eqn:Hc.
    - destruct (split_line line Hc) as (value & -> & _). simpl. eauto.
    - now rewrite (split_line_fails line Hc). }
  destruct (startswith (lit "X-ENDORSE;") line); [|eauto].
  destruct (str_in COLON line) eqn:Hc.
  - destruct (split_line line Hc) as (value & -> & _). simpl. eauto.
  - now rewrite (split_line_fails line Hc).
Qed.

Lemma parse_lines_result (lines : list str) (p : Profile.t) :
  if forallb (line_ok B) lines
  then exists p', parse_lines B p lines = Ok p'
  else parse_lines B p lines = Raise ValueError.
Proof.
  revert p. induction lines as [|line rest IH]; intros p; simpl; [eauto|].
  pose proof (parse_line_result p line) as Hl.
  destruct (line_ok B line); simpl.
  - destruct Hl as [p' ->]. simpl. apply IH.
  - now rewrite Hl.
Qed.

(** A line no branch takes up leaves the profile as it is. *)
Lemma parse_line_unrecognized (p : Profile.t) (line : str) :
  recognized line = false -> parse_line B p line = Ok p.
Proof.
  unfold recognized, parse_line. intros H.
  repeat (apply orb_false_elim in H as [H ?]).
  repeat match goal with E : startswith _ _ = false |- _ =>
    rewrite E; clear E end.
  reflexivity.
Qed.

Lemma parse_lines_recognized (lines : list str) (p : Profile.t) :
  parse_lines B p lines = parse_lines B p (filter recognized lines).
Proof.
  revert p. induction lines as [|line rest IH]; intros p; [reflexivity|].
  simpl. destruct (recognized line) eqn:R; simpl.
  - destruct (parse_line B p line); simpl; [apply IH | reflexivity].
  - rewrite (parse_line_unrecognized p line R). simpl. apply IH.
Qed.

End ParserFacts.

Section LineKinds.

Import vcard record_lines.

Lemma startswith_head (a b : N) (p q s : str) :
  startswith (a :: p) s = true -> startswith (b :: q) s = true -> a = b.
Proof.
  destruct s as [|c s]; simpl; [discriminate|].
  intros H1 H2.
  apply andb_prop in H1 as [H1 _]. apply andb_prop in H2 as [H2 _].
  apply N.eqb_eq in H1. apply N.eqb_eq in H2. congruence.
Qed.

(** Two property names with different first letters: a line starts with
    at most one of them. *)
Lemma startswith_other (a b : N) (p q s : str) :
  a <> b -> startswith (a :: p) s = true -> startswith (b :: q) s = false.
Proof.
  intros Hne H1. destruct (startswith (b :: q) s) eqn:H2; [|reflexivity].
  elim Hne. eapply startswith_head; eassumption.
Qed.

Lemma key_line_only (line : str) :
  startswith (lit "KEY;") line = true ->
  startswith (lit "FN:") line = false
  /\ startswith (lit "PHOTO:") line = false
  /\ startswith (lit "REVKEY;") line = false.
Proof.
  intros H. repeat split;
    (eapply startswith_other; [|exact H]; discriminate).
Qed.

Lemma revkey_line_only (line : str) :
  startswith (lit "REVKEY;") line = true ->
  startswith (lit "FN:") line = false
  /\ startswith (lit "PHOTO:") line = false
  /\ startswith (lit "KEY;") line = false.
Proof.
  intros H. repeat split;
    (eapply startswith_other; [|exact H]; discriminate).
Qed.

End LineKinds.

Section ProfileLists.

Import vcard record_lines.

Variable B : builtins.

Lemma str_eqb_eq (a b : str) : str_eqb a b = true <-> a = b.
Proof.
  unfold str_eqb. destruct (list_eq_dec N.eq_dec a b); split;
    intros; try assumption; try reflexivity; try discriminate; contradiction.
Qed.

Lemma listed_In (k : str) (ids : list str) : listed k ids = true <-> In k ids.
Proof.
  unfold listed. rewrite existsb_exists. split.
  - intros (x & Hx & E). apply str_eqb_eq in E. now subst.
  - intros H. exists k. split; [assumption | now apply str_eqb_eq].
Qed.

(** What one pass of the loop adds to the two lists of identifiers. *)
Lemma parse_line_ids (p p' : Profile.t) (line : str) :
  parse_line B p line = Ok p' ->
  revoked_ids p' = revoked_ids p ++ revoked_by line
  /\ public_ids p' = public_ids p ++ published_by line.
Proof.
  unfold parse_line, revoked_by, published_by, revoked_ids, public_ids.
  destruct (startswith (lit "REVKEY;") line) eqn:R.
  { destruct (revkey_line_only line R) as (-> & -> & ->).
    rewrite unpack_split_once.
    destruct (break_at COLON line) as [[header value]|]; simpl;
      [|discriminate].
    intros [= <-]. simpl. rewrite map_app, app_nil_r. split; reflexivity. }
  destruct (startswith (lit "KEY;") line) eqn:K.
  { destruct (key_line_only line K) as (-> & -> & _).
    rewrite unpack_split_once.
    destruct (break_at COLON line) as [[header value]|]; simpl;
      [|discriminate].
    destruct (parse_pref B (parse_params B header)); simpl; [|discriminate].
    intros [= <-]. simpl. rewrite map_app, app_nil_r. split; reflexivity. }
  rewrite !app_nil_r.
  destruct (startswith (lit "FN:") line); [intros [= <-]; split; reflexivity|].
  destruct (startswith (lit "PHOTO:") line);
    [intros [= <-]; split; reflexivity|].
  destruct (startswith (lit "X-ENDORSE;") line);
    [|intros [= <-]; split; reflexivity].
  rewrite unpack_split_once.
  destruct (break_at COLON line) as [[header value]|]; simpl; [|discriminate].
  intros [= <-]. split; reflexivity.
Qed.

Lemma parse_lines_ids (lines : list str) (p p' : Profile.t) :
  parse_lines B p lines = Ok p' ->
  revoked_ids p' = revoked_ids p ++ flat_map revoked_by lines
  /\ public_ids p' = public_ids p ++ flat_map published_by lines.
Proof.
  revert p. induction lines as [|line rest IH]; intros p; simpl.
  - intros [= <-]. rewrite !app_nil_r. split; reflexivity.
  - destruct (parse_line B p line) as [q|e] eqn:L; simpl; [|discriminate].
    intros H. destruct (IH _ H) as [Hr Hk].
    destruct (parse_line_ids _ _ L) as [Lr Lk].
    rewrite Hr, Hk, Lr, Lk, <- !app_assoc. split; reflexivity.
Qed.

(** The identifiers of a parsed record are those its lines carry: the
    values of the [REVKEY;] lines and of the [KEY;] lines, in order. *)
Lemma parse_vcard_ids (text : str) (p : Profile.t) :
  parse_vcard B text = Ok p ->
  revoked_ids p = flat_map revoked_by (stripped_lines text)
  /\ public_ids p = flat_map published_by (stripped_lines text).
Proof. intros H. exact (parse_lines_ids _ _ H). Qed.

(** C5.  When a key identifier stands both in the PublicKey list and in
    the RevokedKey list of a parsed record, the trust query answers
    [Revoked]; and so it does for every record made of the same lines in
    another order. *)
Theorem revocation_dominates (text : str) (p : Profile.t) (k : str) :
  parse_vcard B text = Ok p ->
  In k (public_ids p) ->
  In k (revoked_ids p) ->
  key_status p k = Revoked
  /\ (forall text' p',
        Permutation (stripped_lines text) (stripped_lines text') ->
        parse_vcard B text' = Ok p' ->
        In k (public_ids p') /\ key_status p' k = Revoked).
Proof.
  intros P Hk Hr.
  assert (status : forall q, In k (revoked_ids q) -> key_status q k = Revoked).
  { intros q Hq. unfold key_status.
    apply listed_In in Hq. unfold revoked_ids in Hq. now rewrite Hq. }
  split; [now apply status|].
  intros text' p' Perm P'.
  destruct (parse_vcard_ids _ P) as [Er Ek].
  destruct (parse_vcard_ids _ P') as [Er' Ek'].
  rewrite Er in Hr. rewrite Ek in Hk.
  split.
  - rewrite Ek'.
    eapply Permutation_in; [apply Permutation_flat_map; exact Perm | exact Hk].
  - apply status. rewrite Er'.
    eapply Permutation_in; [apply Permutation_flat_map; exact Perm | exact Hr].
Qed.

End ProfileLists.

Lemma revocation_dominates_witness :
  vcard.parse_vcard ascii_builtins record_lines.scenario
    = Ok (record_lines.scenario_profile record_lines.scenario)
  /\ vcard.parse_vcard ascii_builtins record_lines.scenario_swapped
    = Ok (record_lines.scenario_profile record_lines.scenario_swapped)
  /\ vcard.key_status
       (record_lines.scenario_profile record_lines.scenario) (lit "AAAA")
     = vcard.Revoked
  /\ vcard.key_status
       (record_lines.scenario_profile record_lines.scenario_swapped)
       (lit "AAAA")
     = vcard.Revoked.
Proof.
  assert (P : vcard.parse_vcard ascii_builtins record_lines.scenario
              = Ok (record_lines.scenario_profile record_lines.scenario))
    by reflexivity.
  assert (P' : vcard.parse_vcard ascii_builtins record_lines.scenario_swapped
               = Ok (record_lines.scenario_profile
                       record_lines.scenario_swapped))
    by reflexivity.
  destruct (@revocation_dominates ascii_builtins record_lines.scenario
              (record_lines.scenario_profile record_lines.scenario)
              (lit "AAAA") P (or_introl eq_refl) (or_introl eq_refl))
    as [H1 H2].
  split; [exact P|]. split; [exact P'|]. split; [exact H1|].
  apply (H2 record_lines.scenario_swapped _); [|exact P'].
  apply perm_swap.
Defined.

Section ParserErrors.

Import vcard record_lines.

Variable B : builtins.

Lemma parse_lines_abort (lines : list str) (line : str) (p : Profile.t) :
  In line lines -> line_ok B line = false ->
  parse_lines B p lines = Raise ValueError.
Proof.
  intros Hin Hbad.
  pose proof (parse_lines_result B lines p) as H.
  destruct (forallb (line_ok B) lines) eqn:F; [|exact H].
  rewrite forallb_forall in F. rewrite (F line Hin) in Hbad. discriminate.
Qed.

(** What the [KEY;] branch does with a line. *)
Lemma parse_key_line (p : Profile.t) (line : str) :
  startswith (lit "KEY;") line = true ->
  parse_line B p line =
  match break_at COLON line with
  | None => Raise ValueError
  | Some (header, value) =>
      let params := parse_params B header in
      let alg := str_lower B (get_default params (lit "ALG") []) in
      match dict_get params (lit "PREF") with
      | None =>
          Ok (Profile.append_public_key p
                {| PublicKey.alg := alg; PublicKey.key_b64 := value;
                   PublicKey.pref := None |})
      | Some v =>
          match int_of_str B v with
          | Some n =>
              Ok (Profile.append_public_key p
                    {| PublicKey.alg := alg; PublicKey.key_b64 := value;
                       PublicKey.pref := Some n |})
          | None => Raise ValueError
          end
      end
  end.
Proof.
  intros K. unfold parse_line.
  destruct (key_line_only line K) as (-> & -> & _). rewrite K.
  rewrite unpack_split_once.
  destruct (break_at COLON line) as [[header value]|]; simpl; [|reflexivity].
  rewrite parse_pref_spec.
  destruct (dict_get (parse_params B header) (lit "PREF")) as [v|];
    [|reflexivity].
  destruct (int_of_str B v); reflexivity.
Qed.

(** C6, amended.  On a [KEY;] line whose [PREF] parameter is present and
    is a text [int] rejects, the loop body raises [ValueError] and so does
    [parse_vcard] on every text that has this line: no profile is
    returned and no PublicKey entry is appended. *)
Theorem nonnumeric_pref_aborts (text line header value v : str)
  (p : Profile.t) :
  startswith (lit "KEY;") line = true ->
  break_at COLON line = Some (header, value) ->
  dict_get (parse_params B header) (lit "PREF") = Some v ->
  int_of_str B v = None ->
  parse_line B p line = Raise ValueError
  /\ (In line (stripped_lines text) -> parse_vcard B text = Raise ValueError).
Proof.
  intros K Hb Hp Hv.
  assert (L : forall q, parse_line B q line = Raise ValueError).
  { intros q. rewrite (parse_key_line q line K), Hb. simpl.
    now rewrite Hp, Hv. }
  split; [apply L|].
  intros Hin. unfold parse_vcard.
  apply (parse_lines_abort _ line _ Hin).
  pose proof (parse_line_result B p line) as R.
  destruct (line_ok B line); [|reflexivity].
  destruct R as [p' R]. rewrite L in R. discriminate.
Qed.

(** C7, amended.  A line that starts with none of [FN:], [PHOTO:],
    [KEY;], [REVKEY;], [X-ENDORSE;] leaves the profile untouched, so the
    parse of a text is the parse of its recognized lines alone; the line
    [X-UNKNOWN;FOO=1:bar] gives the empty profile.  [parse_vcard] returns
    a profile when every [KEY;], [REVKEY;] and [X-ENDORSE;] line has a
    colon and every [PREF] of a [KEY;] line is an integer text, and
    raises [ValueError] otherwise. *)
Theorem parse_vcard_tolerance (text : str) :
  (forall p line, recognized line = false -> parse_line B p line = Ok p)
  /\ parse_vcard B text
     = parse_lines B (Profile.new text)
         (filter recognized (stripped_lines text))
  /\ parse_vcard B (lit "X-UNKNOWN;FOO=1:bar")
     = Ok (Profile.new (lit "X-UNKNOWN;FOO=1:bar"))
  /\ (forallb (line_ok B) (stripped_lines text) = true ->
      exists p, parse_vcard B text = Ok p)
  /\ (forallb (line_ok B) (stripped_lines text) = false ->
      parse_vcard B text = Raise ValueError).
Proof.
  split; [intros p line; apply parse_line_unrecognized|].
  split; [apply parse_lines_recognized|].
  split.
  { unfold parse_vcard. rewrite parse_lines_recognized. reflexivity. }
  pose proof (parse_lines_result B (stripped_lines text) (Profile.new text))
    as H.
  unfold parse_vcard.
  destruct (forallb (line_ok B) (stripped_lines text));
    split; intros E; try discriminate E; exact H.
Qed.

End ParserErrors.

Lemma nonnumeric_pref_aborts_witness :
  startswith (lit "KEY;") (lit "KEY;ALG=ed25519;PREF=high:AAAA") = true
  /\ int_of_str ascii_builtins (lit "high") = None
  /\ vcard.parse_vcard ascii_builtins
       (lit ("FN:Ann" ++ newline ++ "KEY;ALG=ed25519;PREF=high:AAAA"))
     = Raise ValueError.
Proof.
  split; [reflexivity|]. split; [reflexivity|].
  apply (@nonnumeric_pref_aborts ascii_builtins
           (lit ("FN:Ann" ++ newline ++ "KEY;ALG=ed25519;PREF=high:AAAA"))
           (lit "KEY;ALG=ed25519;PREF=high:AAAA")
           (lit "KEY;ALG=ed25519;PREF=high") (lit "AAAA") (lit "high")
           (Profile.new [])
           eq_refl eq_refl eq_refl eq_refl).
  right. left. reflexivity.
Defined.

(** C6, as the code has it: a [PREF] that is no number is fatal. *)
Lemma nonnumeric_pref_is_fatal :
  vcard.parse_vcard ascii_builtins (lit "KEY;ALG=ed25519;PREF=high:AAAA")
  = Raise ValueError
  /\ vcard.parse_vcard ascii_builtins (lit "KEY;ALG=ed25519;PREF=1:AAAA")
     = Ok (Profile.append_public_key
             (Profile.new (lit "KEY;ALG=ed25519;PREF=1:AAAA"))
             {| PublicKey.alg := lit "ed25519";
                PublicKey.key_b64 := lit "AAAA";
                PublicKey.pref := Some 1%Z |}).
Proof. split; reflexivity. Qed.

(** C7, as the code has it: a recognized line without a colon aborts the
    whole parse, also behind lines that were parsed well. *)
Lemma malformed_line_aborts_parse :
  vcard.parse_vcard ascii_builtins (lit "KEY;ALG=ed25519")
  = Raise ValueError
  /\ vcard.parse_vcard ascii_builtins
       (lit ("FN:Ann" ++ newline ++ "KEY;ALG=ed25519:AAAA" ++ newline
             ++ "X-ENDORSE;SIG=00"))
     = Raise ValueError
  /\ vcard.parse_vcard ascii_builtins (lit "REVKEY;REASON=lost")
     = Raise ValueError.
Proof. repeat split. Qed.

Section ParameterNames.

Import vcard record_lines.

Variable B : builtins.

Lemma render_params_cons (kv : str * str) (ps : list (str * str)) :
  render_params (kv :: ps) = SEMICOLON :: param_text kv ++ render_params ps.
Proof.
  unfold render_params, render_param, param_text. simpl.
  now rewrite <- !app_assoc.
Qed.

Lemma param_wf_text (kv : str * str) :
  param_wf kv = true ->
  str_in SEMICOLON (param_text kv) = false
  /\ str_in EQUALS (fst kv) = false.
Proof.
  unfold param_wf, param_text. intros H.
  apply andb_prop in H as [H Hv]. apply andb_prop in H as [Hk He].
  apply negb_true_iff in Hv. apply negb_true_iff in Hk.
  apply negb_true_iff in He.
  split; [|exact He].
  rewrite str_in_app, str_in_cons, Hk, Hv. reflexivity.
Qed.

(** The parts [header.split(";")] gives for a header written out. *)
Lemma split_header (name : str) (ps : list (str * str)) :
  str_in SEMICOLON name = false ->
  forallb param_wf ps = true ->
  split_char SEMICOLON (name ++ render_params ps) = name :: map param_text ps.
Proof.
  revert name. induction ps as [|kv ps IH]; intros name Hn Hps.
  - simpl. rewrite app_nil_r. now apply split_char_absent.
  - simpl in Hps. apply andb_prop in Hps as [Hkv Hps].
    destruct (param_wf_text kv Hkv) as [Hsemi _].
    rewrite render_params_cons, (split_char_first _ _ _ Hn).
    rewrite (IH _ Hsemi Hps). reflexivity.
Qed.

Lemma parse_param_text (d : dict str) (kv : str * str) :
  param_wf kv = true ->
  parse_param B d (param_text kv) = dict_set d (str_upper B (fst kv)) (snd kv).
Proof.
  intros H. destruct (param_wf_text kv H) as [_ He].
  unfold parse_param, param_text, split_once.
  rewrite str_in_app, str_in_cons, N.eqb_refl, orb_true_r.
  now rewrite (break_at_first _ _ _ He).
Qed.

Lemma fold_parse_param (ps : list (str * str)) (d : dict str) :
  forallb param_wf ps = true ->
  fold_left (parse_param B) (map param_text ps) d
  = fold_left (fun d kv => dict_set d (str_upper B (fst kv)) (snd kv)) ps d.
Proof.
  revert d. induction ps as [|kv ps IH]; intros d Hps; [reflexivity|].
  simpl in Hps. apply andb_prop in Hps as [Hkv Hps].
  simpl. rewrite (parse_param_text d kv Hkv). now apply IH.
Qed.

(** [parse_params] on a header written out: every name upper-cased,
    every value as it stands. *)
Lemma parse_params_rendered (name : str) (ps : list (str * str)) :
  str_in SEMICOLON name = false ->
  forallb param_wf ps = true ->
  parse_params B (name ++ render_params ps) = params_dict B ps.
Proof.
  intros Hn Hps. unfold parse_params, params_dict.
  rewrite (split_header _ _ Hn Hps). simpl. now apply fold_parse_param.
Qed.

Lemma params_dict_case (ps ps' : list (str * str)) :
  same_up_to_case B ps ps' -> params_dict B ps = params_dict B ps'.
Proof.
  unfold params_dict. generalize (@nil (str * str)) as d.
  intros d H. revert d.
  induction H as [|a b ps ps' [Hk Hv] _ IH]; intros d; [reflexivity|].
  simpl. rewrite Hk, Hv. apply IH.
Qed.

Lemma dict_get_set {V} (d : dict V) (k k' : str) (v : V) :
  dict_get (dict_set d k v) k'
  = if str_eqb k k' then Some v else dict_get d k'.
Proof.
  induction d as [|[k0 v0] d IH]; simpl.
  - reflexivity.
  - destruct (str_eqb k0 k) eqn:E0; simpl.
    + apply str_eqb_eq in E0. subst k0.
      destruct (str_eqb k k'); reflexivity.
    + destruct (str_eqb k0 k') eqn:E1; [|exact IH].
      apply str_eqb_eq in E1. subst k0.
      destruct (str_eqb k k') eqn:E2; [|reflexivity].
      apply str_eqb_eq in E2. subst k'.
      rewrite (proj2 (str_eqb_eq k k) eq_refl) in E0. discriminate.
Qed.

Lemma fold_set_other (ps : list (str * str)) (d : dict str) (K : str) :
  ~ In K (map (fun kv => str_upper B (fst kv)) ps) ->
  dict_get
    (fold_left (fun d kv => dict_set d (str_upper B (fst kv)) (snd kv)) ps d)
    K
  = dict_get d K.
Proof.
  revert d. induction ps as [|kv ps IH]; intros d Hn; [reflexivity|].
  simpl in *. rewrite IH by tauto. rewrite dict_get_set.
  destruct (str_eqb (str_upper B (fst kv)) K) eqn:E; [|reflexivity].
  apply str_eqb_eq in E. tauto.
Qed.

(** A value is found again under the upper-cased name, exactly as it was
    written, when no other parameter has this name. *)
Lemma params_dict_value (ps : list (str * str)) (k v : str) :
  NoDup (map (fun kv => str_upper B (fst kv)) ps) ->
  In (k, v) ps ->
  dict_get (params_dict B ps) (str_upper B k) = Some v.
Proof.
  unfold params_dict. generalize (@nil (str * str)) as d.
  induction ps as [|kv ps IH]; intros d Hnd Hin; [contradiction|].
  simpl in Hnd. inversion Hnd as [|? ? Hfresh Hnd']; subst.
  destruct Hin as [->|Hin]; simpl.
  - simpl in Hfresh.
    rewrite (fold_set_other _ _ _ Hfresh), dict_get_set. simpl.
    now rewrite (proj2 (str_eqb_eq (str_upper B k) (str_upper B k)) eq_refl).
  - now apply IH.
Qed.

End ParameterNames.

Section PropertyLines.

Import vcard record_lines.

Variable B : builtins.

Lemma endorse_line_only (line : str) :
  startswith (lit "X-ENDORSE;") line = true ->
  startswith (lit "FN:") line = false
  /\ startswith (lit "PHOTO:") line = false
  /\ startswith (lit "KEY;") line = false
  /\ startswith (lit "REVKEY;") line = false.
Proof.
  intros H. repeat split;
    (eapply startswith_other; [|exact H]; discriminate).
Qed.

(** What the [REVKEY;] branch does with a line. *)
Lemma parse_revkey_line (p : Profile.t) (line : str) :
  startswith (lit "REVKEY;") line = true ->
  parse_line B p line =
  match break_at COLON line with
  | None => Raise ValueError
  | Some (header, value) =>
      let params := parse_params B header in
      Ok (Profile.append_revocation p
            {| RevokedKey.key_b64 := value;
               RevokedKey.reason := dict_get params (lit "REASON");
               RevokedKey.date := dict_get params (lit "DATE") |})
  end.
Proof.
  intros R. unfold parse_line.
  destruct (revkey_line_only line R) as (-> & -> & ->). rewrite R.
  rewrite unpack_split_once.
  destruct (break_at COLON line) as [[header value]|]; reflexivity.
Qed.

(** What the [X-ENDORSE;] branch does with a line. *)
Lemma parse_endorse_line (p : Profile.t) (line : str) :
  startswith (lit "X-ENDORSE;") line = true ->
  parse_line B p line =
  match break_at COLON line with
  | None => Raise ValueError
  | Some (header, value) =>
      let params := parse_params B header in
      Ok (Profile.append_endorsement p
            {| Endorsement.endorsee_key_b64 := value;
               Endorsement.signature_hex := get_default params (lit "SIG") [];
               Endorsement.date := dict_get params (lit "DATE");
               Endorsement.confidence := dict_get params (lit "CONFIDENCE") |})
  end.
Proof.
  intros E. unfold parse_line.
  destruct (endorse_line_only line E) as (-> & -> & -> & ->). rewrite E.
  rewrite unpack_split_once.
  destruct (break_at COLON line) as [[header value]|]; reflexivity.
Qed.

Lemma property_line_break (name value : str) (ps : list (str * str)) :
  str_in COLON name = false ->
  str_in COLON (render_params ps) = false ->
  break_at COLON (property_line name ps value)
  = Some (name ++ render_params ps, value).
Proof.
  intros Hn Hp. unfold property_line.
  rewrite app_assoc. apply break_at_first.
  now rewrite str_in_app, Hn, Hp.
Qed.

Lemma property_name_plain (name : str) :
  In name property_names ->
  str_in COLON name = false /\ str_in SEMICOLON name = false.
Proof.
  intros [<-|[<-|[<-|[]]]]; split; reflexivity.
Qed.

(** The result of the loop body on a written-out [KEY;], [REVKEY;] or
    [X-ENDORSE;] line is a function of the parsed parameters. *)
Lemma parse_property_line (name value : str) (p : Profile.t) :
  In name property_names ->
  exists f : dict str -> result Profile.t,
    (forall kv' ps',
       forallb param_wf (kv' :: ps') = true ->
       str_in COLON (render_params (kv' :: ps')) = false ->
       parse_line B p (property_line name (kv' :: ps') value)
       = f (params_dict B (kv' :: ps'))).
Proof.
  intros Hname.
  destruct (property_name_plain Hname) as [Hc Hs].
  destruct Hname as [<-|[<-|[<-|[]]]].
  - exists (fun params =>
      match dict_get params (lit "PREF") with
      | None =>
          Ok (Profile.append_public_key p
                {| PublicKey.alg :=
                     str_lower B (get_default params (lit "ALG") []);
                   PublicKey.key_b64 := value; PublicKey.pref := None |})
      | Some v =>
          match int_of_str B v with
          | Some n =>
              Ok (Profile.append_public_key p
                    {| PublicKey.alg :=
                         str_lower B (get_default params (lit "ALG") []);
                       PublicKey.key_b64 := value;
                       PublicKey.pref := Some n |})
          | None => Raise ValueError
          end
      end).
    intros kv' ps' Hwf Hcol.
    rewrite parse_key_line
      by (unfold property_line; rewrite render_params_cons; reflexivity).
    rewrite (property_line_break _ _ _ Hc Hcol).
    cbv zeta. now rewrite (parse_params_rendered B _ _ Hs Hwf).
  - exists (fun params =>
      Ok (Profile.append_revocation p
            {| RevokedKey.key_b64 := value;
               RevokedKey.reason := dict_get params (lit "REASON");
               RevokedKey.date := dict_get params (lit "DATE") |})).
    intros kv' ps' Hwf Hcol.
    rewrite parse_revkey_line
      by (unfold property_line; rewrite render_params_cons; reflexivity).
    rewrite (property_line_break _ _ _ Hc Hcol).
    cbv zeta. now rewrite (parse_params_rendered B _ _ Hs Hwf).
  - exists (fun params =>
      Ok (Profile.append_endorsement p
            {| Endorsement.endorsee_key_b64 := value;
               Endorsement.signature_hex := get_default params (lit "SIG") [];
               Endorsement.date := dict_get params (lit "DATE");
               Endorsement.confidence :=
                 dict_get params (lit "CONFIDENCE") |})).
    intros kv' ps' Hwf Hcol.
    rewrite parse_endorse_line
      by (unfold property_line; rewrite render_params_cons; reflexivity).
    rewrite (property_line_break _ _ _ Hc Hcol).
    cbv zeta. now rewrite (parse_params_rendered B _ _ Hs Hwf).
Qed.

(** C10.  Parameter names are matched without regard to letter case.
    For a [KEY], [REVKEY] or [X-ENDORSE] header written out with the
    parameters [ps], [parse_params] gives the dictionary of [ps] with
    every name upper-cased and every value as written.  A header whose
    names differ from those of [ps] in letter case only parses to the
    same dictionary, and the two whole lines have the same effect on the
    profile. *)
Theorem parameter_names_ignore_case (name value : str)
  (ps ps' : list (str * str)) (p : Profile.t) :
  In name property_names ->
  forallb param_wf ps = true ->
  forallb param_wf ps' = true ->
  str_in COLON (render_params ps) = false ->
  str_in COLON (render_params ps') = false ->
  same_up_to_case B ps ps' ->
  parse_params B (name ++ render_params ps) = params_dict B ps
  /\ parse_params B (name ++ render_params ps') = params_dict B ps
  /\ parse_line B p (property_line name ps' value)
     = parse_line B p (property_line name ps value)
  /\ (forall k v,
        NoDup (map (fun kv => str_upper B (fst kv)) ps') ->
        In (k, v) ps' ->
        dict_get (parse_params B (name ++ render_params ps'))
          (str_upper B k) = Some v).
Proof.
  intros Hname Hwf Hwf' Hcol Hcol' Hcase.
  destruct (property_name_plain Hname) as [Hc Hs].
  pose proof (@params_dict_case B _ _ Hcase) as Hd.
  split; [now apply parse_params_rendered|].
  split; [rewrite Hd; now apply parse_params_rendered|].
  split.
  - destruct Hcase as [|a b qs qs' Hab Hrest]; [reflexivity|].
    destruct (parse_property_line value p Hname) as [f Hf].
    rewrite (Hf _ _ Hwf' Hcol'), (Hf _ _ Hwf Hcol).
    now rewrite Hd.
  - intros k v Hnd Hin.
    rewrite (parse_params_rendered B _ _ Hs Hwf').
    now apply params_dict_value.
Qed.

End PropertyLines.

Lemma parameter_names_ignore_case_witness :
  In (lit "X-ENDORSE") record_lines.property_names
  /\ record_lines.same_up_to_case ascii_builtins
       [(lit "SIG", lit "AbCd"); (lit "DATE", lit "2026-01-01")]
       [(lit "sig", lit "AbCd"); (lit "Date", lit "2026-01-01")]
  /\ vcard.parse_params ascii_builtins
       (lit "X-ENDORSE;sig=AbCd;Date=2026-01-01")
     = [(lit "SIG", lit "AbCd"); (lit "DATE", lit "2026-01-01")]
  /\ vcard.parse_line ascii_builtins (Profile.new [])
       (lit "X-ENDORSE;sig=AbCd;Date=2026-01-01:AAAA")
     = vcard.parse_line ascii_builtins (Profile.new [])
         (lit "X-ENDORSE;SIG=AbCd;DATE=2026-01-01:AAAA").
Proof.
  assert (N : In (lit "X-ENDORSE") record_lines.property_names)
    by (right; right; left; reflexivity).
  assert (S : record_lines.same_up_to_case ascii_builtins
                [(lit "SIG", lit "AbCd"); (lit "DATE", lit "2026-01-01")]
                [(lit "sig", lit "AbCd"); (lit "Date", lit "2026-01-01")])
    by (repeat constructor).
  destruct (@parameter_names_ignore_case ascii_builtins
              (lit "X-ENDORSE") (lit "AAAA")
              [(lit "SIG", lit "AbCd"); (lit "DATE", lit "2026-01-01")]
              [(lit "sig", lit "AbCd"); (lit "Date", lit "2026-01-01")]
              (Profile.new []) N eq_refl eq_refl eq_refl eq_refl S)
    as (_ & H2 & H3 & _).
  split; [exact N|]. split; [exact S|]. split; [exact H2 | exact H3].
Defined.

(* ================================================================== *)
(** ** The identity-record builder                                     *)
(* ================================================================== *)

Section BuilderFacts.

Import vcard rendered.

Variable B : builtins.

Lemma join_lines_app (a b : list str) :
  join_lines (a ++ b) = join_lines a ++ join_lines b.
Proof. unfold join_lines. apply flat_map_app. Qed.

(** One conditional [+=] of the builder: the line of a populated field,
    or nothing. *)
Lemma add_field_lines (value : option str) (line L : str -> str)
  (acc : str) :
  (forall v, line v = L v ++ nl) ->
  add_field value line acc = acc ++ join_lines (field_lines L value).
Proof.
  intros HL. unfold add_field, field_lines, join_lines.
  destruct value as [[|c v]|]; simpl.
  - now rewrite app_nil_r.
  - now rewrite HL, app_nil_r.
  - now rewrite app_nil_r.
Qed.

Lemma key_line_complete (key : dict pyval) :
  key_complete key = true -> key_line B key = Ok (key_text B key ++ nl).
Proof.
  unfold key_complete, key_line, key_alg, key_text, entry, dict_item,
    dict_has.
  destruct (dict_get key (lit "alg")) as [[|s|z|d]|]; try discriminate.
  destruct (dict_get key (lit "encoding")) as [enc|]; try discriminate.
  destruct (dict_get key (lit "key_b64")) as [kb|]; try discriminate.
  intros _. cbn [bind]. now rewrite <- !app_assoc.
Qed.

Lemma join_lines_cons (line : str) (lines : list str) :
  join_lines (line :: lines) = line ++ nl ++ join_lines lines.
Proof. unfold join_lines. cbn [flat_map]. now rewrite <- app_assoc. Qed.

Lemma add_keys_lines (keys : list (dict pyval)) (acc : str) :
  forallb key_complete keys = true ->
  add_keys B keys acc = Ok (acc ++ join_lines (map (key_text B) keys)).
Proof.
  revert acc. induction keys as [|key keys IH]; intros acc H.
  - cbn. now rewrite app_nil_r.
  - cbn [forallb] in H. apply andb_prop in H as [Hk Hks].
    cbn [add_keys map]. rewrite (key_line_complete key Hk). cbn [bind].
    rewrite (IH _ Hks), join_lines_cons. now rewrite <- !app_assoc.
Qed.

Lemma add_custom_lines (custom : dict str) (acc : str) :
  add_custom custom acc = acc ++ join_lines (map custom_line custom).
Proof.
  revert acc. induction custom as [|[name value] custom IH]; intros acc.
  - cbn. now rewrite app_nil_r.
  - cbn [add_custom map]. rewrite IH, join_lines_cons.
    unfold custom_line. cbn [fst snd]. now rewrite <- !app_assoc.
Qed.

Lemma keys_branch (keys : option (list (dict pyval))) (acc : str) :
  match keys with
  | Some (key :: rest) => add_keys B (key :: rest) acc
  | _ => Ok acc
  end = add_keys B (or_empty keys) acc.
Proof. destruct keys as [[|key rest]|]; reflexivity. Qed.

(** C9, amended.  When every key carries an [alg] text, an [encoding] and
    a [key_b64], the builder returns the two opening lines, one line for
    each of the seventeen fields whose value is a non-empty text, in the
    fixed order, then one [KEY] line for each key, then one [name:value]
    line for each custom attribute, then [END:VCARD].  A field whose
    value is absent or empty gives no line. *)
Theorem build_vcard_content_lines
  (fn n nickname lang gender email categories bday anniversary kind adr tel
   impp photo note url source : option str)
  (custom_attributes : option (dict str))
  (keys : option (list (dict pyval))) :
  forallb key_complete (or_empty keys) = true ->
  build_vcard_content B fn n nickname lang gender email categories bday
    anniversary kind adr tel impp photo note url source
    custom_attributes keys
  = Ok (join_lines
          (vcard_lines B fn n nickname lang gender email categories bday
             anniversary kind adr tel impp photo note url source
             custom_attributes keys)
        ++ lit "END:VCARD")
  /\ (forall line, field_lines line None = []
                   /\ field_lines line (Some []) = [])
  /\ (forall line c v, field_lines line (Some (c :: v)) = [line (c :: v)]).
Proof.
  intros Hkeys.
  split; [|split; [intros; split; reflexivity | reflexivity]].
  unfold build_vcard_content, vcard_lines. cbv zeta.
  rewrite keys_branch, (add_keys_lines _ _ Hkeys).
  cbn [bind]. rewrite add_custom_lines.
  rewrite (@add_field_lines source _ (labelled "SOURCE:")) by reflexivity.
  rewrite (@add_field_lines url _ (labelled "URL:")) by reflexivity.
  rewrite (@add_field_lines note _ (labelled "NOTE;LANGUAGE=en-US:"))
    by reflexivity.
  rewrite (@add_field_lines photo _ (labelled "PHOTO:")) by reflexivity.
  rewrite (@add_field_lines impp _ (labelled "IMPP:")) by reflexivity.
  rewrite (@add_field_lines tel _ (labelled "TEL:")) by reflexivity.
  rewrite (@add_field_lines adr _ (labelled "ADR:")) by reflexivity.
  rewrite (@add_field_lines kind _ (labelled "KIND:")) by reflexivity.
  rewrite (@add_field_lines anniversary _ (labelled "ANNIVERSARY:"))
    by reflexivity.
  rewrite (@add_field_lines bday _ (labelled "BDAY:")) by reflexivity.
  rewrite (@add_field_lines categories _ (labelled "CATEGORIES:"))
    by reflexivity.
  rewrite (@add_field_lines email _ (labelled "EMAIL:")) by reflexivity.
  rewrite (@add_field_lines gender _ (labelled "GENDER:")) by reflexivity.
  rewrite (@add_field_lines lang _ (labelled "LANG:")) by reflexivity.
  rewrite (@add_field_lines nickname _ (labelled "NICKNAME:"))
    by reflexivity.
  rewrite (@add_field_lines n _ (fun v => lit "N:" ++ v ++ lit ";;;;"))
    by (intros v; cbn; now rewrite <- !app_assoc).
  rewrite (@add_field_lines fn _ (labelled "FN:")) by reflexivity.
  f_equal.
  rewrite !join_lines_app.
  change (match custom_attributes with Some d => d | None => [] end)
    with (or_empty custom_attributes).
  rewrite <- !app_assoc. reflexivity.
Qed.

End BuilderFacts.

Lemma build_vcard_content_lines_witness :
  rendered.key_complete
    [(lit "alg", PStr (lit "Ed25519")); (lit "key_b64", PStr (lit "AAAA"));
     (lit "pref", PInt 1); (lit "encoding", PStr (lit "b"))] = true
  /\ vcard.build_vcard_content ascii_builtins
       (Some (lit "Ann")) None (Some []) None None None None None None
       (Some (lit "individual")) None None None None None None None
       (Some [(lit "X-FEED", lit "https://example.com/feed")])
       (Some [[(lit "alg", PStr (lit "Ed25519"));
               (lit "key_b64", PStr (lit "AAAA"));
               (lit "pref", PInt 1); (lit "encoding", PStr (lit "b"))]])
     = Ok (lit ("BEGIN:VCARD" ++ newline ++ "VERSION:4.0" ++ newline
                ++ "FN:Ann" ++ newline ++ "KIND:individual" ++ newline
                ++ "KEY;TYPE=public;ALG=ed25519;PREF=1;ENCODING=b:AAAA"
                ++ newline ++ "X-FEED:https://example.com/feed" ++ newline
                ++ "END:VCARD")).
Proof.
  split; [reflexivity|].
  exact (proj1
    (@build_vcard_content_lines ascii_builtins
       (Some (lit "Ann")) None (Some []) None None None None None None
       (Some (lit "individual")) None None None None None None None
       (Some [(lit "X-FEED", lit "https://example.com/feed")])
       (Some [[(lit "alg", PStr (lit "Ed25519"));
               (lit "key_b64", PStr (lit "AAAA"));
               (lit "pref", PInt 1); (lit "encoding", PStr (lit "b"))]])
       eq_refl)).
Defined.

(** C9, as the code has it: a custom attribute with an empty value is
    written as a line with an empty value, and so is a key whose
    [key_b64] is empty; a key without an [encoding] entry makes the
    builder raise [KeyError]. *)
Lemma empty_value_line_emitted :
  vcard.build_vcard_content ascii_builtins
    (Some (lit "Ann")) None None None None None None None None
    None None None None None None None None
    (Some [(lit "X-FEED", [])]) None
  = Ok (lit ("BEGIN:VCARD" ++ newline ++ "VERSION:4.0" ++ newline
             ++ "FN:Ann" ++ newline ++ "X-FEED:" ++ newline ++ "END:VCARD"))
  /\ vcard.build_vcard_content ascii_builtins
       None None None None None None None None None
       None None None None None None None None
       None
       (Some [[(lit "alg", PStr (lit "ed25519")); (lit "key_b64", PStr []);
               (lit "encoding", PStr (lit "b"))]])
     = Ok (lit ("BEGIN:VCARD" ++ newline ++ "VERSION:4.0" ++ newline
                ++ "KEY;TYPE=public;ALG=ed25519;PREF=1;ENCODING=b:"
                ++ newline ++ "END:VCARD"))
  /\ vcard.build_vcard_content ascii_builtins
       None None None None None None None None None
       None None None None None None None None
       None
       (Some [[(lit "alg", PStr (lit "ed25519"));
               (lit "key_b64", PStr (lit "AAAA")); (lit "pref", PInt 1)]])
     = Raise KeyError.
Proof. repeat split. Qed.

(* ================================================================== *)
(** ** The feed builder                                                *)
(* ================================================================== *)

Section FeedFacts.

Import feed.

Variable slugify : str -> str.
Variable rss : Feed -> result str.

Lemma signature_extension_unbound (sign : option sign_ctx) (ls : locals) :
  var_signature_value ls = None ->
  signature_extension sign ls = Raise UnboundLocalError.
Proof. unfold signature_extension. now intros ->. Qed.

(** Without a signing context the loop body never completes: whatever it
    does not raise earlier, it raises at the read of [signature_value]. *)
Lemma item_step_unsigned (link : str) (author : dict pyval) (ls : locals)
  (item : dict pyval) :
  var_signature_value ls = None ->
  (exists e, item_step slugify link author None ls item = Raise e)
  /\ (forall id date name email,
        item_id slugify item = Ok id ->
        dict_get item (lit "date") = Some date ->
        dict_get author (lit "name") = Some name ->
        dict_get author (lit "email") = Some email ->
        item_step slugify link author None ls item
        = Raise UnboundLocalError).
Proof.
  intros Hu. unfold item_step, dict_item. split.
  - destruct (item_id slugify item) as [id|e]; [|simpl; eauto].
    destruct (dict_get item (lit "date")) as [date|]; [|simpl; eauto].
    destruct (dict_get author (lit "name")) as [name|]; [|simpl; eauto].
    destruct (dict_get author (lit "email")) as [email|]; [|simpl; eauto].
    cbn [bind bind_signature].
    rewrite signature_extension_unbound by exact Hu. simpl. eauto.
  - intros id date name email -> -> -> ->.
    cbn [bind bind_signature].
    rewrite signature_extension_unbound by exact Hu. reflexivity.
Qed.

(** C8, on the code.  With [sign = None] and at least one item,
    [generate_rss] returns no feed: it raises, and for an item that has
    its identifier and its date, under an author with a name and an
    e-mail address, the exception is [UnboundLocalError], as for the item
    a Markdown file is read into. *)
Theorem generate_rss_unsigned_raises (title link description : str)
  (author : dict pyval) (language : str) (build_date : pyval)
  (item : dict pyval) (items : list (dict pyval)) :
  (exists e,
     generate_rss slugify rss title link description author language
       build_date (item :: items) None = Raise e)
  /\ (forall id date name email,
        item_id slugify item = Ok id ->
        dict_get item (lit "date") = Some date ->
        dict_get author (lit "name") = Some name ->
        dict_get author (lit "email") = Some email ->
        generate_rss slugify rss title link description author language
          build_date (item :: items) None = Raise UnboundLocalError)
  /\ generate_rss slugify rss title link description demo.author language
       build_date (demo.post :: items) None = Raise UnboundLocalError.
Proof.
  set (ls := {| feed.title := PStr title;
                feed.description := PStr description;
                var_signature_value := None; var_signature_id := None |}).
  assert (step : forall a it,
    (exists e, item_step slugify link a None ls it = Raise e)
    /\ (forall id date name email,
          item_id slugify it = Ok id ->
          dict_get it (lit "date") = Some date ->
          dict_get a (lit "name") = Some name ->
          dict_get a (lit "email") = Some email ->
          item_step slugify link a None ls it = Raise UnboundLocalError)).
  { intros a it. now apply item_step_unsigned. }
  unfold generate_rss. fold ls. cbn [item_loop].
  split; [|split].
  - destruct (proj1 (step author item)) as [e ->]. simpl. eauto.
  - intros id date name email Hid Hd Hn He.
    now rewrite (proj2 (step author item) id date name email Hid Hd Hn He).
  - rewrite (proj2 (step demo.author demo.post)
               (PStr (slugify (lit "posts/hello.md")))
               (PDate (lit "2025-01-01 00:00:00"))
               (PStr (lit "Ann")) (PStr (lit "ann@example.com")));
      reflexivity.
Qed.

(** With a signing context that has a key and a non-empty identifier,
    the item of a completed loop body carries the signature of its
    canonical bytes and the identifier, unless that signature is the
    empty text. *)
Lemma item_step_signed (link : str) (author : dict pyval) (ctx : sign_ctx)
  (private_key : security.private_key_obj) (ls ls' : locals)
  (item : dict pyval) (it : Item) :
  key ctx = Some private_key ->
  truthy (id ctx) = true ->
  item_step slugify link author (Some ctx) ls item = Ok (ls', it) ->
  exists date h,
    dict_get item (lit "date") = Some date
    /\ security.sign_feed_item private_key (format_value date)
         (format_value (item_get item (lit "title")))
         (format_value (item_get item (lit "content"))) = Ok h
    /\ item_extensions it
       = [if truthy h
          then Some {| signature_value := h; key_id := id ctx |}
          else None].
Proof.
  intros Hk Hid. unfold item_step, dict_item.
  destruct (item_id slugify item) as [i|e]; [|discriminate].
  destruct (dict_get item (lit "date")) as [date|]; [|discriminate].
  cbn [bind bind_signature title description]. rewrite Hk, Hid.
  destruct (security.sign_feed_item private_key (format_value date)
              (format_value (item_get item (lit "title")))
              (format_value (item_get item (lit "content"))))
    as [h|e] eqn:S; [|discriminate].
  cbn [bind].
  destruct (dict_get author (lit "name")) as [name|]; [|discriminate].
  destruct (dict_get author (lit "email")) as [email|]; [|discriminate].
  cbn [bind]. unfold signature_extension.
  cbn [var_signature_value var_signature_id read_local bind truthy_opt].
  rewrite Hid.
  intros H. exists date, h. split; [reflexivity|]. split; [exact S|].
  destruct (truthy h); cbn [bind] in H; inversion H; reflexivity.
Qed.

End FeedFacts.

(* ================================================================== *)
(** ** The parsed profile                                              *)
(* ================================================================== *)

Section ParsedProfile.

Import vcard record_lines parsed.

Variable B : builtins.

Lemma fn_line_only (line : str) :
  startswith (lit "FN:") line = true ->
  startswith (lit "PHOTO:") line = false
  /\ startswith (lit "KEY;") line = false
  /\ startswith (lit "REVKEY;") line = false
  /\ startswith (lit "X-ENDORSE;") line = false.
Proof.
  intros H. repeat split;
    (eapply startswith_other; [|exact H]; discriminate).
Qed.

Lemma photo_line_only (line : str) :
  startswith (lit "PHOTO:") line = true ->
  startswith (lit "FN:") line = false
  /\ startswith (lit "KEY;") line = false
  /\ startswith (lit "REVKEY;") line = false
  /\ startswith (lit "X-ENDORSE;") line = false.
Proof.
  intros H. repeat split;
    (eapply startswith_other; [|exact H]; discriminate).
Qed.

Lemma key_line_not_endorse (line : str) :
  startswith (lit "KEY;") line = true ->
  startswith (lit "X-ENDORSE;") line = false.
Proof. intros H. eapply startswith_other; [|exact H]; discriminate. Qed.

Lemma revkey_line_not_endorse (line : str) :
  startswith (lit "REVKEY;") line = true ->
  startswith (lit "X-ENDORSE;") line = false.
Proof. intros H. eapply startswith_other; [|exact H]; discriminate. Qed.

(** The profile after one pass of the loop body. *)
Lemma parse_line_profile (p p' : Profile.t) (line : str) :
  parse_line B p line = Ok p' ->
  p' = {| Profile.fn := last_value (lit "FN:") (Profile.fn p) [line];
          Profile.photo :=
            last_value (lit "PHOTO:") (Profile.photo p) [line];
          Profile.capabilities := Profile.capabilities p;
          Profile.public_keys := Profile.public_keys p ++ key_entry B line;
          Profile.endorsements :=
            Profile.endorsements p ++ endorsement_entry B line;
          Profile.revocations :=
            Profile.revocations p ++ revocation_entry B line;
          Profile.raw := Profile.raw p |}.
Proof.
  unfold parse_line, last_value, key_entry, endorsement_entry,
    revocation_entry.
  cbn [fold_left].
  destruct (startswith (lit "FN:") line) eqn:F.
  { destruct (fn_line_only line F) as (-> & -> & -> & ->).
    intros [= <-]. rewrite !app_nil_r. reflexivity. }
  destruct (startswith (lit "PHOTO:") line) eqn:P.
  { destruct (photo_line_only line P) as (_ & -> & -> & ->).
    intros [= <-]. rewrite !app_nil_r. reflexivity. }
  destruct (startswith (lit "KEY;") line) eqn:K.
  { destruct (key_line_only line K) as (_ & _ & ->).
    rewrite (key_line_not_endorse line K), unpack_split_once.
    destruct (break_at COLON line) as [[header value]|]; cbn [bind];
      [|discriminate].
    destruct (parse_pref B (parse_params B header)) as [pref|e];
      cbn [bind]; [|discriminate].
    intros [= <-]. rewrite !app_nil_r. destruct p; reflexivity. }
  destruct (startswith (lit "REVKEY;") line) eqn:R.
  { rewrite (revkey_line_not_endorse line R), unpack_split_once.
    destruct (break_at COLON line) as [[header value]|]; cbn [bind];
      [|discriminate].
    intros [= <-]. rewrite !app_nil_r. destruct p; reflexivity. }
  destruct (startswith (lit "X-ENDORSE;") line) eqn:E.
  { rewrite unpack_split_once.
    destruct (break_at COLON line) as [[header value]|]; cbn [bind];
      [|discriminate].
    intros [= <-]. rewrite !app_nil_r. destruct p; reflexivity. }
  intros [= <-]. rewrite !app_nil_r. destruct p; reflexivity.
Qed.

Lemma parse_lines_profile (lines : list str) (p p' : Profile.t) :
  parse_lines B p lines = Ok p' ->
  p' = {| Profile.fn := last_value (lit "FN:") (Profile.fn p) lines;
          Profile.photo := last_value (lit "PHOTO:") (Profile.photo p) lines;
          Profile.capabilities := Profile.capabilities p;
          Profile.public_keys :=
            Profile.public_keys p ++ flat_map (key_entry B) lines;
          Profile.endorsements :=
            Profile.endorsements p ++ flat_map (endorsement_entry B) lines;
          Profile.revocations :=
            Profile.revocations p ++ flat_map (revocation_entry B) lines;
          Profile.raw := Profile.raw p |}.
Proof.
  revert p. induction lines as [|line rest IH]; intros p.
  - cbn. intros [= <-]. rewrite !app_nil_r. destruct p; reflexivity.
  - cbn [parse_lines].
    destruct (parse_line B p line) as [q|e] eqn:L; cbn [bind];
      [|discriminate].
    intros H. rewrite (IH _ H). rewrite (parse_line_profile _ _ L).
    cbn [Profile.fn Profile.photo Profile.capabilities Profile.public_keys
         Profile.endorsements Profile.revocations Profile.raw flat_map].
    unfold last_value. cbn [fold_left].
    rewrite <- !app_assoc. reflexivity.
Qed.

Lemma parse_vcard_profile (text : str) (p : Profile.t) :
  parse_vcard B text = Ok p ->
  p = {| Profile.fn := last_value (lit "FN:") None (stripped_lines text);
         Profile.photo :=
           last_value (lit "PHOTO:") None (stripped_lines text);
         Profile.capabilities := [];
         Profile.public_keys := flat_map (key_entry B) (stripped_lines text);
         Profile.endorsements :=
           flat_map (endorsement_entry B) (stripped_lines text);
         Profile.revocations :=
           flat_map (revocation_entry B) (stripped_lines text);
         Profile.raw := text |}.
Proof. intros H. exact (parse_lines_profile _ _ H). Qed.

Lemma last_value_app (prefix : str) (init : option str) (a b : list str) :
  last_value prefix init (a ++ b)
  = last_value prefix (last_value prefix init a) b.
Proof. unfold last_value. apply fold_left_app. Qed.

Lemma last_value_none (prefix : str) (init : option str) (lines : list str) :
  (forall l, In l lines -> startswith prefix l = false) ->
  last_value prefix init lines = init.
Proof.
  revert init. induction lines as [|l lines IH]; intros init H; [reflexivity|].
  unfold last_value. cbn [fold_left].
  rewrite (H l (or_introl eq_refl)).
  apply IH. intros l' Hl'. apply H. now right.
Qed.

End ParsedProfile.

Section ParsedProfileProperties.

Import vcard record_lines parsed.

Variable B : builtins.

Lemma key_entry_of_parsed (p p' : Profile.t) (line : str) :
  parse_line B p line = Ok p' ->
  List.length (key_entry B line)
  = if startswith (lit "KEY;") line then 1 else 0.
Proof.
  unfold key_entry. destruct (startswith (lit "KEY;") line) eqn:K;
    [|reflexivity].
  rewrite (parse_key_line B p line K).
  destruct (break_at COLON line) as [[header value]|]; [|discriminate].
  cbv zeta. rewrite parse_pref_spec.
  destruct (dict_get (parse_params B header) (lit "PREF")) as [v|];
    [|reflexivity].
  destruct (int_of_str B v); [reflexivity | discriminate].
Qed.

Lemma key_entries_counted (lines : list str) (p p' : Profile.t) :
  parse_lines B p lines = Ok p' ->
  List.length (flat_map (key_entry B) lines)
  = List.length (filter (startswith (lit "KEY;")) lines).
Proof.
  revert p. induction lines as [|line rest IH]; intros p; [reflexivity|].
  cbn [parse_lines flat_map filter].
  destruct (parse_line B p line) as [q|e] eqn:L; cbn [bind]; [|discriminate].
  intros H. rewrite length_app, (key_entry_of_parsed _ _ L), (IH _ H).
  destruct (startswith (lit "KEY;") line); reflexivity.
Qed.

(** The three lists of a parsed record hold one entry for each [KEY;],
    [REVKEY;] and [X-ENDORSE;] line of the text, in the order of the
    lines; a line that occurs twice gives two entries. *)
Theorem parsed_entries_in_line_order (text : str) (p : Profile.t) :
  parse_vcard B text = Ok p ->
  Profile.public_keys p = flat_map (key_entry B) (stripped_lines text)
  /\ Profile.revocations p
     = flat_map (revocation_entry B) (stripped_lines text)
  /\ Profile.endorsements p
     = flat_map (endorsement_entry B) (stripped_lines text)
  /\ List.length (Profile.public_keys p)
     = List.length (filter (startswith (lit "KEY;")) (stripped_lines text)).
Proof.
  intros H. pose proof (parse_vcard_profile B _ H) as E.
  rewrite E. cbn [Profile.public_keys Profile.revocations
                  Profile.endorsements].
  repeat split. exact (key_entries_counted _ _ H).
Qed.

(** The display name of a parsed record is the text behind [FN:] on the
    last line that starts with [FN:], and [None] when no line does; the
    photo reference follows the last [PHOTO:] line in the same way. *)
Theorem last_fn_and_photo_win (text : str) (p : Profile.t) :
  parse_vcard B text = Ok p ->
  (forall pre post v,
     stripped_lines text = pre ++ (lit "FN:" ++ v) :: post ->
     (forall l, In l post -> startswith (lit "FN:") l = false) ->
     Profile.fn p = Some v)
  /\ ((forall l, In l (stripped_lines text) ->
         startswith (lit "FN:") l = false) ->
      Profile.fn p = None)
  /\ (forall pre post v,
        stripped_lines text = pre ++ (lit "PHOTO:" ++ v) :: post ->
        (forall l, In l post -> startswith (lit "PHOTO:") l = false) ->
        Profile.photo p = Some v)
  /\ ((forall l, In l (stripped_lines text) ->
         startswith (lit "PHOTO:") l = false) ->
      Profile.photo p = None).
Proof.
  intros H. pose proof (parse_vcard_profile B _ H) as E.
  rewrite E. cbn [Profile.fn Profile.photo].
  split; [|split; [|split]].
  - intros pre post v -> Hpost.
    change (pre ++ (lit "FN:" ++ v) :: post)
      with (pre ++ [lit "FN:" ++ v] ++ post).
    rewrite !last_value_app, (last_value_none _ _ _ Hpost). reflexivity.
  - intros Hnone. now apply last_value_none.
  - intros pre post v -> Hpost.
    change (pre ++ (lit "PHOTO:" ++ v) :: post)
      with (pre ++ [lit "PHOTO:" ++ v] ++ post).
    rewrite !last_value_app, (last_value_none _ _ _ Hpost). reflexivity.
  - intros Hnone. now apply last_value_none.
Qed.

(** A parsed record keeps the text it was parsed from, unchanged, as
    [raw], and its [capabilities] list is empty: no line fills it. *)
Theorem raw_kept_capabilities_empty (text : str) (p : Profile.t) :
  parse_vcard B text = Ok p ->
  Profile.raw p = text /\ Profile.capabilities p = [].
Proof.
  intros H. rewrite (parse_vcard_profile B _ H). split; reflexivity.
Qed.

End ParsedProfileProperties.

Lemma parsed_entries_in_line_order_witness :
  vcard.parse_vcard ascii_builtins record_lines.scenario
    = Ok (record_lines.scenario_profile record_lines.scenario)
  /\ Profile.public_keys
       (record_lines.scenario_profile record_lines.scenario)
     = flat_map (parsed.key_entry ascii_builtins)
         (vcard.stripped_lines record_lines.scenario).
Proof.
  split; [reflexivity|].
  exact (proj1 (@parsed_entries_in_line_order ascii_builtins
                  record_lines.scenario
                  (record_lines.scenario_profile record_lines.scenario)
                  eq_refl)).
Defined.

Lemma last_fn_and_photo_win_witness :
  exists p,
    vcard.parse_vcard ascii_builtins
      (lit ("FN:Ann" ++ newline ++ "KEY;ALG=x:AAAA" ++ newline ++ "FN:Bob"))
    = Ok p
    /\ Profile.fn p = Some (lit "Bob").
Proof.
  assert (P : exists p,
            vcard.parse_vcard ascii_builtins
              (lit ("FN:Ann" ++ newline ++ "KEY;ALG=x:AAAA" ++ newline
                    ++ "FN:Bob")) = Ok p)
    by (eexists; reflexivity).
  destruct P as [p P]. exists p. split; [exact P|].
  exact (proj1 (@last_fn_and_photo_win ascii_builtins _ p P)
           [lit "FN:Ann"; lit "KEY;ALG=x:AAAA"] [] (lit "Bob") eq_refl
           (fun l (H : In l []) => match H with end)).
Defined.

Lemma raw_kept_capabilities_empty_witness :
  vcard.parse_vcard ascii_builtins record_lines.scenario
    = Ok (record_lines.scenario_profile record_lines.scenario)
  /\ Profile.raw (record_lines.scenario_profile record_lines.scenario)
     = record_lines.scenario.
Proof.
  split; [reflexivity|].
  exact (proj1 (@raw_kept_capabilities_empty ascii_builtins
                  record_lines.scenario
                  (record_lines.scenario_profile record_lines.scenario)
                  eq_refl)).
Defined.

(* ================================================================== *)
(** ** The feed builder with a signing context                         *)
(* ================================================================== *)

Section FeedLoop.

Import feed feed_shape.

Variable slugify : str -> str.
Variable rss : Feed -> result str.

Lemma item_id_ready (item : dict pyval) :
  item_ready item = true -> exists id, item_id slugify item = Ok id.
Proof.
  unfold item_ready, item_id, dict_item. intros H.
  apply andb_prop in H as [_ H].
  destruct (truthy_val (item_get item (lit "id"))); [eauto|].
  cbn [orb] in H.
  destruct (dict_get item (lit "path")) as [[|s|z|d]|]; try discriminate.
  cbn [bind]. eauto.
Qed.

Lemma item_date_ready (item : dict pyval) :
  item_ready item = true ->
  dict_get item (lit "date") = Some (item_get item (lit "date")).
Proof.
  unfold item_ready, dict_has, item_get. intros H.
  apply andb_prop in H as [H _].
  destruct (dict_get item (lit "date")); [reflexivity | discriminate].
Qed.

Lemma author_fields (author : dict pyval) :
  author_ready author = true ->
  exists name email,
    dict_get author (lit "name") = Some name
    /\ dict_get author (lit "email") = Some email.
Proof.
  unfold author_ready, dict_has. intros H.
  apply andb_prop in H as [Hn He].
  destruct (dict_get author (lit "name")) as [name|]; [|discriminate].
  destruct (dict_get author (lit "email")) as [email|]; [|discriminate].
  eauto.
Qed.

(** The loop body returns only for an item that is ready, under an
    author that has a name and an e-mail address, and it binds [title]
    and [description] to what the item holds. *)
Lemma item_step_returns (link : str) (author : dict pyval)
  (sign : option sign_ctx) (ls ls' : locals) (item : dict pyval)
  (it : Item) :
  item_step slugify link author sign ls item = Ok (ls', it) ->
  item_ready item = true
  /\ author_ready author = true
  /\ title ls' = item_get item (lit "title")
  /\ description ls' = item_get item (lit "content").
Proof.
  unfold item_step, item_ready, author_ready, item_id, dict_item, dict_has.
  destruct (truthy_val (item_get item (lit "id"))) eqn:T.
  - cbn [bind orb].
    destruct (dict_get item (lit "date")) as [date|]; cbn [bind];
      [|discriminate].
    destruct (bind_signature sign date _) as [l2|e] eqn:S; cbn [bind];
      [|discriminate].
    destruct (dict_get author (lit "name")) as [name|]; cbn [bind];
      [|discriminate].
    destruct (dict_get author (lit "email")) as [email|]; cbn [bind];
      [|discriminate].
    destruct (signature_extension sign l2) as [ext|e]; cbn [bind];
      [|discriminate].
    intros [= <- _].
    unfold bind_signature in S. destruct sign as [ctx|].
    + destruct (key ctx) as [k|]; cbn [bind] in S.
      * destruct (security.sign_feed_item _ _ _ _); cbn [bind] in S;
          [|discriminate].
        injection S as <-. repeat split.
      * injection S as <-. repeat split.
    + injection S as <-. repeat split.
  - cbn [orb].
    destruct (dict_get item (lit "path")) as [[|s|z|d]|]; cbn [bind];
      try discriminate.
    destruct (dict_get item (lit "date")) as [date|]; cbn [bind];
      [|discriminate].
    destruct (bind_signature sign date _) as [l2|e] eqn:S; cbn [bind];
      [|discriminate].
    destruct (dict_get author (lit "name")) as [name|]; cbn [bind];
      [|discriminate].
    destruct (dict_get author (lit "email")) as [email|]; cbn [bind];
      [|discriminate].
    destruct (signature_extension sign l2) as [ext|e]; cbn [bind];
      [|discriminate].
    intros [= <- _].
    unfold bind_signature in S. destruct sign as [ctx|].
    + destruct (key ctx) as [k|]; cbn [bind] in S.
      * destruct (security.sign_feed_item _ _ _ _); cbn [bind] in S;
          [|discriminate].
        injection S as <-. repeat split.
      * injection S as <-. repeat split.
    + injection S as <-. repeat split.
Qed.

Lemma last_cons_default {A} (l : list A) (x d : A) :
  last (x :: l) d = last l x.
Proof.
  revert x d. induction l as [|y l IH]; intros x d; [reflexivity|].
  change (last (x :: y :: l) d) with (last (y :: l) d).
  now rewrite (IH y d), (IH y x).
Qed.

Lemma after_loop_cons (k : string) (init : pyval) (item : dict pyval)
  (items : list (dict pyval)) :
  after_loop k init (item :: items)
  = after_loop k (item_get item (lit k)) items.
Proof. unfold after_loop. cbn [map]. apply last_cons_default. Qed.

Lemma item_loop_returns (link : str) (author : dict pyval)
  (sign : option sign_ctx) (items : list (dict pyval)) (ls ls' : locals)
  (acc acc' : list Item) :
  item_loop slugify link author sign ls acc items = Ok (ls', acc') ->
  forallb item_ready items = true
  /\ (items <> [] -> author_ready author = true)
  /\ title ls' = after_loop "title" (title ls) items
  /\ description ls' = after_loop "content" (description ls) items
  /\ List.length acc' = List.length acc + List.length items.
Proof.
  revert ls acc. induction items as [|item rest IH]; intros ls acc.
  - cbn. intros [= <- <-]. repeat split; try reflexivity; try lia.
    intros H. now elim H.
  - cbn [item_loop].
    destruct (item_step slugify link author sign ls item) as [[l2 it]|e]
      eqn:S; cbn [bind fst snd]; [|discriminate].
    intros H. destruct (IH _ _ H) as (Hr & _ & Ht & Hd & Hl).
    destruct (item_step_returns _ _ _ _ _ S) as (Hi & Ha & Ht2 & Hd2).
    rewrite !after_loop_cons, <- Ht2, <- Hd2.
    cbn [forallb]. rewrite Hi, Hr.
    split; [reflexivity|]. split; [intros _; exact Ha|].
    split; [exact Ht|]. split; [exact Hd|].
    rewrite Hl, length_app. cbn [List.length]. lia.
Qed.

End FeedLoop.

Section FeedSigned.

Import feed feed_shape.

Variable slugify : str -> str.
Variable rss : Feed -> result str.

Lemma item_id_identifier (item : dict pyval) :
  item_ready item = true ->
  item_id slugify item = Ok (item_identifier slugify item).
Proof.
  unfold item_ready, item_id, item_identifier, dict_item. intros H.
  apply andb_prop in H as [_ H].
  destruct (truthy_val (item_get item (lit "id"))); [reflexivity|].
  cbn [orb] in H.
  destruct (dict_get item (lit "path")) as [[|s|z|d]|]; try discriminate.
  reflexivity.
Qed.

Lemma author_items (author : dict pyval) :
  author_ready author = true ->
  dict_item author (lit "name") = Ok (item_get author (lit "name"))
  /\ dict_item author (lit "email") = Ok (item_get author (lit "email")).
Proof.
  unfold author_ready, dict_has, dict_item, item_get. intros H.
  apply andb_prop in H as [Hn He].
  destruct (dict_get author (lit "name")); [|discriminate].
  destruct (dict_get author (lit "email")); [|discriminate].
  split; reflexivity.
Qed.

(** The loop body on a ready item, whatever the [if sign:] block does,
    as long as that block returns. *)
Lemma item_step_ready (link : str) (author : dict pyval)
  (sign : option sign_ctx) (ls l2 : locals) (item : dict pyval) :
  item_ready item = true ->
  author_ready author = true ->
  bind_signature sign (item_get item (lit "date"))
    {| title := item_get item (lit "title");
       description := item_get item (lit "content");
       var_signature_value := var_signature_value ls;
       var_signature_id := var_signature_id ls |} = Ok l2 ->
  title l2 = item_get item (lit "title") ->
  description l2 = item_get item (lit "content") ->
  item_step slugify link author sign ls item
  = (ext <- signature_extension sign l2 ;;
     Ok (l2, rendered_item slugify link author item ext)).
Proof.
  intros Hi Ha Hs Ht Hd. unfold item_step.
  rewrite (item_id_identifier item Hi). cbn [bind].
  unfold dict_item at 1. rewrite (item_date_ready item Hi). cbn [bind].
  rewrite Hs. cbn [bind].
  destruct (author_items author Ha) as [-> ->]. cbn [bind].
  destruct (signature_extension sign l2) as [ext|e]; cbn [bind];
    [|reflexivity].
  unfold rendered_item. now rewrite Ht, Hd.
Qed.


Lemma hex_nonempty (sig : bytes) : sig <> [] -> truthy (bytes_hex sig) = true.
Proof. destruct sig as [|b sig]; [now intros H; elim H | reflexivity]. Qed.

(** With a key the item is signed, and the signature it carries verifies
    under the public half of the key. *)
Lemma item_step_signed_verifies (link : str) (author : dict pyval)
  (ctx : sign_ctx) (priv : security.private_key_obj)
  (pub : security.public_key_obj) (ls : locals) (item : dict pyval) :
  security.keypair priv pub ->
  signs_nonempty priv ->
  key ctx = Some priv ->
  truthy (id ctx) = true ->
  item_ready item = true ->
  author_ready author = true ->
  fields_encodable item = true ->
  exists l2 h,
    item_step slugify link author (Some ctx) ls item
    = Ok (l2, rendered_item slugify link author item
                (Some {| signature_value := h; key_id := id ctx |}))
    /\ title l2 = item_get item (lit "title")
    /\ description l2 = item_get item (lit "content")
    /\ security.sign_feed_item priv (signed_date item) (signed_title item)
         (signed_content item) = Ok h
    /\ security.verify_feed_signature pub (signed_date item)
         (signed_title item) (signed_content item) h = Ok true.
Proof.
  intros K Hne Hk Hid Hi Ha He.
  unfold fields_encodable in He.
  apply andb_prop in He as [He Hc]. apply andb_prop in He as [Hd Ht].
  destruct (canonical_feed_total _ _ _ Hd Ht Hc) as [c Hcan].
  destruct (K c) as (sig & Hs & Hv).
  assert (Hsign : security.sign_feed_item priv (signed_date item)
                    (signed_title item) (signed_content item)
                  = Ok (bytes_hex sig)).
  { unfold security.sign_feed_item. rewrite Hcan. cbn [bind].
    rewrite Hs. reflexivity. }
  exists {| title := item_get item (lit "title");
            description := item_get item (lit "content");
            var_signature_value := Some (Some (bytes_hex sig));
            var_signature_id := Some (Some (id ctx)) |}.
  exists (bytes_hex sig). split; [|split; [|split; [|split]]].
  - assert (S : bind_signature (Some ctx) (item_get item (lit "date"))
                  {| title := item_get item (lit "title");
                     description := item_get item (lit "content");
                     var_signature_value := var_signature_value ls;
                     var_signature_id := var_signature_id ls |}
                = Ok {| title := item_get item (lit "title");
                        description := item_get item (lit "content");
                        var_signature_value := Some (Some (bytes_hex sig));
                        var_signature_id := Some (Some (id ctx)) |}).
    { unfold bind_signature. rewrite Hk. cbn [title description].
      fold (signed_date item) (signed_title item) (signed_content item).
      rewrite Hsign. cbn [bind]. rewrite Hid. reflexivity. }
    rewrite (@item_step_ready link author (Some ctx) ls _ item Hi Ha S eq_refl
             eq_refl).
    unfold signature_extension.
    cbn [var_signature_value var_signature_id read_local bind].
    rewrite (hex_nonempty (Hne _ _ Hs)). cbn [bind truthy_opt].
    rewrite Hid. reflexivity.
  - reflexivity.
  - reflexivity.
  - exact Hsign.
  - rewrite verify_feed_as_bool, Hcan. cbn [bind].
    rewrite fromhex_hex. cbn [bind]. now rewrite Hv.
Qed.

End FeedSigned.

(* ================================================================== *)
(** ** Slugs                                                           *)
(* ================================================================== *)

Section SlugFacts.

Import utils.

Lemma sub_runs_alphabet (s : str) (b : bool) :
  slug_alphabet (sub_runs b s) = true.
Proof.
  revert b. induction s as [|c s IH]; intros b; [reflexivity|].
  cbn [sub_runs]. destruct (is_slug_char c) eqn:C.
  - unfold slug_alphabet in *. cbn [forallb]. now rewrite C, IH.
  - destruct b; [apply IH|].
    unfold slug_alphabet in *. cbn [forallb]. rewrite IH.
    now rewrite orb_true_r.
Qed.

Lemma hyphen_not_slug_char (c : N) :
  (c =? HYPHEN)%N = true -> is_slug_char c = false.
Proof. intros H. apply N.eqb_eq in H. now subst. Qed.

(** Inside a run the substitution writes no hyphen at the front. *)
Lemma sub_runs_in_run (s : str) :
  startswith [HYPHEN] (sub_runs true s) = false.
Proof.
  induction s as [|c s IH]; [reflexivity|].
  cbn [sub_runs]. destruct (is_slug_char c) eqn:C; [|exact IH].
  cbn [startswith]. destruct (N.eqb_spec HYPHEN c) as [<-|]; [|reflexivity].
  discriminate C.
Qed.

Lemma no_double_cons (c : N) (s : str) :
  no_double_hyphen (c :: s)
  = negb ((c =? HYPHEN)%N && startswith [HYPHEN] s) && no_double_hyphen s.
Proof.
  destruct s as [|d s]; cbn [no_double_hyphen startswith].
  - now rewrite andb_false_r.
  - now rewrite andb_true_r, (N.eqb_sym HYPHEN d).
Qed.

Lemma sub_runs_no_double (s : str) (b : bool) :
  no_double_hyphen (sub_runs b s) = true.
Proof.
  revert b. induction s as [|c s IH]; intros b; [reflexivity|].
  cbn [sub_runs]. destruct (is_slug_char c) eqn:C.
  - rewrite no_double_cons, IH.
    destruct (c =? HYPHEN)%N eqn:E; [|reflexivity].
    rewrite (hyphen_not_slug_char c E) in C. discriminate.
  - destruct b; [apply IH|].
    now rewrite no_double_cons, IH, sub_runs_in_run, andb_false_r.
Qed.

Lemma lstrip_hyphens_suffix (s : str) :
  exists pre, s = pre ++ lstrip_hyphens s.
Proof.
  induction s as [|c s [pre IH]]; [now exists []|].
  cbn [lstrip_hyphens]. destruct (c =? HYPHEN)%N.
  - exists (c :: pre). cbn [app]. now rewrite <- IH.
  - now exists [].
Qed.

Lemma lstrip_hyphens_front (s : str) :
  startswith [HYPHEN] (lstrip_hyphens s) = false.
Proof.
  induction s as [|c s IH]; [reflexivity|].
  cbn [lstrip_hyphens]. destruct (c =? HYPHEN)%N eqn:E; [exact IH|].
  cbn [startswith]. now rewrite N.eqb_sym, E.
Qed.

Lemma lstrip_hyphens_fixed (s : str) :
  startswith [HYPHEN] s = false -> lstrip_hyphens s = s.
Proof.
  destruct s as [|c s]; [reflexivity|].
  cbn [startswith lstrip_hyphens]. rewrite andb_true_r, N.eqb_sym.
  now intros ->.
Qed.

(** [strip_hyphens] cuts a piece out of the middle of its argument. *)
Lemma strip_hyphens_middle (s : str) :
  exists pre suf, s = pre ++ strip_hyphens s ++ suf.
Proof.
  unfold strip_hyphens.
  destruct (lstrip_hyphens_suffix s) as [pre Hpre].
  destruct (lstrip_hyphens_suffix (rev (lstrip_hyphens s))) as [suf Hsuf].
  exists pre, (rev suf).
  rewrite <- rev_app_distr, <- Hsuf, rev_involutive. exact Hpre.
Qed.

Lemma slug_alphabet_app (a b : str) :
  slug_alphabet (a ++ b) = slug_alphabet a && slug_alphabet b.
Proof. unfold slug_alphabet. apply forallb_app. Qed.

Lemma no_double_app (a b : str) :
  no_double_hyphen (a ++ b) = true ->
  no_double_hyphen a = true /\ no_double_hyphen b = true.
Proof.
  induction a as [|c a IH]; [now split|].
  cbn [app]. rewrite !no_double_cons. intros H.
  apply andb_prop in H as [Hc Ha]. destruct (IH Ha) as [IHa IHb].
  split; [|exact IHb]. rewrite IHa, andb_true_r.
  destruct a as [|d a]; [now rewrite andb_false_r | exact Hc].
Qed.

Lemma strip_hyphens_ends (s : str) :
  startswith [HYPHEN] (strip_hyphens s) = false
  /\ startswith [HYPHEN] (rev (strip_hyphens s)) = false.
Proof.
  unfold strip_hyphens. split.
  - pose proof (lstrip_hyphens_front s) as F.
    destruct (lstrip_hyphens_suffix (rev (lstrip_hyphens s))) as [suf Hsuf].
    apply (f_equal (@rev N)) in Hsuf.
    rewrite rev_involutive, rev_app_distr in Hsuf.
    destruct (rev (lstrip_hyphens (rev (lstrip_hyphens s)))) as [|c t];
      [reflexivity|].
    rewrite Hsuf in F. exact F.
  - rewrite rev_involutive. apply lstrip_hyphens_front.
Qed.

(** Every slug has the shape of a slug: letters [a]-[z], digits and
    single hyphens, with no hyphen at either end. *)
Theorem slugify_shape (nfkd : str -> str) (text : str) :
  slug_shaped (slugify nfkd text) = true.
Proof.
  unfold slugify, slug_shaped.
  set (t := sub_runs false (map ascii_lower_char (ascii_only (nfkd text)))).
  destruct (strip_hyphens_middle t) as (pre & suf & Ht).
  destruct (strip_hyphens_ends t) as [F L].
  pose proof (sub_runs_alphabet
                (map ascii_lower_char (ascii_only (nfkd text))) false) as A.
  pose proof (sub_runs_no_double
                (map ascii_lower_char (ascii_only (nfkd text))) false) as D.
  fold t in A, D. rewrite Ht in A, D.
  rewrite !slug_alphabet_app in A.
  apply andb_prop in A as [_ A]. apply andb_prop in A as [A _].
  apply no_double_app in D as [_ D]. apply no_double_app in D as [D _].
  now rewrite A, F, L, D.
Qed.

Lemma slug_char_plain (c : N) :
  is_slug_char c || (c =? HYPHEN)%N = true ->
  (c <? 128)%N = true /\ ascii_lower_char c = c.
Proof.
  unfold is_slug_char, ascii_lower_char, HYPHEN. intros H.
  repeat match goal with
  | H : _ || _ = true |- _ => apply orb_prop in H as [H|H]
  | H : _ && _ = true |- _ => apply andb_prop in H as [? ?]
  | H : (_ <=? _)%N = true |- _ => apply N.leb_le in H
  | H : (_ =? _)%N = true |- _ => apply N.eqb_eq in H
  end;
  (split; [apply N.ltb_lt; lia|]);
  (destruct (N.leb_spec 65 c); [|reflexivity]);
  (destruct (N.leb_spec c 90); [lia | reflexivity]).
Qed.

Lemma slug_text_plain (s : str) :
  slug_alphabet s = true ->
  ascii_only s = s /\ map ascii_lower_char s = s.
Proof.
  unfold slug_alphabet, ascii_only.
  induction s as [|c s IH]; [now split|].
  cbn [forallb filter map]. intros H. apply andb_prop in H as [Hc Hs].
  destruct (slug_char_plain c Hc) as [-> ->].
  destruct (IH Hs) as [-> ->]. now split.
Qed.

Lemma sub_runs_fixed (s : str) (b : bool) :
  slug_alphabet s = true ->
  no_double_hyphen s = true ->
  (b = true -> startswith [HYPHEN] s = false) ->
  sub_runs b s = s.
Proof.
  revert b. induction s as [|c s IH]; intros b A D F; [reflexivity|].
  unfold slug_alphabet in A. cbn [forallb] in A.
  apply andb_prop in A as [Ac As].
  rewrite no_double_cons in D. apply andb_prop in D as [Dc Ds].
  cbn [sub_runs]. destruct (is_slug_char c) eqn:C.
  - f_equal. apply IH; [exact As | exact Ds | discriminate].
  - cbn [orb] in Ac. rewrite Ac in Dc. cbn [andb] in Dc.
    apply negb_true_iff in Dc.
    destruct b.
    + specialize (F eq_refl). cbn [startswith] in F.
      rewrite N.eqb_sym, Ac in F. discriminate.
    + apply N.eqb_eq in Ac. subst c. f_equal.
      apply IH; [exact As | exact Ds | intros _; exact Dc].
Qed.

(** A text that has the shape of a slug, and that the normalisation
    leaves alone, is its own slug; so the slug of a slug is that slug,
    given that the normalisation changes no ASCII text. *)
Theorem slugify_fixes_slugs (nfkd : str -> str) (text : str) :
  (forall s, ascii_text s = true -> nfkd s = s) ->
  (forall s, slug_shaped s = true -> slugify nfkd s = s)
  /\ slugify nfkd (slugify nfkd text) = slugify nfkd text.
Proof.
  intros Hn.
  assert (fixed : forall s, slug_shaped s = true -> slugify nfkd s = s).
  { intros s H. unfold slug_shaped in H.
    apply andb_prop in H as [H D]. apply andb_prop in H as [H L].
    apply andb_prop in H as [A F].
    apply negb_true_iff in F. apply negb_true_iff in L.
    destruct (slug_text_plain s A) as [Ha Hl].
    assert (Hs : nfkd s = s).
    { apply Hn. unfold ascii_text. rewrite <- Ha at 1.
      unfold ascii_only. apply forallb_forall. intros c Hc.
      unfold ascii_only in Ha. rewrite <- Ha in Hc.
      now apply filter_In in Hc as [_ Hc]. }
    unfold slugify. rewrite Hs, Ha, Hl.
    rewrite (@sub_runs_fixed s false A D) by discriminate.
    unfold strip_hyphens.
    rewrite (@lstrip_hyphens_fixed s F), (@lstrip_hyphens_fixed (rev s) L).
    apply rev_involutive. }
  split; [exact fixed|].
  apply fixed. apply slugify_shape.
Qed.

End SlugFacts.

Lemma slugify_fixes_slugs_witness :
  utils.slugify (fun s => s) (lit "Posts/Hello World!.md")
    = lit "posts-hello-world-md"
  /\ utils.slugify (fun s => s)
       (utils.slugify (fun s => s) (lit "Posts/Hello World!.md"))
     = utils.slugify (fun s => s) (lit "Posts/Hello World!.md").
Proof.
  split; [reflexivity|].
  exact (proj2 (@slugify_fixes_slugs (fun s => s)
                  (lit "Posts/Hello World!.md") (fun s _ => eq_refl))).
Defined.

(* ================================================================== *)
(** ** What the feed builder returns                                   *)
(* ================================================================== *)

Section FeedResults.

Import feed feed_shape.

Variable slugify : str -> str.
Variable rss : Feed -> result str.


Lemma item_loop_signed (link : str) (author : dict pyval) (ctx : sign_ctx)
  (priv : security.private_key_obj) (pub : security.public_key_obj)
  (items : list (dict pyval)) (ls : locals) (acc : list Item) :
  security.keypair priv pub ->
  signs_nonempty priv ->
  key ctx = Some priv ->
  truthy (id ctx) = true ->
  author_ready author = true ->
  forallb item_ready items = true ->
  forallb fields_encodable items = true ->
  exists ls' hs,
    item_loop slugify link author (Some ctx) ls acc items
    = Ok (ls',
          acc ++ map (fun ih =>
                        rendered_item slugify link author (fst ih)
                          (Some {| signature_value := snd ih;
                                   key_id := id ctx |}))
                   (combine items hs))
    /\ Forall2
         (fun item h =>
            security.sign_feed_item priv (signed_date item)
              (signed_title item) (signed_content item) = Ok h
            /\ security.verify_feed_signature pub (signed_date item)
                 (signed_title item) (signed_content item) h = Ok true)
         items hs.
Proof.
  intros K Hne Hk Hid Ha. revert ls acc.
  induction items as [|item rest IH]; intros ls acc Hi He.
  - exists ls, []. split; [|constructor]. cbn. now rewrite app_nil_r.
  - cbn [forallb] in Hi, He.
    apply andb_prop in Hi as [Hi Hr]. apply andb_prop in He as [He Her].
    destruct (item_step_signed_verifies slugify link author ctx ls item
                K Hne Hk Hid Hi Ha He) as (l2 & h & S & _ & _ & Hs & Hv).
    cbn [item_loop]. rewrite S. cbn [bind fst snd].
    destruct (IH l2
                (acc ++ [rendered_item slugify link author item
                           (Some {| signature_value := h;
                                    key_id := id ctx |})])
                Hr Her) as (ls' & hs & L & F).
    exists ls', (h :: hs). split; [|constructor; [split|]; assumption].
    rewrite L. cbn [combine map fst snd]. now rewrite <- app_assoc.
Qed.

(** The feed a returned document was made from. *)
Lemma generate_rss_returned (title link description : str)
  (author : dict pyval) (language : str) (build_date : pyval)
  (items : list (dict pyval)) (sign : option sign_ctx) (out : str) :
  generate_rss slugify rss title link description author language
    build_date items sign = Ok out ->
  forallb item_ready items = true
  /\ (items <> [] -> author_ready author = true)
  /\ exists feed_items,
       List.length feed_items = List.length items
       /\ rss (rendered_feed title link description language build_date
                 items feed_items) = Ok out.
Proof.
  unfold generate_rss.
  destruct (item_loop slugify link author sign _ [] items)
    as [[ls' its]|e] eqn:L; cbn [bind fst snd]; [|discriminate].
  destruct (item_loop_returns _ _ _ _ _ _ _ L) as (Hr & Ha & Ht & Hd & Hl).
  cbn [feed.title feed.description List.length] in Ht, Hd, Hl.
  intros H. split; [exact Hr|]. split; [exact Ha|].
  exists its. split; [exact Hl|].
  unfold rendered_feed, after_loop in *. now rewrite <- Ht, <- Hd.
Qed.

(** Whenever [generate_rss] returns a document, every item had a date
    and an identifier or a path text; and if there was an item at all,
    the author had a name and an e-mail address and a signing context
    was passed. *)
Theorem generate_rss_returns_only_if (title link description : str)
  (author : dict pyval) (language : str) (build_date : pyval)
  (items : list (dict pyval)) (sign : option sign_ctx) (out : str) :
  generate_rss slugify rss title link description author language
    build_date items sign = Ok out ->
  forallb item_ready items = true
  /\ (items <> [] -> author_ready author = true /\ sign <> None).
Proof.
  intros H.
  destruct (generate_rss_returned _ _ _ _ _ _ _ _ H) as (Hr & Ha & _).
  split; [exact Hr|]. intros Hne. split; [now apply Ha|].
  intros ->. destruct items as [|item rest]; [now elim Hne|].
  unfold generate_rss in H. cbn [item_loop] in H.
  destruct (proj1 (item_step_unsigned slugify link author
                     {| feed.title := PStr title;
                        feed.description := PStr description;
                        var_signature_value := None;
                        var_signature_id := None |} item eq_refl))
    as [e E].
  rewrite E in H. discriminate H.
Qed.

(** The document [generate_rss] returns is [rss()] of a feed with one
    item for each input item; when there is an item, the title and the
    description of that feed are the title and the content of the last
    item, not the title and the description that were passed. *)
Theorem feed_title_is_last_item_title (title link description : str)
  (author : dict pyval) (language : str) (build_date : pyval)
  (items : list (dict pyval)) (last_item : dict pyval)
  (sign : option sign_ctx) (out : str) :
  generate_rss slugify rss title link description author language
    build_date (items ++ [last_item]) sign = Ok out ->
  exists feed_items,
    List.length feed_items = S (List.length items)
    /\ rss {| feed_title := item_get last_item (lit "title");
              feed_link := link;
              feed_description := item_get last_item (lit "content");
              feed_language := language;
              feed_lastBuildDate := build_date;
              feed_items := feed_items;
              feed_atom_link := link |} = Ok out.
Proof.
  intros H.
  destruct (generate_rss_returned _ _ _ _ _ _ _ _ H)
    as (_ & _ & its & Hl & Hrss).
  exists its. split.
  - rewrite Hl, length_app. cbn [List.length]. lia.
  - unfold rendered_feed, after_loop in Hrss.
    rewrite !map_app in Hrss. cbn [map] in Hrss.
    now rewrite !last_last in Hrss.
Qed.



End FeedResults.

Lemma demo_signs_nonempty : feed_shape.signs_nonempty (demo.private x2a).
Proof. intros m sig [= <-]. discriminate. Qed.

Lemma demo_keyless_run :
  feed.generate_rss demo_feed.slug demo_feed.rss (lit "T")
    (lit "https://example.com") (lit "D") demo.author (lit "en-US") PNone
    [demo_feed.second_post; demo.post] (Some demo_feed.keyless)
  = Ok (lit "2").
Proof. reflexivity. Qed.

Lemma generate_rss_returns_only_if_witness :
  feed.generate_rss demo_feed.slug demo_feed.rss (lit "T")
    (lit "https://example.com") (lit "D") demo.author (lit "en-US") PNone
    [demo_feed.second_post; demo.post] (Some demo_feed.keyless)
  = Ok (lit "2")
  /\ forallb feed_shape.item_ready [demo_feed.second_post; demo.post] = true.
Proof.
  split; [exact demo_keyless_run|].
  exact (proj1 (@generate_rss_returns_only_if demo_feed.slug demo_feed.rss
                  _ _ _ _ _ _ _ _ _ demo_keyless_run)).
Defined.

Lemma feed_title_is_last_item_title_witness :
  exists feed_items,
    List.length feed_items = 2
    /\ demo_feed.rss
         {| feed.feed_title := PStr (lit "Hello");
            feed.feed_link := lit "https://example.com";
            feed.feed_description := PStr (lit "<p>World</p>");
            feed.feed_language := lit "en-US";
            feed.feed_lastBuildDate := PNone;
            feed.feed_items := feed_items;
            feed.feed_atom_link := lit "https://example.com" |}
       = Ok (lit "2").
Proof.
  exact (@feed_title_is_last_item_title demo_feed.slug demo_feed.rss
           (lit "T") (lit "https://example.com") (lit "D") demo.author
           (lit "en-US") PNone [demo_feed.second_post] demo.post
           (Some demo_feed.keyless) (lit "2") demo_keyless_run).
Defined.



(* ================================================================== *)
(** ** Stripping and splitting into lines                              *)
(* ================================================================== *)

Section StripFacts.

Import text_shape.

Lemma lstrip_start (s : str) :
  starts_with_space s = false -> lstrip s = s.
Proof. destruct s as [|c s]; [reflexivity|]. cbn. now intros ->. Qed.

Lemma lstrip_app (x y : str) :
  lstrip (x ++ y) = if forallb is_space x then lstrip y else lstrip x ++ y.
Proof.
  induction x as [|c x IH]; [reflexivity|].
  cbn [app lstrip forallb]. destruct (is_space c); [exact IH | reflexivity].
Qed.

Lemma lstrip_done (s : str) : starts_with_space (lstrip s) = false.
Proof.
  induction s as [|c s IH]; [reflexivity|].
  cbn [lstrip]. destruct (is_space c) eqn:E; [exact IH | exact E].
Qed.

(** Behind a text that ends with a character that is no white space,
    [rstrip] works on what follows alone. *)
Lemma rstrip_behind (a v : str) (c : N) :
  is_space c = false ->
  rstrip ((a ++ [c]) ++ v) = (a ++ [c]) ++ rstrip v.
Proof.
  intros Hc. unfold rstrip.
  rewrite !rev_app_distr. cbn [rev app].
  rewrite lstrip_app.
  destruct (forallb is_space (rev v)) eqn:F.
  - cbn [lstrip]. rewrite Hc.
    assert (E : lstrip (rev v) = []).
    { clear -F. induction (rev v) as [|x r IH]; [reflexivity|].
      cbn [forallb] in F. apply andb_prop in F as [Fx Fr].
      cbn [lstrip]. rewrite Fx. now apply IH. }
    rewrite E. cbn [rev app]. rewrite rev_involutive, app_nil_r.
    reflexivity.
  - rewrite rev_app_distr. cbn [rev app].
    rewrite rev_involutive. now rewrite <- app_assoc.
Qed.

Lemma strip_behind (c0 : N) (a v : str) (c : N) :
  is_space c0 = false -> is_space c = false ->
  strip ((c0 :: a ++ [c]) ++ v) = (c0 :: a ++ [c]) ++ rstrip v.
Proof.
  intros H0 Hc. unfold strip.
  rewrite lstrip_start by exact H0.
  exact (@rstrip_behind (c0 :: a) v c Hc).
Qed.

Lemma rstrip_end (a : str) (c : N) :
  is_space c = false -> rstrip (a ++ [c]) = a ++ [c].
Proof.
  intros Hc. pose proof (@rstrip_behind a [] c Hc) as H.
  rewrite !app_nil_r in H. exact H.
Qed.

Lemma strip_trimmed (s : str) : trimmed s = true -> strip s = s.
Proof.
  unfold trimmed, strip, rstrip. intros H.
  apply andb_prop in H as [Hs He].
  apply negb_true_iff in Hs. apply negb_true_iff in He.
  rewrite (@lstrip_start s Hs), (@lstrip_start (rev s) He).
  apply rev_involutive.
Qed.

Lemma rstrip_trimmed (s : str) : trimmed s = true -> rstrip s = s.
Proof.
  unfold trimmed, rstrip. intros H.
  apply andb_prop in H as [_ He]. apply negb_true_iff in He.
  rewrite (@lstrip_start (rev s) He). apply rev_involutive.
Qed.

Lemma spaceless_trimmed (s : str) : spaceless s = true -> trimmed s = true.
Proof.
  unfold spaceless, trimmed. intros H.
  assert (R : forallb (fun c => negb (is_space c)) (rev s) = true).
  { rewrite forallb_forall in *. intros c Hc. apply H.
    now apply in_rev. }
  destruct s as [|c s]; [reflexivity|].
  cbn [forallb starts_with_space] in *.
  apply andb_prop in H as [-> _]. cbn [andb].
  destruct (rev (c :: s)) as [|d r]; [reflexivity|].
  cbn [forallb starts_with_space] in *.
  now apply andb_prop in R as [-> _].
Qed.

(** A line without boundary, followed by a line feed, comes out of
    [splitlines] as it is. *)
Lemma splitlines_from_line (line rest cur : str) :
  one_line line = true ->
  splitlines_from cur (line ++ LF :: rest)
  = (rev cur ++ line) :: splitlines_from [] rest.
Proof.
  revert cur. induction line as [|c line IH]; intros cur H.
  - cbn. now rewrite app_nil_r.
  - unfold one_line in H. cbn [forallb] in H.
    apply andb_prop in H as [Hc Hl]. apply negb_true_iff in Hc.
    cbn [app splitlines_from].
    assert (Hcr : (c =? CR)%N = false).
    { destruct (N.eqb_spec c CR) as [->|]; [discriminate Hc | reflexivity]. }
    rewrite Hcr, Hc, (IH (c :: cur) Hl). cbn [rev].
    now rewrite <- app_assoc.
Qed.

Lemma splitlines_from_last (line cur : str) :
  one_line line = true ->
  splitlines_from cur line
  = match rev cur ++ line with [] => [] | l => [l] end.
Proof.
  revert cur. induction line as [|c line IH]; intros cur H.
  - cbn. rewrite app_nil_r. destruct cur as [|x cur]; [reflexivity|].
    cbn [rev]. destruct (rev cur ++ [x]) eqn:E; [|reflexivity].
    now destruct (rev cur).
  - unfold one_line in H. cbn [forallb] in H.
    apply andb_prop in H as [Hc Hl]. apply negb_true_iff in Hc.
    cbn [splitlines_from].
    assert (Hcr : (c =? CR)%N = false).
    { destruct (N.eqb_spec c CR) as [->|]; [discriminate Hc | reflexivity]. }
    rewrite Hcr, Hc, (IH (c :: cur) Hl). cbn [rev].
    now rewrite <- app_assoc.
Qed.

End StripFacts.

(* ================================================================== *)
(** ** Signature texts and the bytes that are signed                   *)
(* ================================================================== *)

Section SignatureTexts.

Import security hex_text text_shape.

Lemma hex_of_byte_lower (b : byte) : lower_hex (hex_of_byte b) = true.
Proof. destruct b; reflexivity. Qed.

Lemma bytes_hex_lower (b : bytes) :
  lower_hex (bytes_hex b) = true
  /\ List.length (bytes_hex b) = 2 * List.length b.
Proof.
  induction b as [|x b [IH1 IH2]]; [split; reflexivity|].
  change (bytes_hex (x :: b)) with (hex_of_byte x ++ bytes_hex b).
  unfold lower_hex in *. rewrite forallb_app, length_app, IH2.
  fold (lower_hex (hex_of_byte x)). rewrite hex_of_byte_lower, IH1.
  split; [reflexivity|]. cbn [hex_of_byte List.length]. lia.
Qed.

Lemma lower_hex_char (c : N) :
  is_lower_hex c = true ->
  (c =? COLON)%N = false /\ (c =? SEMICOLON)%N = false
  /\ (c =? EQUALS)%N = false /\ is_space c = false
  /\ is_linebreak c = false.
Proof.
  unfold is_lower_hex, COLON, SEMICOLON, EQUALS. intros H.
  assert (R : (48 <= c <= 57 \/ 97 <= c <= 102)%N).
  { apply orb_prop in H as [H|H]; apply andb_prop in H as [H1 H2];
      apply N.leb_le in H1; apply N.leb_le in H2; lia. }
  clear H. unfold is_space, is_linebreak.
  repeat match goal with
  | |- context [(?a =? ?b)%N] => destruct (N.eqb_spec a b); [lia|]
  | |- context [(?a <=? ?b)%N] => destruct (N.leb_spec a b)
  end; cbn; repeat split; try reflexivity; lia.
Qed.

Lemma lower_hex_text (h : str) :
  lower_hex h = true ->
  str_in COLON h = false /\ str_in SEMICOLON h = false
  /\ str_in EQUALS h = false /\ spaceless h = true /\ one_line h = true.
Proof.
  unfold lower_hex, spaceless, one_line.
  induction h as [|c h IH]; [repeat split|].
  cbn [forallb]. intros H. apply andb_prop in H as [Hc Hh].
  destruct (lower_hex_char c Hc) as (Pc & Ps & Pe & Pw & Pl).
  destruct (IH Hh) as (Ic & Is & Ie & Iw & Il).
  rewrite !str_in_cons, Pc, Ps, Pe, Ic, Is, Ie, Pw, Pl, Iw, Il.
  repeat split.
Qed.

Lemma signed_text (priv : private_key_obj) (c : bytes) (h : str) :
  (sig <- sign priv c ;; Ok (bytes_hex sig)) = Ok h ->
  exists sig, sign priv c = Ok sig /\ h = bytes_hex sig.
Proof.
  destruct (sign priv c) as [sig|e]; cbn [bind]; [|discriminate].
  intros [= <-]. now exists sig.
Qed.

Lemma sign_endorsement_inv (priv : private_key_obj) (k h : str) :
  sign_endorsement priv k = Ok h ->
  exists c sig, canonical_endorsement_string k = Ok c
                /\ sign priv c = Ok sig /\ h = bytes_hex sig.
Proof.
  unfold sign_endorsement.
  destruct (canonical_endorsement_string k) as [c|e]; cbn [bind];
    [|discriminate].
  intros H. destruct (signed_text _ _ H) as (sig & Hs & ->).
  now exists c, sig.
Qed.

Lemma sign_feed_item_inv (priv : private_key_obj) (d t s h : str) :
  sign_feed_item priv d t s = Ok h ->
  exists c sig, canonical_feed_string d t s = Ok c
                /\ sign priv c = Ok sig /\ h = bytes_hex sig.
Proof.
  unfold sign_feed_item.
  destruct (canonical_feed_string d t s) as [c|e]; cbn [bind];
    [|discriminate].
  intros H. destruct (signed_text _ _ H) as (sig & Hs & ->).
  now exists c, sig.
Qed.

(** What [sign_endorsement] and [sign_feed_item] return is the signature
    in lower-case hexadecimal, two digits for each octet: a text without
    colon, semicolon, equals sign, white space or line boundary, which
    [strip] leaves as it is. *)
Theorem signature_hex_is_lower_hex (priv : private_key_obj)
  (k d t s h : str) :
  sign_endorsement priv k = Ok h \/ sign_feed_item priv d t s = Ok h ->
  lower_hex h = true
  /\ Nat.Even (List.length h)
  /\ str_in COLON h = false /\ str_in SEMICOLON h = false
  /\ str_in EQUALS h = false
  /\ strip h = h /\ one_line h = true.
Proof.
  intros H.
  assert (E : exists sig, h = bytes_hex sig).
  { destruct H as [H|H].
    - destruct (sign_endorsement_inv _ _ H) as (c & sig & _ & _ & ->).
      now exists sig.
    - destruct (sign_feed_item_inv _ _ _ _ H) as (c & sig & _ & _ & ->).
      now exists sig. }
  destruct E as [sig ->].
  destruct (bytes_hex_lower sig) as [L Len].
  destruct (lower_hex_text _ L) as (Hc & Hs & He & Hw & Hl).
  split; [exact L|]. split; [exists (List.length sig); lia|].
  repeat split; try assumption.
  apply strip_trimmed. now apply spaceless_trimmed.
Qed.

(** A signature made by the private half verifies under the public half
    over every field tuple that has the same canonical bytes. *)
Lemma signed_bytes_verify (priv : private_key_obj) (pub : public_key_obj)
  (c : bytes) (sig : bytes) :
  keypair priv pub -> sign priv c = Ok sig ->
  try_except
    (raw <- bytes_fromhex (bytes_hex sig) ;;
     _ <- verify pub raw c ;; Ok true)
    (fun _ => Ok false) = Ok true.
Proof.
  intros K Hs. destruct (K c) as (sig' & Hs' & Hv).
  rewrite Hs in Hs'. injection Hs' as <-.
  rewrite fromhex_hex. cbn [bind]. now rewrite Hv.
Qed.

(** The canonical feed bytes do not delimit their fields.  Moving a line
    feed between the date and the title, or between the title and the
    description, gives the same bytes; so the signature made for one
    item verifies for the other. *)
Theorem feed_fields_not_delimited (priv : private_key_obj)
  (pub : public_key_obj) (d t s u h : str) :
  keypair priv pub ->
  sign_feed_item priv (d ++ nl ++ t) s u = Ok h ->
  canonical_feed_string (d ++ nl ++ t) s u
    = canonical_feed_string d (t ++ nl ++ s) u
  /\ verify_feed_signature pub (d ++ nl ++ t) s u h = Ok true
  /\ verify_feed_signature pub d (t ++ nl ++ s) u h = Ok true.
Proof.
  intros K H.
  assert (E : canonical_feed_string (d ++ nl ++ t) s u
              = canonical_feed_string d (t ++ nl ++ s) u).
  { unfold canonical_feed_string. now rewrite <- !app_assoc. }
  destruct (sign_feed_item_inv _ _ _ _ H) as (c & sig & Hc & Hs & ->).
  split; [exact E|].
  unfold verify_feed_signature. rewrite <- E, Hc. cbn [bind].
  split; (eapply signed_bytes_verify; eassumption).
Qed.

(** The two message shapes share bytes: the feed item with the date
    [endorse:A], the title [B] and the description [C] has the canonical
    bytes of the endorsement of the identifier made of [A], [B] and [C]
    on three lines; so the signature of the feed item verifies as an
    endorsement. *)
Theorem feed_signature_verifies_as_endorsement (priv : private_key_obj)
  (pub : public_key_obj) (a b c h : str) :
  keypair priv pub ->
  sign_feed_item priv (lit "endorse:" ++ a) b c = Ok h ->
  canonical_feed_string (lit "endorse:" ++ a) b c
    = canonical_endorsement_string (a ++ nl ++ b ++ nl ++ c)
  /\ verify_endorsement_signature pub (a ++ nl ++ b ++ nl ++ c) h = Ok true.
Proof.
  intros K H.
  assert (E : canonical_feed_string (lit "endorse:" ++ a) b c
              = canonical_endorsement_string (a ++ nl ++ b ++ nl ++ c)).
  { unfold canonical_feed_string, canonical_endorsement_string.
    now rewrite <- !app_assoc. }
  destruct (sign_feed_item_inv _ _ _ _ H) as (cb & sig & Hc & Hs & ->).
  split; [exact E|].
  unfold verify_endorsement_signature. rewrite <- E, Hc. cbn [bind].
  eapply signed_bytes_verify; eassumption.
Qed.

End SignatureTexts.

Section SignatureVariants.

Import security hex_text.

(** The cases [bytes.fromhex] goes through. *)
Lemma fromhex_cases (P : str -> Prop) :
  P [] ->
  (forall c s, is_ascii_space c = true -> P s -> P (c :: s)) ->
  (forall c, is_ascii_space c = false -> P [c]) ->
  (forall c c2 s, is_ascii_space c = false -> P s -> P (c :: c2 :: s)) ->
  forall s, P s.
Proof.
  intros Hnil Hsp Hone Htwo s.
  assert (H : forall n s, List.length s <= n -> P s).
  { induction n as [|n IH]; intros [|c [|c2 r]] Hl; cbn in Hl;
      try exact Hnil; try lia.
    - destruct (is_ascii_space c) eqn:E;
        [apply Hsp; [exact E | exact Hnil] | now apply Hone].
    - destruct (is_ascii_space c) eqn:E.
      + apply Hsp; [exact E|]. apply IH. cbn. lia.
      + apply Htwo; [exact E|]. apply IH. lia. }
  exact (H (List.length s) s (le_n _)).
Qed.

Lemma upper_char_hex (c : N) :
  is_ascii_space (ascii_upper_char c) = is_ascii_space c
  /\ hex_value (ascii_upper_char c) = hex_value c.
Proof.
  unfold ascii_upper_char.
  destruct (N.leb_spec 97 c); [|split; reflexivity].
  destruct (N.leb_spec c 122); [|split; reflexivity].
  cbn [andb]. unfold is_ascii_space, hex_value.
  repeat match goal with
  | |- context [(?a =? ?b)%N] => destruct (N.eqb_spec a b); try lia
  | |- context [(?a <=? ?b)%N] => destruct (N.leb_spec a b); try lia
  end; cbn; split; try reflexivity; f_equal; lia.
Qed.

Lemma fromhex_space (c : N) (s : str) :
  is_ascii_space c = true -> bytes_fromhex (c :: s) = bytes_fromhex s.
Proof. intros H. cbn [bytes_fromhex]. now rewrite H. Qed.

Lemma fromhex_single (c : N) :
  is_ascii_space c = false -> bytes_fromhex [c] = Raise ValueError.
Proof.
  intros H. cbn [bytes_fromhex]. rewrite H.
  destruct (hex_value c); reflexivity.
Qed.

Lemma fromhex_pair (c c2 : N) (s : str) :
  is_ascii_space c = false ->
  bytes_fromhex (c :: c2 :: s) =
  match hex_value c with
  | None => Raise ValueError
  | Some top =>
      match hex_value c2 with
      | None => Raise ValueError
      | Some bot =>
          rest <- bytes_fromhex s ;;
          Ok (byte_of_N (N.shiftl top 4 + bot) :: rest)
      end
  end.
Proof.
  intros H.
  change (bytes_fromhex (c :: c2 :: s)) with
    (if is_ascii_space c then bytes_fromhex (c2 :: s)
     else match hex_value c with
          | None => Raise ValueError
          | Some top =>
              match hex_value c2 with
              | None => Raise ValueError
              | Some bot =>
                  rest <- bytes_fromhex s ;;
                  Ok (byte_of_N (N.shiftl top 4 + bot) :: rest)
              end
          end).
  now rewrite H.
Qed.

Lemma fromhex_upper (h : str) :
  bytes_fromhex (upper h) = bytes_fromhex h.
Proof.
  unfold upper. induction h using fromhex_cases; cbn [map].
  - reflexivity.
  - destruct (upper_char_hex c) as [Hs _].
    rewrite !fromhex_space by congruence. assumption.
  - destruct (upper_char_hex c) as [Hs _].
    rewrite !fromhex_single by congruence. reflexivity.
  - destruct (upper_char_hex c) as [Hs Hv].
    destruct (upper_char_hex c2) as [_ Hv2].
    rewrite !fromhex_pair by congruence.
    now rewrite Hv, Hv2, IHh.
Qed.

Lemma fromhex_leading (ws h : str) :
  ascii_spaces ws = true -> bytes_fromhex (ws ++ h) = bytes_fromhex h.
Proof.
  unfold ascii_spaces. induction ws as [|c ws IH]; [reflexivity|].
  cbn [forallb app]. intros H.
  apply andb_prop in H as [Hc Hw].
  rewrite fromhex_space by exact Hc. now apply IH.
Qed.

Lemma space_no_digit (c : N) : is_ascii_space c = true -> hex_value c = None.
Proof.
  unfold is_ascii_space, hex_value. intros H.
  assert (R : (9 <= c <= 13 \/ c = 32)%N).
  { apply orb_prop in H as [H|H].
    - apply andb_prop in H as [H1 H2].
      apply N.leb_le in H1. apply N.leb_le in H2. lia.
    - apply N.eqb_eq in H. lia. }
  repeat match goal with
  | |- context [(?a <=? ?b)%N] => destruct (N.leb_spec a b); try lia
  end; reflexivity.
Qed.

Lemma fromhex_spaces (ws : str) :
  ascii_spaces ws = true -> bytes_fromhex ws = Ok [].
Proof.
  intros H. rewrite <- (app_nil_r ws). now rewrite fromhex_leading.
Qed.

Lemma fromhex_trailing (h ws : str) :
  ascii_spaces ws = true -> bytes_fromhex (h ++ ws) = bytes_fromhex h.
Proof.
  intros Hw. induction h using fromhex_cases; cbn [app].
  - now apply fromhex_spaces.
  - rewrite !fromhex_space by assumption. assumption.
  - rewrite fromhex_single by exact H.
    destruct ws as [|w ws]; [now apply fromhex_single|].
    rewrite fromhex_pair by exact H.
    destruct (hex_value c); [|reflexivity].
    unfold ascii_spaces in Hw. cbn [forallb] in Hw.
    apply andb_prop in Hw as [Hw _].
    now rewrite (space_no_digit w Hw).
  - rewrite !fromhex_pair by assumption. now rewrite IHh.
Qed.

(** The signature text is read up to the case of its letters and up to
    ASCII white space around it: in capital letters, or with blanks in
    front or behind, it verifies exactly as the text itself does. *)
Theorem signature_text_variants (pub : public_key_obj)
  (k d t s h ws ws' : str) :
  ascii_spaces ws = true -> ascii_spaces ws' = true ->
  verify_endorsement_signature pub k (ws ++ upper h ++ ws')
    = verify_endorsement_signature pub k h
  /\ verify_feed_signature pub d t s (ws ++ upper h ++ ws')
     = verify_feed_signature pub d t s h.
Proof.
  intros Hw Hw'.
  assert (E : bytes_fromhex (ws ++ upper h ++ ws') = bytes_fromhex h).
  { now rewrite fromhex_leading, fromhex_trailing, fromhex_upper. }
  unfold verify_endorsement_signature, verify_feed_signature.
  now rewrite E.
Qed.

End SignatureVariants.

Lemma signature_hex_is_lower_hex_witness :
  security.sign_endorsement (demo.private x2a) (lit "AAAA")
    = Ok (lit "2a414141413a6573726f646e65")
  /\ hex_text.lower_hex (lit "2a414141413a6573726f646e65") = true.
Proof.
  split; [reflexivity|].
  exact (proj1 (@signature_hex_is_lower_hex (demo.private x2a)
                  (lit "AAAA") [] [] [] (lit "2a414141413a6573726f646e65")
                  (or_introl eq_refl))).
Defined.

Lemma feed_fields_not_delimited_witness :
  exists h,
    security.sign_feed_item (demo.private x2a)
      (lit "2025-01-01" ++ nl ++ lit "Hello") (lit "big") (lit "World")
    = Ok h
    /\ security.verify_feed_signature (demo.public x2a)
         (lit "2025-01-01") (lit "Hello" ++ nl ++ lit "big") (lit "World") h
       = Ok true.
Proof.
  eexists. split; [reflexivity|].
  exact (proj2 (proj2
    (@feed_fields_not_delimited (demo.private x2a) (demo.public x2a)
       (lit "2025-01-01") (lit "Hello") (lit "big") (lit "World") _
       (demo_keypair x2a) eq_refl))).
Defined.

Lemma feed_signature_verifies_as_endorsement_witness :
  exists h,
    security.sign_feed_item (demo.private x2a)
      (lit "endorse:AAAA") (lit "Hello") (lit "World") = Ok h
    /\ security.verify_endorsement_signature (demo.public x2a)
         (lit "AAAA" ++ nl ++ lit "Hello" ++ nl ++ lit "World") h = Ok true.
Proof.
  eexists. split; [reflexivity|].
  exact (proj2
    (@feed_signature_verifies_as_endorsement (demo.private x2a)
       (demo.public x2a) (lit "AAAA") (lit "Hello") (lit "World") _
       (demo_keypair x2a) eq_refl)).
Defined.

Lemma signature_text_variants_witness :
  hex_text.ascii_spaces (lit " ") = true
  /\ security.verify_endorsement_signature (demo.public x2a) (lit "AAAA")
       (lit " 2A414141413A6573726F646E65 ")
     = security.verify_endorsement_signature (demo.public x2a) (lit "AAAA")
         (lit "2a414141413a6573726f646e65")
  /\ security.verify_endorsement_signature (demo.public x2a) (lit "AAAA")
       (lit "2a414141413a6573726f646e65") = Ok true.
Proof.
  split; [reflexivity|]. split; [|reflexivity].
  exact (proj1
    (@signature_text_variants (demo.public x2a) (lit "AAAA") [] [] []
       (lit "2a414141413a6573726f646e65") (lit " ") (lit " ")
       eq_refl eq_refl)).
Defined.

(* ================================================================== *)
(** ** Reading a built record back                                     *)
(* ================================================================== *)

Section LinesOfText.

Import vcard rendered text_shape roundtrip.

Variable B : builtins.

Lemma splitlines_join (lines : list str) (last : str) :
  forallb one_line lines = true ->
  one_line last = true ->
  splitlines (join_lines lines ++ last)
  = lines ++ match last with [] => [] | _ => [last] end.
Proof.
  unfold splitlines. induction lines as [|line rest IH]; intros Hl Hlast.
  - cbn [join_lines flat_map app].
    rewrite (splitlines_from_last last [] Hlast). cbn [rev app].
    now destruct last.
  - cbn [forallb] in Hl. apply andb_prop in Hl as [Hline Hrest].
    rewrite join_lines_cons, <- !app_assoc.
    change (nl ++ join_lines rest ++ last)
      with (LF :: join_lines rest ++ last).
    rewrite (splitlines_from_line line _ [] Hline).
    cbn [rev app]. now rewrite (IH Hrest Hlast).
Qed.

Lemma clean_app (a b : list str) : clean (a ++ b) = clean a ++ clean b.
Proof. unfold clean. now rewrite filter_app, map_app. Qed.

Lemma parse_lines_app (a b : list str) (p : Profile.t) :
  parse_lines B p (a ++ b)
  = (p' <- parse_lines B p a ;; parse_lines B p' b).
Proof.
  revert p. induction a as [|line a IH]; intros p; [reflexivity|].
  cbn [app parse_lines].
  destruct (parse_line B p line) as [q|e]; cbn [bind]; [apply IH|reflexivity].
Qed.

(** Behind a label that neither starts nor ends with white space,
    [strip] works on the end of the value alone. *)
Lemma strip_labelled (label v : str) :
  label <> [] -> trimmed label = true ->
  strip (label ++ v) = label ++ rstrip v
  /\ truthy (strip (label ++ v)) = true.
Proof.
  intros Hne Ht. unfold trimmed in Ht.
  apply andb_prop in Ht as [Hs He].
  apply negb_true_iff in Hs. apply negb_true_iff in He.
  destruct (exists_last Hne) as (a & c & ->).
  rewrite rev_app_distr in He. cbn [rev app starts_with_space] in He.
  assert (E : strip ((a ++ [c]) ++ v) = (a ++ [c]) ++ rstrip v).
  { unfold strip. rewrite lstrip_start.
    - now apply rstrip_behind.
    - destruct a as [|x a]; [exact He | exact Hs]. }
  split; [exact E|]. rewrite E. now destruct a.
Qed.

Lemma strip_enclosed (label v tail : str) (c : N) :
  label <> [] -> trimmed label = true -> is_space c = false ->
  strip (label ++ v ++ tail ++ [c]) = label ++ v ++ tail ++ [c]
  /\ truthy (strip (label ++ v ++ tail ++ [c])) = true.
Proof.
  intros Hne Ht Hc.
  destruct (strip_labelled (v ++ tail ++ [c]) Hne Ht) as [E T].
  split; [|exact T]. rewrite E. f_equal.
  rewrite !app_assoc. apply rstrip_end. exact Hc.
Qed.

Lemma clean_one (line : str) :
  truthy (strip line) = true -> clean [line] = [strip line].
Proof. intros H. unfold clean. cbn [filter]. now rewrite H. Qed.

End LinesOfText.

Section ReadBack.

Import vcard rendered record_lines text_shape roundtrip.

Variable B : builtins.

Lemma parse_one_line (p : Profile.t) (line : str) :
  parse_lines B p [line] = parse_line B p line.
Proof. cbn [parse_lines]. now destruct (parse_line B p line). Qed.

(** A populated field under a label the parser does not take up leaves
    the profile as it is. *)
Lemma ignored_field (label : string) (v : option str) (p : Profile.t) :
  lit label <> [] -> trimmed (lit label) = true ->
  (forall x, recognized (lit label ++ x) = false) ->
  parse_lines B p (clean (field_lines (labelled label) v)) = Ok p.
Proof.
  intros Hne Ht Hr. destruct v as [[|c s]|]; try reflexivity.
  cbn [field_lines]. unfold labelled.
  destruct (strip_labelled (c :: s) Hne Ht) as [E T].
  rewrite (clean_one _ T), E, parse_one_line.
  apply parse_line_unrecognized. apply Hr.
Qed.

Lemma ignored_name_field (v : option str) (p : Profile.t) :
  parse_lines B p
    (clean (field_lines (fun v => lit "N:" ++ v ++ lit ";;;;") v)) = Ok p.
Proof.
  destruct v as [[|c s]|]; try reflexivity.
  cbn [field_lines].
  assert (Hne : lit "N:" <> []) by discriminate.
  destruct (@strip_enclosed (lit "N:") (c :: s) (lit ";;;") SEMICOLON Hne
              eq_refl eq_refl) as [E T].
  change (lit ";;;" ++ [SEMICOLON]) with (lit ";;;;") in E, T.
  rewrite (clean_one _ T), E, parse_one_line.
  now apply parse_line_unrecognized.
Qed.

Lemma fn_field (v : option str) (p : Profile.t) :
  parse_lines B p (clean (field_lines (labelled "FN:") v))
  = Ok match read_back v with
       | Some name => Profile.set_fn p name
       | None => p
       end.
Proof.
  destruct v as [[|c s]|]; try reflexivity.
  cbn [field_lines read_back]. unfold labelled.
  assert (Hne : lit "FN:" <> []) by discriminate.
  destruct (@strip_labelled (lit "FN:") (c :: s) Hne eq_refl) as [E T].
  rewrite (clean_one _ T), E, parse_one_line. reflexivity.
Qed.

Lemma photo_field (v : option str) (p : Profile.t) :
  parse_lines B p (clean (field_lines (labelled "PHOTO:") v))
  = Ok match read_back v with
       | Some ref => Profile.set_photo p ref
       | None => p
       end.
Proof.
  destruct v as [[|c s]|]; try reflexivity.
  cbn [field_lines read_back]. unfold labelled.
  assert (Hne : lit "PHOTO:" <> []) by discriminate.
  destruct (@strip_labelled (lit "PHOTO:") (c :: s) Hne eq_refl) as [E T].
  rewrite (clean_one _ T), E, parse_one_line. reflexivity.
Qed.

Lemma custom_group (custom : dict str) (p : Profile.t) :
  forallb custom_ignorable custom = true ->
  parse_lines B p (clean (map custom_line custom)) = Ok p.
Proof.
  induction custom as [|kv custom IH]; [reflexivity|].
  cbn [forallb map]. intros H. apply andb_prop in H as [Hkv Hc].
  unfold custom_ignorable in Hkv. apply andb_prop in Hkv as [_ Hr].
  apply negb_true_iff in Hr.
  change (custom_line kv :: map custom_line custom)
    with ([custom_line kv] ++ map custom_line custom).
  rewrite clean_app, parse_lines_app.
  unfold clean at 1. cbn [filter].
  destruct (truthy (strip (custom_line kv))); cbn [map].
  - rewrite parse_one_line, (parse_line_unrecognized B p _ Hr). cbn [bind].
    now apply IH.
  - cbn [parse_lines bind]. now apply IH.
Qed.

End ReadBack.

Section ReadBackKeys.

Import vcard rendered record_lines text_shape roundtrip.

Variable B : builtins.

Lemma header_text_parts (s : str) :
  header_text s = true ->
  one_line s = true /\ str_in COLON s = false /\ str_in SEMICOLON s = false.
Proof.
  unfold header_text. intros H.
  apply andb_prop in H as [H Hs]. apply andb_prop in H as [Hl Hc].
  apply negb_true_iff in Hs. apply negb_true_iff in Hc. now repeat split.
Qed.

(** The line of a key, as the header of a [KEY] property around its
    parameters, and the identifier behind the colon. *)
Lemma key_text_property (key : dict pyval) :
  key_text B key
  = property_line (lit "KEY") (key_params B key) (key_b64_text key).
Proof.
  unfold key_text, property_line, key_params, render_params, render_param,
    alg_text, pref_text, encoding_text, key_b64_text.
  cbn [map List.concat fst snd]. rewrite <- !app_assoc. reflexivity.
Qed.

Lemma key_params_wf (key : dict pyval) :
  header_text (alg_text B key) = true ->
  header_text (pref_text key) = true ->
  header_text (encoding_text key) = true ->
  forallb param_wf (key_params B key) = true
  /\ str_in COLON (render_params (key_params B key)) = false.
Proof.
  intros Ha Hp He.
  destruct (header_text_parts _ Ha) as (_ & Ac & As).
  destruct (header_text_parts _ Hp) as (_ & Pc & Ps).
  destruct (header_text_parts _ He) as (_ & Ec & Es).
  split.
  - unfold key_params, param_wf. cbn [forallb fst snd].
    rewrite As, Ps, Es. reflexivity.
  - unfold key_params, render_params, render_param.
    cbn [map List.concat fst snd].
    rewrite !str_in_app, Ac, Pc, Ec. reflexivity.
Qed.

Lemma key_params_dict (key : dict pyval) :
  names_kept B ->
  params_dict B (key_params B key)
  = [(lit "TYPE", lit "public"); (lit "ALG", alg_text B key);
     (lit "PREF", pref_text key); (lit "ENCODING", encoding_text key)].
Proof.
  intros (Ht & Ha & Hp & He).
  unfold params_dict, key_params. cbn [fold_left fst snd].
  rewrite Ht, Ha, Hp, He. reflexivity.
Qed.

(** What the loop body reads from the stripped line of a key. *)
Lemma key_line_read_back (key : dict pyval) (p : Profile.t) :
  names_kept B ->
  key_writable B key = true ->
  strip (key_text B key)
    = property_line (lit "KEY") (key_params B key)
        (rstrip (key_b64_text key))
  /\ truthy (strip (key_text B key)) = true
  /\ parse_line B p (strip (key_text B key))
     = Ok (Profile.append_public_key p (key_read_back B key)).
Proof.
  intros Hn Hk. unfold key_writable in Hk.
  apply andb_prop in Hk as [Hk Hint]. apply andb_prop in Hk as [Hk Hb].
  apply andb_prop in Hk as [Hk He]. apply andb_prop in Hk as [Hk Hp].
  apply andb_prop in Hk as [_ Ha].
  destruct (key_params_wf key Ha Hp He) as [Hwf Hcol].
  assert (E : strip (key_text B key)
              = property_line (lit "KEY") (key_params B key)
                  (rstrip (key_b64_text key))).
  { rewrite key_text_property. unfold property_line.
    rewrite !app_assoc.
    change (((lit "KEY" ++ render_params (key_params B key)) ++ [COLON])
            ++ key_b64_text key)
      with ((75%N :: (lit "EY" ++ render_params (key_params B key))
               ++ [COLON]) ++ key_b64_text key).
    rewrite strip_behind by reflexivity. reflexivity. }
  split; [exact E|]. split; [rewrite E; reflexivity|].
  rewrite E.
  rewrite parse_key_line by reflexivity.
  rewrite property_line_break by (reflexivity || exact Hcol).
  cbv zeta.
  rewrite (parse_params_rendered B (lit "KEY") (key_params B key))
    by (reflexivity || exact Hwf).
  rewrite (key_params_dict key Hn).
  change (dict_get _ (lit "PREF")) with (Some (pref_text key)).
  unfold key_read_back.
  destruct (int_of_str B (pref_text key)); [reflexivity | discriminate].
Qed.

Lemma key_group (keys : list (dict pyval)) (p : Profile.t) :
  names_kept B ->
  forallb (key_writable B) keys = true ->
  parse_lines B p (clean (map (key_text B) keys))
  = Ok {| Profile.fn := Profile.fn p;
          Profile.photo := Profile.photo p;
          Profile.capabilities := Profile.capabilities p;
          Profile.public_keys :=
            Profile.public_keys p ++ map (key_read_back B) keys;
          Profile.endorsements := Profile.endorsements p;
          Profile.revocations := Profile.revocations p;
          Profile.raw := Profile.raw p |}.
Proof.
  intros Hn. revert p. induction keys as [|key keys IH]; intros p Hk.
  - cbn. rewrite app_nil_r. now destruct p.
  - cbn [forallb map] in *. apply andb_prop in Hk as [Hkey Hkeys].
    destruct (key_line_read_back key p Hn Hkey) as (_ & T & L).
    change (key_text B key :: map (key_text B) keys)
      with ([key_text B key] ++ map (key_text B) keys).
    rewrite clean_app, parse_lines_app, (clean_one _ T), parse_one_line, L.
    cbn [bind]. rewrite (IH _ Hkeys).
    cbn [Profile.append_public_key Profile.fn Profile.photo
         Profile.capabilities Profile.public_keys Profile.endorsements
         Profile.revocations Profile.raw].
    now rewrite <- app_assoc.
Qed.

End ReadBackKeys.

Section BuildThenParse.

Import vcard rendered record_lines text_shape roundtrip.

Variable B : builtins.

(** The text the builder returns for complete keys. *)
Lemma build_vcard_content_text
  (fn n nickname lang gender email categories bday anniversary kind adr tel
   impp photo note url source : option str)
  (custom_attributes : option (dict str))
  (keys : option (list (dict pyval))) :
  forallb key_complete (or_empty keys) = true ->
  build_vcard_content B fn n nickname lang gender email categories bday
    anniversary kind adr tel impp photo note url source
    custom_attributes keys
  = Ok (join_lines
          (vcard_lines B fn n nickname lang gender email categories bday
             anniversary kind adr tel impp photo note url source
             custom_attributes keys)
        ++ lit "END:VCARD").
Proof.
  intros Hkeys.
  unfold build_vcard_content, vcard_lines. cbv zeta.
  rewrite keys_branch, (add_keys_lines _ _ _ Hkeys).
  cbn [bind]. rewrite add_custom_lines.
  rewrite (@add_field_lines source _ (labelled "SOURCE:")) by reflexivity.
  rewrite (@add_field_lines url _ (labelled "URL:")) by reflexivity.
  rewrite (@add_field_lines note _ (labelled "NOTE;LANGUAGE=en-US:"))
    by reflexivity.
  rewrite (@add_field_lines photo _ (labelled "PHOTO:")) by reflexivity.
  rewrite (@add_field_lines impp _ (labelled "IMPP:")) by reflexivity.
  rewrite (@add_field_lines tel _ (labelled "TEL:")) by reflexivity.
  rewrite (@add_field_lines adr _ (labelled "ADR:")) by reflexivity.
  rewrite (@add_field_lines kind _ (labelled "KIND:")) by reflexivity.
  rewrite (@add_field_lines anniversary _ (labelled "ANNIVERSARY:"))
    by reflexivity.
  rewrite (@add_field_lines bday _ (labelled "BDAY:")) by reflexivity.
  rewrite (@add_field_lines categories _ (labelled "CATEGORIES:"))
    by reflexivity.
  rewrite (@add_field_lines email _ (labelled "EMAIL:")) by reflexivity.
  rewrite (@add_field_lines gender _ (labelled "GENDER:")) by reflexivity.
  rewrite (@add_field_lines lang _ (labelled "LANG:")) by reflexivity.
  rewrite (@add_field_lines nickname _ (labelled "NICKNAME:"))
    by reflexivity.
  rewrite (@add_field_lines n _ (fun v => lit "N:" ++ v ++ lit ";;;;"))
    by (intros v; cbn; now rewrite <- !app_assoc).
  rewrite (@add_field_lines fn _ (labelled "FN:")) by reflexivity.
  f_equal.
  rewrite !join_lines_app.
  change (match custom_attributes with Some d => d | None => [] end)
    with (or_empty custom_attributes).
  rewrite <- !app_assoc. reflexivity.
Qed.

Lemma one_line_app (a b : str) :
  one_line (a ++ b) = one_line a && one_line b.
Proof. unfold one_line. apply forallb_app. Qed.

Lemma field_lines_one_line (line : str -> str) (v : option str) :
  (forall x, one_line x = true -> one_line (line x) = true) ->
  plain_field v = true ->
  forallb one_line (field_lines line v) = true.
Proof.
  intros Hl Hv. destruct v as [[|c s]|]; try reflexivity.
  cbn [field_lines forallb]. rewrite Hl; [reflexivity | exact Hv].
Qed.

Lemma labelled_one_line (label : string) (x : str) :
  one_line (lit label) = true -> one_line x = true ->
  one_line (labelled label x) = true.
Proof. intros Hl Hx. unfold labelled. now rewrite one_line_app, Hl, Hx. Qed.

Lemma key_text_one_line (key : dict pyval) :
  key_writable B key = true ->
  one_line (key_text B key) = true /\ key_complete key = true.
Proof.
  unfold key_writable. intros Hk.
  apply andb_prop in Hk as [Hk _]. apply andb_prop in Hk as [Hk Hb].
  apply andb_prop in Hk as [Hk He]. apply andb_prop in Hk as [Hk Hp].
  apply andb_prop in Hk as [Hc Ha].
  destruct (header_text_parts _ Ha) as (La & _).
  destruct (header_text_parts _ Hp) as (Lp & _).
  destruct (header_text_parts _ He) as (Le & _).
  split; [|exact Hc].
  change (key_text B key)
    with (lit "KEY;TYPE=public;ALG=" ++ alg_text B key
          ++ lit ";PREF=" ++ pref_text key
          ++ lit ";ENCODING=" ++ encoding_text key
          ++ lit ":" ++ key_b64_text key).
  rewrite !one_line_app, La, Lp, Le, Hb. reflexivity.
Qed.

Lemma key_lines_one_line (keys : list (dict pyval)) :
  forallb (key_writable B) keys = true ->
  forallb one_line (map (key_text B) keys) = true
  /\ forallb key_complete keys = true.
Proof.
  induction keys as [|key keys IH]; [now split|].
  cbn [forallb map]. intros H. apply andb_prop in H as [Hk Hks].
  destruct (key_text_one_line key Hk) as [-> ->].
  destruct (IH Hks) as [-> ->]. now split.
Qed.

Lemma custom_lines_one_line (custom : dict str) :
  forallb custom_ignorable custom = true ->
  forallb one_line (map custom_line custom) = true.
Proof.
  induction custom as [|kv custom IH]; [reflexivity|].
  cbn [forallb map]. intros H. apply andb_prop in H as [Hkv Hc].
  unfold custom_ignorable in Hkv. apply andb_prop in Hkv as [-> _].
  now apply IH.
Qed.

End BuildThenParse.

Section BuiltRecord.

Import vcard rendered record_lines text_shape roundtrip.

Variable B : builtins.

Lemma vcard_lines_one_line
  (fn n nickname lang gender email categories bday anniversary kind adr tel
   impp photo note url source : option str)
  (custom_attributes : option (dict str))
  (keys : option (list (dict pyval))) :
  forallb plain_field
    [fn; n; nickname; lang; gender; email; categories; bday; anniversary;
     kind; adr; tel; impp; photo; note; url; source] = true ->
  forallb (key_writable B) (or_empty keys) = true ->
  forallb custom_ignorable (or_empty custom_attributes) = true ->
  forallb one_line
    (vcard_lines B fn n nickname lang gender email categories bday
       anniversary kind adr tel impp photo note url source
       custom_attributes keys) = true.
Proof.
  intros Hf Hk Hc. cbn [forallb] in Hf.
  repeat match type of Hf with
  | _ && _ = true => let H := fresh "P" in apply andb_prop in Hf as [H Hf]
  end.
  destruct (key_lines_one_line B _ Hk) as [Lk _].
  pose proof (custom_lines_one_line _ Hc) as Lc.
  unfold vcard_lines. rewrite !forallb_app, Lk, Lc.
  repeat match goal with
  | |- context [forallb one_line (field_lines ?f ?v)] =>
      rewrite (@field_lines_one_line f v)
        by (try assumption; intros x Hx;
            first [ apply labelled_one_line; [reflexivity | exact Hx]
                  | rewrite !one_line_app, Hx; reflexivity ])
  end.
  reflexivity.
Qed.

(** What [build_vcard_content] writes, [parse_vcard] reads back: the
    name and the photo reference without the white space at their end,
    and one PublicKey for each key, in order, with the algorithm in
    lower case, the identifier and the rank; no endorsement and no
    revocation.  This holds when no value contains a line boundary, the
    texts of a key's header contain neither colon nor semicolon, the rank
    of each key is an integer text, and no custom attribute writes a
    line the parser takes up. *)
Theorem built_record_reads_back
  (fn n nickname lang gender email categories bday anniversary kind adr tel
   impp photo note url source : option str)
  (custom_attributes : option (dict str))
  (keys : option (list (dict pyval))) :
  names_kept B ->
  forallb plain_field
    [fn; n; nickname; lang; gender; email; categories; bday; anniversary;
     kind; adr; tel; impp; photo; note; url; source] = true ->
  forallb (key_writable B) (or_empty keys) = true ->
  forallb custom_ignorable (or_empty custom_attributes) = true ->
  exists text,
    build_vcard_content B fn n nickname lang gender email categories bday
      anniversary kind adr tel impp photo note url source
      custom_attributes keys = Ok text
    /\ parse_vcard B text = Ok (profile_read_back B fn photo keys text).
Proof.
  intros Hn Hf Hk Hc.
  destruct (key_lines_one_line B _ Hk) as [_ Ck].
  pose proof (vcard_lines_one_line fn n nickname lang gender email
                categories bday anniversary kind adr tel impp photo note
                url source custom_attributes keys Hf Hk Hc) as HL.
  eexists. split; [apply build_vcard_content_text; exact Ck|].
  unfold parse_vcard.
  change (stripped_lines ?t) with (clean (splitlines t)).
  rewrite (splitlines_join _ _ HL) by reflexivity.
  generalize (join_lines
                (vcard_lines B fn n nickname lang gender email categories
                   bday anniversary kind adr tel impp photo note url source
                   custom_attributes keys) ++ lit "END:VCARD").
  intros text. clear HL Hf.
  unfold vcard_lines. rewrite <- !app_assoc, !clean_app.
  rewrite parse_lines_app.
  change (parse_lines B (Profile.new text)
            (clean [lit "BEGIN:VCARD"; lit "VERSION:4.0"]))
    with (Ok (Profile.new text)).
  cbn [bind].
  rewrite parse_lines_app, fn_field. cbn [bind].
  rewrite parse_lines_app, ignored_name_field. cbn [bind].
  do 11 (rewrite parse_lines_app, ignored_field
           by (discriminate || reflexivity || (intros; reflexivity));
         cbn [bind]).
  rewrite parse_lines_app, photo_field. cbn [bind].
  do 3 (rewrite parse_lines_app, ignored_field
          by (discriminate || reflexivity || (intros; reflexivity));
        cbn [bind]).
  rewrite parse_lines_app, (@key_group B _ _ Hn Hk). cbn [bind].
  rewrite parse_lines_app, (@custom_group B _ _ Hc). cbn [bind].
  change (clean match lit "END:VCARD" with
                | [] => []
                | _ :: _ => [lit "END:VCARD"]
                end) with [lit "END:VCARD"].
  rewrite parse_one_line.
  rewrite parse_line_unrecognized by reflexivity.
  unfold profile_read_back.
  destruct (read_back fn), (read_back photo); reflexivity.
Qed.

End BuiltRecord.

Lemma built_record_reads_back_witness :
  exists text,
    vcard.build_vcard_content ascii_builtins
      (Some (lit "Ann  ")) None (Some []) None None None None None None
      (Some (lit "individual")) None None None
      (Some (lit "https://example.com/ann.png")) None None None
      (Some [(lit "X-FEED", lit "https://example.com/feed")])
      (Some [[(lit "alg", PStr (lit "Ed25519"));
              (lit "key_b64", PStr (lit "AAAA"));
              (lit "pref", PInt 1); (lit "encoding", PStr (lit "b"))]])
    = Ok text
    /\ vcard.parse_vcard ascii_builtins text
       = Ok {| Profile.fn := Some (lit "Ann");
               Profile.photo := Some (lit "https://example.com/ann.png");
               Profile.capabilities := [];
               Profile.public_keys :=
                 [{| PublicKey.alg := lit "ed25519";
                     PublicKey.key_b64 := lit "AAAA";
                     PublicKey.pref := Some 1%Z |}];
               Profile.endorsements := [];
               Profile.revocations := [];
               Profile.raw := text |}.
Proof.
  exact (@built_record_reads_back ascii_builtins
           (Some (lit "Ann  ")) None (Some []) None None None None None None
           (Some (lit "individual")) None None None
           (Some (lit "https://example.com/ann.png")) None None None
           (Some [(lit "X-FEED", lit "https://example.com/feed")])
           (Some [[(lit "alg", PStr (lit "Ed25519"));
                   (lit "key_b64", PStr (lit "AAAA"));
                   (lit "pref", PInt 1); (lit "encoding", PStr (lit "b"))]])
           (conj eq_refl (conj eq_refl (conj eq_refl eq_refl)))
           eq_refl eq_refl eq_refl).
Defined.

Section EndorsementLine.

Import vcard security record_lines text_shape hex_text.

Variable B : builtins.

(** An endorsement signed with [sign_endorsement] and written as an
    [X-ENDORSE] line with the signature as its [SIG] parameter is read
    back by [parse_vcard] as one Endorsement, and this Endorsement
    verifies under the public half of the key. *)
Theorem signed_endorsement_line_verifies (priv : private_key_obj)
  (pub : public_key_obj) (k : str) :
  keypair priv pub ->
  str_upper B (lit "SIG") = lit "SIG" ->
  encodable k = true ->
  one_line k = true ->
  rstrip k = k ->
  exists h p,
    sign_endorsement priv k = Ok h
    /\ parse_vcard B (lit "X-ENDORSE;SIG=" ++ h ++ lit ":" ++ k) = Ok p
    /\ Profile.endorsements p
       = [{| Endorsement.endorsee_key_b64 := k;
             Endorsement.signature_hex := h;
             Endorsement.date := None;
             Endorsement.confidence := None |}]
    /\ Forall
         (fun e =>
            verify_endorsement_signature pub
              (Endorsement.endorsee_key_b64 e) (Endorsement.signature_hex e)
            = Ok true)
         (Profile.endorsements p).
Proof.
  intros K Hu He Hl Hr.
  destruct (canonical_endorsement_total k He) as [c Hc].
  destruct (K c) as (sig & Hs & Hv).
  assert (Hsign : sign_endorsement priv k = Ok (bytes_hex sig)).
  { unfold sign_endorsement. rewrite Hc. cbn [bind]. now rewrite Hs. }
  destruct (bytes_hex_lower sig) as [Lh _].
  destruct (lower_hex_text _ Lh) as (Hcol & Hsemi & _ & _ & Hline).
  set (h := bytes_hex sig) in *.
  set (text := lit "X-ENDORSE;SIG=" ++ h ++ lit ":" ++ k).
  assert (Hverify : verify_endorsement_signature pub k h = Ok true).
  { unfold verify_endorsement_signature. rewrite Hc. cbn [bind].
    eapply signed_bytes_verify; eassumption. }
  assert (Hone : one_line text = true).
  { unfold text. now rewrite !one_line_app, Hline, Hl. }
  assert (Hstrip : strip text = text /\ truthy (strip text) = true).
  { assert (E : strip text = text).
    { unfold text. rewrite !app_assoc.
      change (((lit "X-ENDORSE;SIG=" ++ h) ++ lit ":") ++ k)
        with ((88%N :: (lit "-ENDORSE;SIG=" ++ h) ++ [COLON]) ++ k).
      rewrite strip_behind by reflexivity. now rewrite Hr. }
    split; [exact E|]. rewrite E. reflexivity. }
  destruct Hstrip as [Es Ts].
  assert (Hparse : parse_vcard B text
                   = Ok (Profile.append_endorsement (Profile.new text)
                           {| Endorsement.endorsee_key_b64 := k;
                              Endorsement.signature_hex := h;
                              Endorsement.date := None;
                              Endorsement.confidence := None |})).
  { unfold parse_vcard.
    change (stripped_lines text) with (roundtrip.clean (splitlines text)).
    unfold splitlines. rewrite (splitlines_from_last text [] Hone).
    cbn [rev app].
    assert (Hne : text <> []) by discriminate.
    destruct text as [|x rest] eqn:Et; [now elim Hne|]. rewrite <- Et in *.
    transitivity (parse_lines B (Profile.new text) [strip text]);
      [exact (f_equal (parse_lines B (Profile.new text))
                (@clean_one text Ts))|].
    rewrite Es, parse_one_line.
    rewrite parse_endorse_line by reflexivity.
    assert (Ep : text = property_line (lit "X-ENDORSE") [(lit "SIG", h)] k).
    { unfold property_line, render_params, render_param.
      cbn [map List.concat fst snd]. rewrite app_nil_r.
      rewrite <- !app_assoc. reflexivity. }
    assert (Hb : break_at COLON text
                 = Some (lit "X-ENDORSE" ++ render_params [(lit "SIG", h)],
                         k)).
    { rewrite Ep. apply property_line_break; [reflexivity|].
      unfold render_params, render_param. cbn [map List.concat fst snd].
      now rewrite !str_in_app, Hcol. }
    rewrite Hb. cbv zeta.
    rewrite (parse_params_rendered B (lit "X-ENDORSE") [(lit "SIG", h)]).
    - unfold params_dict. cbn [fold_left fst snd]. rewrite Hu.
      reflexivity.
    - reflexivity.
    - unfold param_wf. cbn [forallb fst snd]. now rewrite Hsemi. }
  exists h, (Profile.append_endorsement (Profile.new text)
               {| Endorsement.endorsee_key_b64 := k;
                  Endorsement.signature_hex := h;
                  Endorsement.date := None;
                  Endorsement.confidence := None |}).
  split; [exact Hsign|]. split; [exact Hparse|]. split; [reflexivity|].
  constructor; [exact Hverify | constructor].
Qed.

End EndorsementLine.

Lemma signed_endorsement_line_verifies_witness :
  exists h p,
    security.sign_endorsement (demo.private x2a) (lit "AAAA") = Ok h
    /\ vcard.parse_vcard ascii_builtins
         (lit "X-ENDORSE;SIG=" ++ h ++ lit ":" ++ lit "AAAA") = Ok p
    /\ Profile.endorsements p
       = [{| Endorsement.endorsee_key_b64 := lit "AAAA";
             Endorsement.signature_hex := h;
             Endorsement.date := None;
             Endorsement.confidence := None |}]
    /\ Forall
         (fun e =>
            security.verify_endorsement_signature (demo.public x2a)
              (Endorsement.endorsee_key_b64 e) (Endorsement.signature_hex e)
            = Ok true)
         (Profile.endorsements p).
Proof.
  exact (@signed_endorsement_line_verifies ascii_builtins
           (demo.private x2a) (demo.public x2a) (lit "AAAA")
           (demo_keypair x2a) eq_refl eq_refl eq_refl eq_refl).
Defined.

(* ================================================================== *)
(** ** Posts: the front matter of a markdown file                      *)
(* ================================================================== *)

Section ReplaceFacts.

Import markdown.

Lemma startswith_prefix (p r : str) : startswith p (p ++ r) = true.
Proof.
  induction p as [|c p IH]; [reflexivity|].
  cbn [app startswith]. now rewrite N.eqb_refl.
Qed.

Lemma startswith_split (p s : str) :
  startswith p s = true -> exists r, s = p ++ r.
Proof.
  revert s. induction p as [|c p IH]; intros s H.
  - now exists s.
  - destruct s as [|d s]; [discriminate|].
    cbn [startswith] in H. apply andb_prop in H as [Hc Hs].
    apply N.eqb_eq in Hc as ->. destruct (IH _ Hs) as [r ->].
    now exists r.
Qed.

Lemma replace_skip (old new x s : str) :
  replace_from old new (List.length x) (x ++ s) = replace_from old new 0 s.
Proof. induction x as [|c x IH]; [reflexivity | exact IH]. Qed.

(** At an occurrence of [old], [replace] puts [new] and goes on behind
    the occurrence. *)
Lemma replace_match (c : N) (old new s : str) :
  replace (c :: old) new ((c :: old) ++ s)
  = new ++ replace (c :: old) new s.
Proof.
  unfold replace. cbn [app replace_from].
  change (startswith (c :: old) (c :: old ++ s))
    with (startswith (c :: old) ((c :: old) ++ s)).
  rewrite startswith_prefix.
  assert (L : List.length (c :: old) - 1 = List.length old)
    by (cbn [List.length]; lia).
  rewrite L. now rewrite replace_skip.
Qed.

(** A stretch of text in which no occurrence of [old] begins is kept. *)
Lemma replace_keep (old new a s : str) :
  (forall a1 a2, a = a1 ++ a2 -> a2 <> [] ->
                 startswith old (a2 ++ s) = false) ->
  replace old new (a ++ s) = a ++ replace old new s.
Proof.
  unfold replace. induction a as [|c a IH]; intros H; [reflexivity|].
  cbn [app replace_from].
  change (c :: a ++ s) with ((c :: a) ++ s).
  rewrite (H [] (c :: a) eq_refl) by discriminate.
  cbn [app]. f_equal. apply IH. intros a1 a2 -> Hne.
  exact (H (c :: a1) a2 eq_refl Hne).
Qed.

(** An occurrence of a text that ends with a colon does not begin inside
    a text without a colon. *)
Lemma no_match_in_plain (f a2 s : str) :
  str_in COLON (a2 ++ s) = false ->
  startswith (f ++ [COLON]) (a2 ++ s) = false.
Proof.
  intros H. destruct (startswith (f ++ [COLON]) (a2 ++ s)) eqn:E;
    [|reflexivity].
  destruct (startswith_split _ _ E) as [r Hr]. rewrite Hr in H.
  rewrite !str_in_app in H. cbn in H.
  now rewrite orb_true_r in H.
Qed.

Lemma no_match_before_colon (f a2 b : str) :
  str_in COLON f = false -> str_in COLON a2 = false -> a2 <> [] ->
  startswith (f ++ [COLON]) (a2 ++ (f ++ [COLON]) ++ b) = false.
Proof.
  intros Hf Ha Hne.
  destruct (startswith (f ++ [COLON]) (a2 ++ (f ++ [COLON]) ++ b)) eqn:E;
    [|reflexivity].
  destruct (startswith_split _ _ E) as [r Hr].
  assert (L : break_at COLON (a2 ++ (f ++ [COLON]) ++ b) = Some (a2 ++ f, b)).
  { rewrite <- !app_assoc. rewrite (app_assoc a2 f).
    apply break_at_first. now rewrite str_in_app, Ha, Hf. }
  rewrite Hr in L. rewrite <- app_assoc in L. cbn [app] in L.
  rewrite (@break_at_first COLON f r Hf) in L.
  injection L as L _. apply (f_equal (@List.length N)) in L.
  rewrite length_app in L.
  destruct a2; [now elim Hne | cbn in L; lia].
Qed.

(** Removing a prefix that ends with a colon from a line that holds it
    twice, around texts without a colon, leaves these two texts. *)
Lemma replace_prefix_twice (f a b : str) :
  str_in COLON f = false -> str_in COLON a = false ->
  str_in COLON b = false ->
  replace (f ++ [COLON]) []
    ((f ++ [COLON]) ++ a ++ (f ++ [COLON]) ++ b)
  = a ++ b.
Proof.
  intros Hf Ha Hb.
  assert (Hm : forall s,
            replace (f ++ [COLON]) [] ((f ++ [COLON]) ++ s)
            = replace (f ++ [COLON]) [] s).
  { intros s. destruct (f ++ [COLON]) as [|c old] eqn:E.
    - destruct f; discriminate.
    - now rewrite replace_match. }
  rewrite Hm, replace_keep.
  - rewrite Hm. rewrite <- (app_nil_r b) at 1. rewrite replace_keep.
    + now rewrite app_nil_r.
    + intros a1 a2 -> _. apply no_match_in_plain.
      rewrite app_nil_r. rewrite str_in_app in Hb.
      now apply orb_false_elim in Hb as [_ Hb].
  - intros a1 a2 -> Hne. apply no_match_before_colon; try assumption.
    rewrite str_in_app in Ha. now apply orb_false_elim in Ha as [_ Ha].
Qed.

End ReplaceFacts.

Section FrontMatter.

Import markdown post_shape.

Lemma front_matter_loop_app (mid tail : list str) (d : dict str) :
  fenceless mid = true ->
  front_matter_loop d (mid ++ tail)
  = front_matter_loop (fold_left read_fields (map strip mid) d) tail.
Proof.
  revert d. induction mid as [|l mid IH]; intros d H; [reflexivity|].
  cbn [fenceless forallb] in H. apply andb_prop in H as [Hl Hm].
  apply negb_true_iff in Hl.
  cbn [app front_matter_loop map fold_left]. rewrite Hl.
  now apply IH.
Qed.

(** Between an opening and a closing fence the lines are front matter;
    the content of the post is what follows the closing fence, and
    later fences belong to it. *)
Theorem front_matter_closed (first close : str) (mid body : list str) :
  strip first = fence ->
  fenceless mid = true ->
  strip close = fence ->
  front_matter (first :: mid ++ close :: body) = (fields_of mid, body).
Proof.
  intros Hf Hm Hc. unfold front_matter.
  rewrite (proj2 (str_eqb_eq (strip first) fence) Hf).
  rewrite (@front_matter_loop_app mid (close :: body) [] Hm).
  cbn [front_matter_loop].
  now rewrite (proj2 (str_eqb_eq (strip close) fence) Hc).
Qed.

(** A file that opens a front matter and never closes it has no
    content: every line behind the opening fence is read as front
    matter. *)
Theorem front_matter_unclosed (first : str) (rest : list str) :
  strip first = fence ->
  fenceless rest = true ->
  front_matter (first :: rest) = (fields_of rest, []).
Proof.
  intros Hf Hm. unfold front_matter.
  rewrite (proj2 (str_eqb_eq (strip first) fence) Hf).
  rewrite <- (app_nil_r rest) at 1.
  now rewrite (@front_matter_loop_app rest [] [] Hm).
Qed.

Lemma field_plain (field : str) :
  In field fields -> str_in COLON field = false.
Proof.
  intros [<-|[<-|[<-|[]]]]; reflexivity.
Qed.

(** The value of a field is the line with every occurrence of the
    field's prefix taken out, not only the leading one. *)
Theorem field_value_loses_every_prefix (field a b : str) (fm : dict str) :
  In field fields ->
  str_in COLON a = false ->
  str_in COLON b = false ->
  dict_get
    (read_fields fm (field ++ lit ":" ++ a ++ field ++ lit ":" ++ b)) field
  = Some (strip (a ++ b)).
Proof.
  intros Hin Ha Hb.
  assert (R : replace (field ++ lit ":") []
                (field ++ lit ":" ++ a ++ field ++ lit ":" ++ b) = a ++ b).
  { rewrite <- (@replace_prefix_twice field a b (field_plain Hin) Ha Hb).
    now rewrite <- !app_assoc. }
  assert (S : startswith (field ++ lit ":")
                (field ++ lit ":" ++ a ++ field ++ lit ":" ++ b) = true).
  { rewrite app_assoc. apply startswith_prefix. }
  set (line := field ++ lit ":" ++ a ++ field ++ lit ":" ++ b) in *.
  unfold read_fields, fields. cbn [fold_left]. unfold read_field.
  destruct Hin as [<-|[<-|[<-|[]]]].
  - rewrite S, R.
    change (startswith (lit "date" ++ lit ":") line) with false.
    change (startswith (lit "link" ++ lit ":") line) with false.
    cbv iota. rewrite dict_get_set. reflexivity.
  - change (startswith (lit "title" ++ lit ":") line) with false.
    rewrite S, R.
    change (startswith (lit "link" ++ lit ":") line) with false.
    cbv iota. rewrite dict_get_set. reflexivity.
  - change (startswith (lit "title" ++ lit ":") line) with false.
    change (startswith (lit "date" ++ lit ":") line) with false.
    rewrite S, R.
    cbv iota. rewrite dict_get_set. reflexivity.
Qed.

End FrontMatter.

(* ================================================================== *)
(** ** Posts: from a markdown file to a feed item                      *)
(* ================================================================== *)

Section ParsedPost.

Import markdown post_shape feed feed_shape.

Variable markdown_html : str -> str.
Variable stem : str -> str.
Variable strptime : str -> str -> result str.

(** After the fall-back for a key, the key has a value. *)
Lemma fallback_value (fm : dict str) (k default : str) :
  exists v,
    dict_get (if truthy_opt (dict_get fm k) then fm
              else dict_set fm k default) k = Some v.
Proof.
  destruct (dict_get fm k) as [v|] eqn:E; cbn [truthy_opt].
  - destruct (truthy v).
    + exists v. exact E.
    + exists default. rewrite dict_get_set.
      now rewrite (proj2 (str_eqb_eq k k) eq_refl).
  - exists default. rewrite dict_get_set.
    now rewrite (proj2 (str_eqb_eq k k) eq_refl).
Qed.

(** [_parse_file] reaches [strptime] for every file, and returns the
    five entries of a post when [strptime] returns. *)
Lemma parse_file_form (path : str) (lines : list str) (mtime_day : str) :
  exists title date_text link,
    _parse_file markdown_html stem strptime path lines mtime_day
    = (date <- strptime date_text (date_format date_text) ;;
       Ok [(lit "title", PStr title);
           (lit "date", PDate date);
           (lit "link", link);
           (lit "content",
            PStr (markdown_html (List.concat (snd (front_matter lines)))));
           (lit "path", PStr path)]).
Proof.
  unfold _parse_file.
  set (fm0 := fst (front_matter lines)).
  destruct (fallback_value fm0 (lit "title") (stem path)) as [t Ht].
  set (fm1 := if truthy_opt (dict_get fm0 (lit "title")) then fm0
              else dict_set fm0 (lit "title") (stem path)) in *.
  destruct (fallback_value fm1 (lit "date") mtime_day) as [d Hd].
  assert (Ht2 : dict_get
                  (if truthy_opt (dict_get fm1 (lit "date")) then fm1
                   else dict_set fm1 (lit "date") mtime_day) (lit "title")
                = Some t).
  { destruct (truthy_opt (dict_get fm1 (lit "date"))); [exact Ht|].
    rewrite dict_get_set. exact Ht. }
  set (fm2 := if truthy_opt (dict_get fm1 (lit "date")) then fm1
              else dict_set fm1 (lit "date") mtime_day) in *.
  exists t, d,
    (match dict_get fm2 (lit "link") with
     | Some l => PStr l
     | None => PNone
     end).
  unfold dict_item. rewrite Ht2, Hd. reflexivity.
Qed.

Lemma parsed_state_shape (path : str) (lines : list str) (mtime_day : str)
  (state : dict pyval) :
  _parse_file markdown_html stem strptime path lines mtime_day = Ok state ->
  exists title date link content,
    state = [(lit "title", PStr title); (lit "date", PDate date);
             (lit "link", link); (lit "content", PStr content);
             (lit "path", PStr path)].
Proof.
  destruct (parse_file_form path lines mtime_day) as (t & dt & l & E).
  rewrite E. destruct (strptime dt (date_format dt)) as [d|e];
    cbn [bind]; [|discriminate].
  intros [= <-]. now repeat eexists.
Qed.

(** Once the file is read, [_parse_file] raises nothing of its own: the
    subscripts [frontmatter["title"]] and [frontmatter["date"]] find
    their keys, and an exception that leaves the function comes from
    [strptime], called with the format that fits the date text. *)
Theorem parse_file_raises_only_in_strptime (path : str) (lines : list str)
  (mtime_day : str) (e : exn) :
  _parse_file markdown_html stem strptime path lines mtime_day = Raise e ->
  exists text, strptime text (date_format text) = Raise e.
Proof.
  destruct (parse_file_form path lines mtime_day) as (t & dt & l & E).
  rewrite E. intros H. exists dt.
  destruct (strptime dt (date_format dt)) as [d|e']; cbn [bind] in H;
    [discriminate | now injection H as ->].
Qed.

Variable slugify : str -> str.
Variable rss : Feed -> result str.

Lemma parsed_states_ready (posts : list source) (states : list (dict pyval)) :
  Forall2
    (fun post state =>
       _parse_file markdown_html stem strptime (path post) (lines post)
         (mtime_day post) = Ok state)
    posts states ->
  forallb item_ready states = true
  /\ map (item_identifier slugify) states
     = map (fun post => PStr (slugify (path post))) posts.
Proof.
  induction 1 as [|post state posts states H _ [IH1 IH2]];
    [split; reflexivity|].
  destruct (parsed_state_shape _ _ _ H) as (t & d & l & c & ->).
  cbn [forallb map]. rewrite IH1, IH2. split; reflexivity.
Qed.

(** A feed built from parsed markdown files with a key pair: every
    file gives an item, the item's identifier is the slug of the file's
    path, its author is the name with the e-mail address in brackets,
    and it carries a signature of its date, title and content that
    verifies under the public key. *)
Theorem parsed_posts_make_signed_items
  (title link description author email language : str)
  (build_date : pyval) (posts : list source) (states : list (dict pyval))
  (ctx : sign_ctx) (priv : security.private_key_obj)
  (pub : security.public_key_obj) :
  Forall2
    (fun post state =>
       _parse_file markdown_html stem strptime (path post) (lines post)
         (mtime_day post) = Ok state)
    posts states ->
  security.keypair priv pub ->
  signs_nonempty priv ->
  key ctx = Some priv ->
  truthy (id ctx) = true ->
  forallb fields_encodable states = true ->
  exists hs feed_items,
    generate_rss slugify rss title link description
      (author_data author email) language build_date states (Some ctx)
    = rss (rendered_feed title link description language build_date
             states feed_items)
    /\ map item_guid feed_items
       = map (fun post => PStr (slugify (path post))) posts
    /\ map item_author feed_items
       = map (fun _ => author ++ lit " (" ++ email ++ lit ")") posts
    /\ map item_extensions feed_items
       = map (fun h => [Some {| signature_value := h; key_id := id ctx |}])
           hs
    /\ Forall2
         (fun state h =>
            security.verify_feed_signature pub (signed_date state)
              (signed_title state) (signed_content state) h = Ok true)
         states hs.
Proof.
  intros Hp K Hne Hk Hid He.
  destruct (parsed_states_ready Hp) as [Hr Hg].
  destruct (@item_loop_signed slugify link (author_data author email) ctx
              priv pub states
              {| feed.title := PStr title;
                 feed.description := PStr description;
                 var_signature_value := None; var_signature_id := None |}
              [] K Hne Hk Hid eq_refl Hr He) as (ls' & hs & L & F).
  exists hs. eexists. split; [|split; [|split; [|split]]].
  - unfold generate_rss. rewrite L. cbn [bind fst snd app].
    destruct (item_loop_returns _ _ _ _ _ _ _ L) as (_ & _ & Ht & Hd & _).
    cbn [feed.title feed.description] in Ht, Hd.
    unfold rendered_feed. rewrite Ht, Hd. reflexivity.
  - rewrite <- Hg. clear - F.
    induction F as [|state h states hs _ _ IH]; [reflexivity|].
    cbn [combine map fst snd]. now rewrite IH.
  - apply Forall2_length in Hp. clear - F Hp. revert posts Hp.
    induction F as [|state h states hs _ _ IH]; intros posts Hp.
    + destruct posts; [reflexivity | discriminate].
    + destruct posts as [|post posts]; [discriminate|].
      cbn [combine map fst snd]. rewrite (IH posts) by (cbn in Hp; lia).
      reflexivity.
  - clear - F.
    induction F as [|state h states hs _ _ IH]; [reflexivity|].
    cbn [combine map fst snd]. now rewrite IH.
  - clear - F.
    induction F as [|state h states hs [_ Hv] _ IH]; constructor;
      assumption.
Qed.

End ParsedPost.

Lemma front_matter_closed_witness :
  markdown.front_matter (post_shape.lines demo_markdown.hello)
  = ([(lit "title", lit "Hello")], [lit "World" ++ nl]).
Proof.
  exact (@front_matter_closed (lit "---" ++ nl) (lit "---" ++ nl)
           [lit "title: Hello" ++ nl] [lit "World" ++ nl]
           eq_refl eq_refl eq_refl).
Defined.

Lemma front_matter_unclosed_witness :
  markdown.front_matter
    [lit "---" ++ nl; lit "title: Hello" ++ nl; lit "World" ++ nl]
  = ([(lit "title", lit "Hello")], []).
Proof.
  exact (@front_matter_unclosed (lit "---" ++ nl)
           [lit "title: Hello" ++ nl; lit "World" ++ nl] eq_refl eq_refl).
Defined.

Lemma field_value_loses_every_prefix_witness :
  dict_get (markdown.read_fields [] (lit "title: My title: part 2"))
    (lit "title")
  = Some (lit "My  part 2").
Proof.
  exact (@field_value_loses_every_prefix (lit "title") (lit " My ")
           (lit " part 2") [] (or_introl eq_refl) eq_refl eq_refl).
Defined.

Lemma parse_file_raises_only_in_strptime_witness :
  exists text,
    demo_markdown.strptime text (markdown.date_format text)
    = Raise ValueError.
Proof.
  exact (@parse_file_raises_only_in_strptime demo_markdown.html
           demo_markdown.stem demo_markdown.strptime
           (post_shape.path demo_markdown.undated)
           (post_shape.lines demo_markdown.undated)
           (post_shape.mtime_day demo_markdown.undated)
           ValueError eq_refl).
Defined.

Lemma parsed_posts_make_signed_items_witness :
  exists hs feed_items,
    feed.generate_rss demo_feed.slug demo_feed.rss (lit "T")
      (lit "https://example.com") (lit "D")
      (markdown.author_data (lit "Ann") (lit "ann@example.com"))
      (lit "en-US") PNone
      [demo_markdown.hello_state]
      (Some demo_feed.signing)
    = demo_feed.rss
        (feed_shape.rendered_feed (lit "T") (lit "https://example.com")
           (lit "D") (lit "en-US") PNone
           [demo_markdown.hello_state]
           feed_items)
    /\ map feed.item_guid feed_items = [PStr (lit "posts-hello-md")]
    /\ map feed.item_author feed_items = [lit "Ann (ann@example.com)"]
    /\ map feed.item_extensions feed_items
       = map (fun h => [Some {| feed.signature_value := h;
                                feed.key_id := lit "AAAA" |}]) hs
    /\ Forall2
         (fun state h =>
            security.verify_feed_signature (demo.public x2a)
              (feed_shape.signed_date state) (feed_shape.signed_title state)
              (feed_shape.signed_content state) h = Ok true)
         [demo_markdown.hello_state] hs.
Proof.
  exact (@parsed_posts_make_signed_items demo_markdown.html
           demo_markdown.stem demo_markdown.strptime
           demo_feed.slug demo_feed.rss
           (lit "T") (lit "https://example.com") (lit "D")
           (lit "Ann") (lit "ann@example.com") (lit "en-US") PNone
           [demo_markdown.hello] [demo_markdown.hello_state]
           demo_feed.signing (demo.private x2a) (demo.public x2a)
           (Forall2_cons demo_markdown.hello demo_markdown.hello_state
              eq_refl (Forall2_nil _))
           (demo_keypair x2a) demo_signs_nonempty
           eq_refl eq_refl eq_refl).
Defined.

(* ================================================================== *)
(** ** Posts: creating a new one                                       *)
(* ================================================================== *)

Section CreatePost.

Import markdown.

(** [create_state] writes no post, whatever it is given.  Under a path
    that exists it leaves through [typer.Exit] and changes nothing.
    Under a new path it makes the file, raises [TypeError] when it
    writes, and leaves the file empty; a second call with this path
    then finds the file and leaves through [typer.Exit]. *)
Theorem create_state_writes_no_post (fs : files)
  (destination title message : str) (date : option str) :
  (dict_has fs destination = true ->
   create_state fs destination title message date = (fs, Exited))
  /\ (dict_has fs destination = false ->
      exists fs',
        create_state fs destination title message date
        = (fs', Raised TypeError)
        /\ dict_get fs' destination = Some []
        /\ (forall p, p <> destination -> dict_get fs' p = dict_get fs p)
        /\ create_state fs' destination title message date
           = (fs', Exited)).
Proof.
  unfold create_state, _create_state_content. split; intros H; rewrite H.
  - reflexivity.
  - exists (dict_set fs destination []).
    assert (G : dict_get (dict_set fs destination []) destination
                = Some []).
    { rewrite dict_get_set.
      now rewrite (proj2 (str_eqb_eq destination destination) eq_refl). }
    split; [reflexivity|]. split; [exact G|]. split.
    + intros p Hp. rewrite dict_get_set.
      destruct (str_eqb destination p) eqn:E; [|reflexivity].
      apply str_eqb_eq in E. now elim Hp.
    + unfold dict_has. now rewrite G.
Qed.

End CreatePost.

(* ================================================================== *)
(** ** UTF-8 keeps texts apart                                         *)
(* ================================================================== *)

Section EncodingApart.

Import code_points security.

Local Open Scope N_scope.

Lemma to_N_byte_of_N (n : N) : n < 256 -> Byte.to_N (byte_of_N n) = n.
Proof.
  intros H. unfold byte_of_N.
  change 255 with (N.ones 8). rewrite N.land_ones.
  rewrite N.mod_small by exact H.
  destruct (Byte.of_N n) as [b|] eqn:E.
  - exact (Byte.to_of_N _ E).
  - apply Byte.of_N_None_iff in E. lia.
Qed.

Lemma lor_disjoint (a x k : N) :
  N.land a (N.ones k) = 0 -> x < 2 ^ k -> N.lor a x = a + x.
Proof.
  intros Ha Hx.
  assert (L : N.land a x = 0).
  { rewrite <- (N.mod_small x (2 ^ k)) by exact Hx.
    rewrite <- N.land_ones, N.land_assoc, (N.land_comm a x).
    rewrite <- N.land_assoc, Ha. apply N.land_0_r. }
  now rewrite <- (N.lxor_lor _ _ L), <- (N.add_nocarry_lxor _ _ L).
Qed.

Lemma continuation_value (c shift : N) :
  Byte.to_N (continuation c shift) = 128 + (c / 2 ^ shift) mod 64.
Proof.
  unfold continuation. rewrite N.shiftr_div_pow2.
  change 0x3F with (N.ones 6). rewrite N.land_ones.
  assert (H : (c / 2 ^ shift) mod 2 ^ 6 < 2 ^ 6)
    by (apply N.mod_lt; discriminate).
  rewrite (@lor_disjoint 0x80 _ 6 eq_refl H).
  change (2 ^ 6) with 64 in *. apply to_N_byte_of_N. lia.
Qed.

Lemma lead_value (a k c shift : N) :
  N.land a (N.ones k) = 0 -> c / 2 ^ shift < 2 ^ k ->
  a + c / 2 ^ shift < 256 ->
  Byte.to_N (byte_of_N (N.lor a (N.shiftr c shift))) = a + c / 2 ^ shift.
Proof.
  intros Ha Hc Hb. rewrite N.shiftr_div_pow2.
  rewrite (@lor_disjoint a _ k Ha Hc). now apply to_N_byte_of_N.
Qed.

Lemma Ok_inj {A} (a b : A) : Ok a = Ok b -> a = b.
Proof. now intros [= ->]. Qed.

Lemma utf8_char_values (c : N) (bs : bytes) :
  in_range c = true -> utf8_char c = Ok bs ->
  map Byte.to_N bs = utf8_values c.
Proof.
  unfold in_range, utf8_char, utf8_values. intros Hr.
  apply N.ltb_lt in Hr.
  destruct (c <? 0x80) eqn:E1; [|destruct (c <? 0x800) eqn:E2;
    [|destruct (c <? 0x10000) eqn:E3; [destruct (is_surrogate c)|]]];
    intros H; try discriminate H; apply Ok_inj in H; subst bs; cbn [map];
    try apply N.ltb_lt in E1; try apply N.ltb_lt in E2;
    try apply N.ltb_lt in E3;
    rewrite ?continuation_value;
    change (2 ^ 0) with 1; change (2 ^ 6) with 64;
    change (2 ^ 12) with 4096; rewrite ?N.div_1_r.
  - rewrite to_N_byte_of_N by lia. reflexivity.
  - rewrite (@lead_value 0xC0 5 c 6 eq_refl).
    + reflexivity.
    + apply N.Div0.div_lt_upper_bound. exact E2.
    + assert (c / 2 ^ 6 < 32)
        by (apply N.Div0.div_lt_upper_bound; exact E2). lia.
  - rewrite (@lead_value 0xE0 4 c 12 eq_refl).
    + reflexivity.
    + apply N.Div0.div_lt_upper_bound. exact E3.
    + assert (c / 2 ^ 12 < 16)
        by (apply N.Div0.div_lt_upper_bound; exact E3). lia.
  - rewrite (@lead_value 0xF0 3 c 18 eq_refl).
    + reflexivity.
    + apply N.Div0.div_lt_upper_bound. cbn. lia.
    + assert (c / 2 ^ 18 < 8)
        by (apply N.Div0.div_lt_upper_bound; cbn; lia). lia.
Qed.

Lemma cons_eq {A} (a b : A) (l l' : list A) :
  a :: l = b :: l' -> a = b /\ l = l'.
Proof. now intros [= -> ->]. Qed.

Ltac euclid c n :=
  generalize (N.div_mod c n ltac:(discriminate))
             (N.mod_lt c n ltac:(discriminate));
  generalize (c mod n); generalize (c / n).

(** The octets of a code point are no beginning of the octets of
    another one. *)
Lemma utf8_values_apart (c c' : N) (r r' : list N) :
  in_range c = true -> in_range c' = true ->
  utf8_values c ++ r = utf8_values c' ++ r' -> c = c'.
Proof.
  unfold in_range, utf8_values. intros Hc Hc'.
  apply N.ltb_lt in Hc, Hc'.
  destruct (c <? 0x80) eqn:E1; [|destruct (c <? 0x800) eqn:E2;
    [|destruct (c <? 0x10000) eqn:E3]];
  (destruct (c' <? 0x80) eqn:F1; [|destruct (c' <? 0x800) eqn:F2;
    [|destruct (c' <? 0x10000) eqn:F3]]);
  try apply N.ltb_lt in E1; try apply N.ltb_ge in E1;
  try apply N.ltb_lt in E2; try apply N.ltb_ge in E2;
  try apply N.ltb_lt in E3; try apply N.ltb_ge in E3;
  try apply N.ltb_lt in F1; try apply N.ltb_ge in F1;
  try apply N.ltb_lt in F2; try apply N.ltb_ge in F2;
  try apply N.ltb_lt in F3; try apply N.ltb_ge in F3;
  cbn [app];
  rewrite <- ?(N.Div0.div_div _ 4096 64), <- ?(N.Div0.div_div _ 64 64);
  euclid (c / 64 / 64) 64; euclid (c' / 64 / 64) 64;
  euclid (c / 64) 64; euclid (c' / 64) 64;
  euclid c 64; euclid c' 64;
  intros;
  repeat match goal with
         | H : _ :: _ = _ :: _ |- _ =>
             apply cons_eq in H; destruct H as [? H]
         end; lia.
Qed.

Lemma utf8_char_apart (c c' : N) (bs bs' r r' : bytes) :
  in_range c = true -> in_range c' = true ->
  utf8_char c = Ok bs -> utf8_char c' = Ok bs' ->
  bs ++ r = bs' ++ r' -> c = c'.
Proof.
  intros Hc Hc' E E' H.
  apply (f_equal (map Byte.to_N)) in H. rewrite !map_app in H.
  rewrite (utf8_char_values _ Hc E), (utf8_char_values _ Hc' E') in H.
  exact (utf8_values_apart _ _ _ _ Hc Hc' H).
Qed.

Lemma utf8_char_nonempty (c : N) (bs : bytes) :
  utf8_char c = Ok bs -> bs <> [].
Proof.
  unfold utf8_char.
  destruct (c <? 0x80); [|destruct (c <? 0x800);
    [|destruct (c <? 0x10000); [destruct (is_surrogate c)|]]];
    intros H; try discriminate H; apply Ok_inj in H; subst bs;
    discriminate.
Qed.

(** Two texts with the same UTF-8 form are the same text. *)
Lemma encode_utf8_apart (s s' : str) (b : bytes) :
  in_range_text s = true -> in_range_text s' = true ->
  encode_utf8 s = Ok b -> encode_utf8 s' = Ok b -> s = s'.
Proof.
  revert s' b. induction s as [|c s IH]; intros s' b Hs Hs' E E'.
  - cbn in E. apply Ok_inj in E. subst b.
    destruct s' as [|c' s']; [reflexivity|].
    cbn [encode_utf8] in E'.
    destruct (utf8_char c') as [bs'|] eqn:U'; [|discriminate].
    destruct (encode_utf8 s') as [rest'|]; [|discriminate].
    cbn [bind] in E'. apply Ok_inj in E'.
    destruct bs'; [now elim (utf8_char_nonempty _ U') | discriminate].
  - cbn [encode_utf8] in E.
    destruct (utf8_char c) as [bs|] eqn:U; [|discriminate].
    destruct (encode_utf8 s) as [rest|] eqn:R; [|discriminate].
    cbn [bind] in E. apply Ok_inj in E.
    destruct s' as [|c' s'].
    + cbn in E'. apply Ok_inj in E'. subst b.
      destruct bs; [now elim (utf8_char_nonempty _ U) | discriminate].
    + cbn [encode_utf8] in E'.
      destruct (utf8_char c') as [bs'|] eqn:U'; [|discriminate].
      destruct (encode_utf8 s') as [rest'|] eqn:R'; [|discriminate].
      cbn [bind] in E'. apply Ok_inj in E'.
      cbn [in_range_text forallb] in Hs, Hs'.
      apply andb_prop in Hs as [Hc Hs]. apply andb_prop in Hs' as [Hc' Hs'].
      assert (Hb : bs ++ rest = bs' ++ rest') by congruence.
      assert (c = c')
        by exact (@utf8_char_apart c c' bs bs' rest rest' Hc Hc' U U' Hb).
      subst c'. rewrite U in U'. apply Ok_inj in U'. subst bs'.
      apply app_inv_head in Hb. subst rest'.
      f_equal. exact (IH s' rest Hs Hs' eq_refl R').
Qed.

(** The octets that are signed for an endorsement belong to one key
    text only: two key texts with the same canonical form are the same
    text. *)
Theorem endorsement_form_determines_key (k k' : str) (c : bytes) :
  in_range_text k = true ->
  in_range_text k' = true ->
  canonical_endorsement_string k = Ok c ->
  canonical_endorsement_string k' = Ok c ->
  k = k'.
Proof.
  unfold canonical_endorsement_string. intros Hk Hk' E E'.
  apply (app_inv_head (lit "endorse:")).
  apply (@encode_utf8_apart _ _ c); assumption.
Qed.

End EncodingApart.

Lemma endorsement_form_determines_key_witness :
  security.canonical_endorsement_string (lit "AAAA")
  = Ok (octets "endorse:AAAA")
  /\ lit "AAAA" = lit "AAAA".
Proof.
  split; [reflexivity|].
  exact (@endorsement_form_determines_key (lit "AAAA") (lit "AAAA")
           (octets "endorse:AAAA") eq_refl eq_refl eq_refl eq_refl).
Defined.
